(** * MTG Deck Manager backend: deck persistence, uniqueness and listing

    A shallow embedding of the deck service of the repository
    (TypeScript, Express + Mongoose) and the properties its specification
    states about it.

    Layers, leaves first, as in the source tree:
    - [JS]: the JavaScript primitives the code calls (string methods,
      [parseInt], the part of [RegExp] the code can build);
    - [MagicColor], [TierRating], [DeckType], [GameStage], [Deck],
      [DeckEntity]: [domain/entities/Deck.ts];
    - [Schema]: [infrastructure/database/schemas/DeckSchema.ts] and the
      document store behind the Mongoose model;
    - [MongoDeckRepository]:
      [infrastructure/repositories/MongoDeckRepository.ts];
    - [DeckUseCases]: [application/use-cases/DeckUseCases.ts];
    - [DeckController]: [presentation/controllers/DeckController.ts];
    - [Joi], [ValidationMiddleware]:
      [presentation/middlewares/validationMiddleware.ts].

    Conventions of the embedding.
    - A JavaScript string is a [string] of code units; the model covers the
      ASCII range: case mapping acts on the letters A-Z and a-z, white space
      is the ASCII white space, other code units are caseless.
    - A [Date] is its time value ([Z], milliseconds); [new Date()] reads a
      clock that is an explicit input.
    - A JavaScript number that holds a page, a limit or a count is an
      integer [Z] (exact below 2^53).
    - [async] functions are run to completion: a rejected promise is the
      [Throw] outcome, the store is threaded explicitly. *)

From Stdlib Require Import ZArith List Bool Ascii String DecimalString Lia Permutation.
Import ListNotations.

Local Open Scope string_scope.
Local Open Scope list_scope.

(* ================================================================== *)
(** * JavaScript primitives *)
(* ================================================================== *)

Module JS.

Definition code (c : ascii) : nat := nat_of_ascii c.

Definition isUpperChar (c : ascii) : bool :=
  Nat.leb 65 (code c) && Nat.leb (code c) 90.

Definition isLowerChar (c : ascii) : bool :=
  Nat.leb 97 (code c) && Nat.leb (code c) 122.

Definition toUpperChar (c : ascii) : ascii :=
  if isLowerChar c then ascii_of_nat (code c - 32) else c.

Definition toLowerChar (c : ascii) : ascii :=
  if isUpperChar c then ascii_of_nat (code c + 32) else c.

Fixpoint smap (f : ascii -> ascii) (s : string) : string :=
  match s with
  | EmptyString => EmptyString
  | String c r => String (f c) (smap f r)
  end.

(** [String.prototype.toUpperCase] / [toLowerCase]. *)
Definition toUpperCase (s : string) : string := smap toUpperChar s.
Definition toLowerCase (s : string) : string := smap toLowerChar s.

(** White space and line terminators stripped by [trim]:
    TAB, LF, VT, FF, CR, SPACE. *)
Definition isWhiteSpace (c : ascii) : bool :=
  (Nat.leb 9 (code c) && Nat.leb (code c) 13) || Nat.eqb (code c) 32.

Fixpoint trimStart (s : string) : string :=
  match s with
  | EmptyString => EmptyString
  | String c r => if isWhiteSpace c then trimStart r else s
  end.

Fixpoint trimEnd (s : string) : string :=
  match s with
  | EmptyString => EmptyString
  | String c r =>
      match trimEnd r with
      | EmptyString => if isWhiteSpace c then EmptyString else String c EmptyString
      | r' => String c r'
      end
  end.

(** [String.prototype.trim]. *)
Definition trim (s : string) : string := trimEnd (trimStart s).

(** [s.split(sep)] for a one-character separator. *)
Fixpoint split (sep : ascii) (s : string) : list string :=
  match s with
  | EmptyString => [EmptyString]
  | String c r =>
      if Ascii.eqb c sep then EmptyString :: split sep r
      else match split sep r with
           | w :: ws => String c w :: ws
           | [] => [String c EmptyString]
           end
  end.

(** [words.join(sep)]. *)
Fixpoint join (sep : string) (ws : list string) : string :=
  match ws with
  | [] => EmptyString
  | [w] => w
  | w :: rest => w ++ sep ++ join sep rest
  end.

(** [s.startsWith(p)]. *)
Fixpoint startsWith (p s : string) : bool :=
  match p, s with
  | EmptyString, _ => true
  | String a p', String b s' => Ascii.eqb a b && startsWith p' s'
  | String _ _, EmptyString => false
  end.

(** [s.includes(sub)]. *)
Fixpoint includes (sub s : string) : bool :=
  startsWith sub s ||
  match s with
  | EmptyString => false
  | String _ r => includes sub r
  end.

(** A string is truthy when it is not empty. *)
Definition truthy (s : string) : bool :=
  match s with EmptyString => false | _ => true end.

(** ** [parseInt(s)] with no radix: leading white space, an optional sign,
    an optional [0x]/[0X] prefix, then the longest run of digits; [None] is
    [NaN]. *)

Definition digitValue (c : ascii) : option Z :=
  let n := code c in
  if Nat.leb 48 n && Nat.leb n 57 then Some (Z.of_nat (n - 48))
  else if Nat.leb 97 n && Nat.leb n 122 then Some (Z.of_nat (n - 87))
  else if Nat.leb 65 n && Nat.leb n 90 then Some (Z.of_nat (n - 55))
  else None.

Definition digitIn (radix : Z) (c : ascii) : option Z :=
  match digitValue c with
  | Some d => if Z.ltb d radix then Some d else None
  | None => None
  end.

(** The digits read so far are [acc]; [seen] tells whether there was one. *)
Fixpoint parseDigits (radix : Z) (seen : bool) (acc : Z) (s : string)
  : option Z :=
  match s with
  | EmptyString => if seen then Some acc else None
  | String c r =>
      match digitIn radix c with
      | Some d => parseDigits radix true (acc * radix + d)%Z r
      | None => if seen then Some acc else None
      end
  end.

Definition parseUnsigned (s : string) : option Z :=
  match s with
  | String "0" (String "x" r) => parseDigits 16 false 0 r
  | String "0" (String "X" r) => parseDigits 16 false 0 r
  | _ => parseDigits 10 false 0 s
  end.

Definition parseInt (s : string) : option Z :=
  match trimStart s with
  | String "-" r => option_map Z.opp (parseUnsigned r)
  | String "+" r => parseUnsigned r
  | t => parseUnsigned t
  end.

(** [x || d] on numbers: [NaN] and [0] are falsy. *)
Definition numOr (x : option Z) (d : Z) : Z :=
  match x with
  | Some n => if Z.eqb n 0 then d else n
  | None => d
  end.

(** ** Regular expressions

    The source builds regular expressions from request strings:
    [new RegExp(`^${name}$`, 'i')] and [new RegExp(location, 'i')].
    The fragment of the pattern language modelled here: ordinary
    characters, [.], the assertions [^] and [$], and the quantifiers
    [*], [+], [?] (each optionally followed by the lazy marker [?]).
    A pattern that uses anything else (a backslash, a group, a class, a
    brace, an alternative) is [OutsideFragment]: the model says nothing
    about it. Matching is the ECMAScript one, with the [i] flag and
    without [m] or [s]. *)

Inductive atom : Type :=
  | AChar (c : ascii)
  | ADot.

Inductive quant : Type := QOne | QOpt | QStar | QPlus.

Inductive item : Type :=
  | IStart
  | IEnd
  | IAtom (a : atom) (q : quant).

Inductive compiled : Type :=
  | Pattern (p : list item)
  | SyntaxError
  | OutsideFragment.

Inductive charClass : Type :=
  | CQuant (q : quant)
  | CAssert (i : item)
  | CAtom (a : atom)
  | CUnsupported.

Definition classify (c : ascii) : charClass :=
  match c with
  | "*"%char => CQuant QStar
  | "+"%char => CQuant QPlus
  | "?"%char => CQuant QOpt
  | "^"%char => CAssert IStart
  | "$"%char => CAssert IEnd
  | "."%char => CAtom ADot
  | "\"%char | "("%char | ")"%char | "["%char | "]"%char
  | "{"%char | "}"%char | "|"%char => CUnsupported
  | _ => CAtom (AChar c)
  end.

Definition consItem (i : item) (r : compiled) : compiled :=
  match r with
  | Pattern p => Pattern (i :: p)
  | other => other
  end.

(** [new RegExp(source, 'i')]: a quantifier with nothing to repeat is a
    [SyntaxError]. *)
Fixpoint parse (s : string) : compiled :=
  match s with
  | EmptyString => Pattern []
  | String c r =>
      match classify c with
      | CQuant _ => SyntaxError
      | CUnsupported => OutsideFragment
      | CAssert i => consItem i (parse r)
      | CAtom a =>
          match r with
          | String c1 r1 =>
              match classify c1 with
              | CQuant q =>
                  match r1 with
                  | String "?" r2 => consItem (IAtom a q) (parse r2)
                  | _ => consItem (IAtom a q) (parse r1)
                  end
              | _ => consItem (IAtom a QOne) (parse r)
              end
          | EmptyString => Pattern [IAtom a QOne]
          end
      end
  end.

(** Line terminators, which [.] does not match. *)
Definition isLineTerminator (c : ascii) : bool :=
  Nat.eqb (code c) 10 || Nat.eqb (code c) 13.

(** One character against one atom, ignoring case. *)
Definition atomMatches (a : atom) (c : ascii) : bool :=
  match a with
  | AChar p => Ascii.eqb (toUpperChar p) (toUpperChar c)
  | ADot => negb (isLineTerminator c)
  end.

(** Does the pattern match a prefix of [s]?  [atStart] tells whether [s]
    is the whole subject (position 0). *)
Fixpoint matchHere (p : list item) (atStart : bool) (s : string) {struct p}
  : bool :=
  match p with
  | [] => true
  | IStart :: p' => atStart && matchHere p' atStart s
  | IEnd :: p' =>
      match s with
      | EmptyString => matchHere p' atStart s
      | String _ _ => false
      end
  | IAtom a q :: p' =>
      let one (k : string -> bool) (s0 : string) : bool :=
        match s0 with
        | String c r => atomMatches a c && k r
        | EmptyString => false
        end in
      let star :=
        fix star (b : bool) (s0 : string) {struct s0} : bool :=
          matchHere p' b s0 ||
          match s0 with
          | String c r => atomMatches a c && star false r
          | EmptyString => false
          end in
      match q with
      | QOne => one (matchHere p' false) s
      | QOpt => one (matchHere p' false) s || matchHere p' atStart s
      | QStar => star atStart s
      | QPlus => one (star false) s
      end
  end.

(** The pattern matches somewhere in the subject. *)
Fixpoint searchFrom (p : list item) (atStart : bool) (s : string) : bool :=
  matchHere p atStart s ||
  match s with
  | EmptyString => false
  | String _ r => searchFrom p false r
  end.

(** [regexp.test(s)]. *)
Definition test (p : list item) (s : string) : bool := searchFrom p true s.

End JS.

(* ================================================================== *)
(** * Domain: [domain/entities/Deck.ts] *)
(* ================================================================== *)

(** The four string enums; [value] is the string a member stands for and
    [ofString] is membership in [Object.values(...)]. *)

Module MagicColor.
Inductive t : Type := WHITE | BLUE | BLACK | RED | GREEN | COLORLESS.
Definition value (c : t) : string :=
  match c with
  | WHITE => "W" | BLUE => "U" | BLACK => "B"
  | RED => "R" | GREEN => "G" | COLORLESS => "C"
  end.
Definition values : list t := [WHITE; BLUE; BLACK; RED; GREEN; COLORLESS].
Definition ofString (s : string) : option t :=
  find (fun c => String.eqb (value c) s) values.
End MagicColor.

Module TierRating.
Inductive t : Type := S | A | B | C | D.
Definition value (r : t) : string :=
  match r with S => "S" | A => "A" | B => "B" | C => "C" | D => "D" end.
Definition values : list t := [S; A; B; C; D].
Definition ofString (s : string) : option t :=
  find (fun r => String.eqb (value r) s) values.
Definition eqb (x y : t) : bool := String.eqb (value x) (value y).
End TierRating.

Module DeckType.
Inductive t : Type := AGGRO | COMBO | CONTROL.
Definition value (d : t) : string :=
  match d with AGGRO => "AGGRO" | COMBO => "COMBO" | CONTROL => "CONTROL" end.
Definition values : list t := [AGGRO; COMBO; CONTROL].
Definition ofString (s : string) : option t :=
  find (fun d => String.eqb (value d) s) values.
Definition eqb (x y : t) : bool := String.eqb (value x) (value y).
End DeckType.

Module GameStage.
Inductive t : Type := EARLY | MID | LATE.
Definition value (g : t) : string :=
  match g with EARLY => "EARLY" | MID => "MID" | LATE => "LATE" end.
Definition values : list t := [EARLY; MID; LATE].
Definition ofString (s : string) : option t :=
  find (fun g => String.eqb (value g) s) values.
Definition eqb (x y : t) : bool := String.eqb (value x) (value y).
End GameStage.

(** [interface Deck]. *)
Module Deck.
Record t : Type := mk {
  id : string;
  name : string;
  description : string;
  colors : list MagicColor.t;
  tierRating : TierRating.t;
  hasCardSleeves : bool;
  isComplete : bool;
  descriptiveImage : option string;
  deckType : DeckType.t;
  gameStage : GameStage.t;
  storageLocation : string;
  planeswalker : option string;
  createdAt : Z;
  updatedAt : Z
}.
End Deck.

(** What a failed call throws.  The source throws plain [Error]s; each
    constructor is one message template of the source, that is, one kind
    of throw site (the HTTP layer tells the kinds apart by a substring of
    the message; the text of a wrapped lower-level message is not
    modelled):
    - [AlreadyExists n]: [`Deck with name '${n}' already exists`] (Conflict);
    - [NotFound i]:      [`Deck with id '${i}' not found`];
    - [Invalid m]:       [m], thrown by [DeckEntity.validateDeck];
    - [Failed op c]:     [`Failed to ${op}: ${error.message}`], the
                         repository's wrapping of a lower-level error [c].
    A lower-level error is one the Mongoose model or the [RegExp]
    constructor raises; [DuplicateKey] is the one whose [code] is 11000. *)
Inductive DbError : Type :=
  | DuplicateKey
  | ValidationError (paths : list string)
  | RegExpSyntaxError (source : string)
  | NegativeSkip.

Inductive Error : Type :=
  | AlreadyExists (name : string)
  | NotFound (id : string)
  | Invalid (message : string)
  | Failed (op : string) (cause : DbError).

(** The outcome of a call: a value, an exception, or [Unmodelled] when the
    call leaves the modelled fragment of the platform (a regular
    expression outside [JS.parse]'s fragment). *)
Inductive outcome (A : Type) : Type :=
  | Return (a : A)
  | Throw (e : Error)
  | Unmodelled.

Arguments Return {A} a.
Arguments Throw {A} e.
Arguments Unmodelled {A}.

Definition bind {A B : Type} (m : outcome A) (k : A -> outcome B) : outcome B :=
  match m with
  | Return a => k a
  | Throw e => Throw e
  | Unmodelled => Unmodelled
  end.

(** The Conflict kind of the specification. *)
Definition isConflict {A : Type} (r : outcome A) : bool :=
  match r with
  | Throw (AlreadyExists _) => true
  | _ => false
  end.

Definition isNotFound {A : Type} (r : outcome A) : bool :=
  match r with
  | Throw (NotFound _) => true
  | _ => false
  end.

(** [class DeckEntity]: the constructor arguments arrive from the request
    through [as any] casts, so the enum-typed fields hold the request's
    strings until the schema validates them. *)
Module DeckEntity.
Record t : Type := mk {
  name : string;
  description : string;
  colors : list string;
  tierRating : string;
  hasCardSleeves : bool;
  isComplete : bool;
  deckType : string;
  gameStage : string;
  storageLocation : string;
  descriptiveImage : option string;
  planeswalker : option string;
  id : string;
  createdAt : Z;
  updatedAt : Z
}.

(** [!s || s.trim().length === 0]. *)
Definition blank (s : string) : bool :=
  negb (JS.truthy s) || Nat.eqb (String.length (JS.trim s)) 0.

Definition validateDeck (e : t) : outcome unit :=
  if blank (name e) then Throw (Invalid "Deck name is required")
  else if blank (description e) then Throw (Invalid "Deck description is required")
  else if Nat.eqb (List.length (colors e)) 0
       then Throw (Invalid "At least one color is required")
  else if blank (storageLocation e) then Throw (Invalid "Storage location is required")
  else Return tt.

(** [new DeckEntity(...)] with the defaults [id = ''],
    [createdAt = updatedAt = new Date()]. *)
Definition new (now : Z)
    (name description : string) (colors : list string) (tierRating : string)
    (hasCardSleeves isComplete : bool) (deckType gameStage storageLocation : string)
    (descriptiveImage planeswalker : option string) : outcome t :=
  let e := mk name description colors tierRating hasCardSleeves isComplete
              deckType gameStage storageLocation descriptiveImage planeswalker
              "" now now in
  bind (validateDeck e) (fun _ => Return e).
End DeckEntity.

(** [interface DeckFilters] ([domain/types]). *)
Module DeckFilters.
Record t : Type := mk {
  deckType : option DeckType.t;
  gameStage : option GameStage.t;
  tierRating : option TierRating.t;
  isComplete : option bool;
  hasCardSleeves : option bool;
  storageLocation : option string
}.
End DeckFilters.

(** Modelled from the spec: [PaginationOptions] and [PaginatedResult], whose
    declarations are not among the sources.  The fields are the ones the
    repository and the controller read and write; the sort fields are the
    ones the API documents ([name], [createdAt], [updatedAt],
    [tierRating]). *)
Module SortField.
Inductive t : Type := name | createdAt | updatedAt | tierRating.
End SortField.

Module PaginationOptions.
Record t : Type := mk {
  page : option Z;
  limit : option Z;
  sortBy : option SortField.t;
  sortOrder : option string
}.
End PaginationOptions.

Module PaginatedResult.
Record t (A : Type) : Type := mk {
  data : list A;
  total : Z;
  page : Z;
  limit : Z;
  totalPages : Z
}.
Arguments mk {A}.
Arguments data {A}.
Arguments total {A}.
Arguments page {A}.
Arguments limit {A}.
Arguments totalPages {A}.
End PaginatedResult.

(* ================================================================== *)
(** * Schema: [DeckSchema.ts] and the Mongoose model over the store *)
(* ================================================================== *)

Module DeckDocument.
Record t : Type := mk {
  _id : string;
  name : string;
  description : string;
  colors : list MagicColor.t;
  tierRating : TierRating.t;
  hasCardSleeves : bool;
  isComplete : bool;
  descriptiveImage : option string;
  deckType : DeckType.t;
  gameStage : GameStage.t;
  storageLocation : string;
  planeswalker : option string;
  createdAt : Z;
  updatedAt : Z
}.
End DeckDocument.

(** [interface UpdateDeckRequest]; the repository's [update] receives it
    through [request as any]. *)
Module UpdateDeckRequest.
Record t : Type := mk {
  name : option string;
  description : option string;
  colors : option (list string);
  tierRating : option string;
  hasCardSleeves : option bool;
  isComplete : option bool;
  deckType : option string;
  gameStage : option string;
  storageLocation : option string;
  descriptiveImage : option string;
  planeswalker : option string
}.
End UpdateDeckRequest.

Module Schema.

(** The collection ['decks'], in insertion order. *)
Definition Store : Type := list DeckDocument.t.

(** The [pre('save')] hook:
    [name.split(' ').map(w => w.charAt(0).toUpperCase()
                              + w.slice(1).toLowerCase()).join(' ')]. *)
Definition capitalize (word : string) : string :=
  match word with
  | EmptyString => EmptyString
  | String c r => String (JS.toUpperChar c) (JS.toLowerCase r)
  end.

Definition preSave (name : string) : string :=
  JS.join " " (map capitalize (JS.split " " name)).

(** ** Path validators, run on the value after the [trim] setter *)

Definition required (s : string) : bool := JS.truthy s.

Definition maxlength (n : nat) (s : string) : bool :=
  Nat.leb (String.length s) n.

Definition lit (s : string) : list JS.item :=
  map (fun c => JS.IAtom (JS.AChar c) JS.QOne) (list_ascii_of_string s).

(** [/^https?:\/\/.+\.(jpg|jpeg|png|gif|webp)$/i], one pattern per
    alternative of the group. *)
Definition imagePattern (ext : string) : list JS.item :=
  [JS.IStart] ++ lit "http" ++ [JS.IAtom (JS.AChar "s") JS.QOpt] ++ lit "://"
  ++ [JS.IAtom JS.ADot JS.QPlus; JS.IAtom (JS.AChar ".") JS.QOne]
  ++ lit ext ++ [JS.IEnd].

Definition imageExtensions : list string := ["jpg"; "jpeg"; "png"; "gif"; "webp"].

Definition validImage (url : string) : bool :=
  negb (JS.truthy url)
  || existsb (fun ext => JS.test (imagePattern ext) url) imageExtensions.

Fixpoint traverse {A B : Type} (f : A -> option B) (l : list A) : option (list B) :=
  match l with
  | [] => Some []
  | x :: r =>
      match f x, traverse f r with
      | Some y, Some ys => Some (y :: ys)
      | _, _ => None
      end
  end.

(** Each [cast] applies the path's setter and validators and yields the
    stored value, or [None] when a validator of the path fails. *)
Definition castName (s : string) : option string :=
  let v := JS.trim s in
  if required v && maxlength 100 v then Some v else None.

Definition castDescription (s : string) : option string :=
  let v := JS.trim s in
  if required v && maxlength 500 v then Some v else None.

Definition castColors (cs : list string) : option (list MagicColor.t) :=
  if Nat.ltb 0 (List.length cs) && Nat.leb (List.length cs) 5
  then traverse MagicColor.ofString cs else None.

Definition castStorageLocation (s : string) : option string :=
  let v := JS.trim s in
  if required v && maxlength 100 v then Some v else None.

Definition castDescriptiveImage (s : string) : option string :=
  let v := JS.trim s in
  if validImage v then Some v else None.

Definition castPlaneswalker (s : string) : option string :=
  let v := JS.trim s in
  if maxlength 50 v then Some v else None.

(** A path that is not supplied is not validated. *)
Definition castOpt {A B : Type} (f : A -> option B) (o : option A)
  : option (option B) :=
  match o with
  | None => Some None
  | Some a => option_map Some (f a)
  end.

Definition failing {A : Type} (path : string) (o : option A) : list string :=
  match o with
  | None => [path]
  | Some _ => []
  end.

Definition obind {A B : Type} (o : option A) (k : A -> option B) : option B :=
  match o with
  | Some a => k a
  | None => None
  end.

(** The document [new DeckModel(data)] would save: fields cast and
    validated, [pre('save')] applied, timestamps set. *)
Definition buildDocument (now : Z) (newId : string) (e : DeckEntity.t)
  : option DeckDocument.t :=
  obind (castName (DeckEntity.name e)) (fun n =>
  obind (castDescription (DeckEntity.description e)) (fun d =>
  obind (castColors (DeckEntity.colors e)) (fun cs =>
  obind (TierRating.ofString (DeckEntity.tierRating e)) (fun tr =>
  obind (castOpt castDescriptiveImage (DeckEntity.descriptiveImage e)) (fun img =>
  obind (DeckType.ofString (DeckEntity.deckType e)) (fun dt =>
  obind (GameStage.ofString (DeckEntity.gameStage e)) (fun gs =>
  obind (castStorageLocation (DeckEntity.storageLocation e)) (fun loc =>
  obind (castOpt castPlaneswalker (DeckEntity.planeswalker e)) (fun pw =>
  Some (DeckDocument.mk newId (preSave n) d cs tr
          (DeckEntity.hasCardSleeves e) (DeckEntity.isComplete e)
          img dt gs loc pw now now)))))))))).

Definition failingPaths (e : DeckEntity.t) : list string :=
  failing "name" (castName (DeckEntity.name e))
  ++ failing "description" (castDescription (DeckEntity.description e))
  ++ failing "colors" (castColors (DeckEntity.colors e))
  ++ failing "tierRating" (TierRating.ofString (DeckEntity.tierRating e))
  ++ failing "descriptiveImage"
       (castOpt castDescriptiveImage (DeckEntity.descriptiveImage e))
  ++ failing "deckType" (DeckType.ofString (DeckEntity.deckType e))
  ++ failing "gameStage" (GameStage.ofString (DeckEntity.gameStage e))
  ++ failing "storageLocation"
       (castStorageLocation (DeckEntity.storageLocation e))
  ++ failing "planeswalker" (castOpt castPlaneswalker (DeckEntity.planeswalker e)).

(** The unique indexes: [_id], and [name] ([unique: true]), both compared
    exactly. *)
Definition collides (doc : DeckDocument.t) (other : DeckDocument.t) : bool :=
  String.eqb (DeckDocument._id other) (DeckDocument._id doc)
  || String.eqb (DeckDocument.name other) (DeckDocument.name doc).

(** [new DeckModel(data).save()]; [now] is the clock and [newId] the
    identifier the driver generates. *)
Definition save (now : Z) (newId : string) (e : DeckEntity.t) (db : Store)
  : (DbError + DeckDocument.t) * Store :=
  match buildDocument now newId e with
  | None => (inl (ValidationError (failingPaths e)), db)
  | Some doc =>
      if existsb (collides doc) db then (inl DuplicateKey, db)
      else (inr doc, db ++ [doc])
  end.

(** [Types.ObjectId.isValid(id)] on strings: 24 hexadecimal digits. *)
Definition isHexDigit (c : ascii) : bool :=
  match JS.digitIn 16 c with Some _ => true | None => false end.

Definition isValidObjectId (id : string) : bool :=
  Nat.eqb (String.length id) 24 && forallb isHexDigit (list_ascii_of_string id).

(** An [ObjectId] prints in lower case; two strings denote the same
    identifier when they agree up to the case of the digits. *)
Definition hasId (id : string) (d : DeckDocument.t) : bool :=
  String.eqb (DeckDocument._id d) (JS.toLowerCase id).

(** [DeckModel.findById(id)]. *)
Definition findById (id : string) (db : Store) : option DeckDocument.t :=
  List.find (hasId id) db.

(** [DeckModel.findOne({ name: regexp })]. *)
Definition findOneByName (re : list JS.item) (db : Store) : option DeckDocument.t :=
  List.find (fun d => JS.test re (DeckDocument.name d)) db.

(** A filter document as [buildFilterQuery] builds it. *)
Module Query.
Record t : Type := mk {
  deckType : option DeckType.t;
  gameStage : option GameStage.t;
  tierRating : option TierRating.t;
  isComplete : option bool;
  hasCardSleeves : option bool;
  storageLocation : option (list JS.item)
}.
End Query.

Definition holds {A : Type} (o : option A) (p : A -> bool) : bool :=
  match o with
  | None => true
  | Some a => p a
  end.

(** A document satisfies a filter document when it satisfies every key of
    it: equality for a value, [test] for a regular expression. *)
Definition matches (q : Query.t) (d : DeckDocument.t) : bool :=
  holds (Query.deckType q) (fun v => DeckType.eqb v (DeckDocument.deckType d))
  && holds (Query.gameStage q) (fun v => GameStage.eqb v (DeckDocument.gameStage d))
  && holds (Query.tierRating q) (fun v => TierRating.eqb v (DeckDocument.tierRating d))
  && holds (Query.isComplete q) (fun v => Bool.eqb v (DeckDocument.isComplete d))
  && holds (Query.hasCardSleeves q) (fun v => Bool.eqb v (DeckDocument.hasCardSleeves d))
  && holds (Query.storageLocation q)
       (fun re => JS.test re (DeckDocument.storageLocation d)).

(** [DeckModel.find(query)] and [DeckModel.countDocuments(query)]. *)
Definition find (q : Query.t) (db : Store) : list DeckDocument.t :=
  filter (matches q) db.

Definition countDocuments (q : Query.t) (db : Store) : Z :=
  Z.of_nat (List.length (find q db)).

(** ** [.sort({ [field]: order })] *)

Definition docLe (f : SortField.t) (a b : DeckDocument.t) : bool :=
  match f with
  | SortField.name => String.leb (DeckDocument.name a) (DeckDocument.name b)
  | SortField.createdAt => Z.leb (DeckDocument.createdAt a) (DeckDocument.createdAt b)
  | SortField.updatedAt => Z.leb (DeckDocument.updatedAt a) (DeckDocument.updatedAt b)
  | SortField.tierRating =>
      String.leb (TierRating.value (DeckDocument.tierRating a))
                 (TierRating.value (DeckDocument.tierRating b))
  end.

(** [order] is [1] (ascending) or [-1] (descending). *)
Definition ordered (f : SortField.t) (order : Z) (a b : DeckDocument.t) : bool :=
  if Z.eqb order 1 then docLe f a b else docLe f b a.

Fixpoint insert {A : Type} (le : A -> A -> bool) (x : A) (l : list A) : list A :=
  match l with
  | [] => [x]
  | y :: r => if le x y then x :: y :: r else y :: insert le x r
  end.

Definition sortWith {A : Type} (le : A -> A -> bool) (l : list A) : list A :=
  fold_right (insert le) [] l.

Definition sort (f : SortField.t) (order : Z) (l : list DeckDocument.t)
  : list DeckDocument.t :=
  sortWith (ordered f order) l.

(** [.skip(n)]: a negative [n] is refused. [.limit(n)]: [0] is no limit and
    a negative [n] limits to [-n]. *)
Definition skip (n : Z) (l : list DeckDocument.t) : DbError + list DeckDocument.t :=
  if Z.ltb n 0 then inl NegativeSkip else inr (skipn (Z.to_nat n) l).

Definition limit (n : Z) (l : list DeckDocument.t) : list DeckDocument.t :=
  if Z.eqb n 0 then l else firstn (Z.abs_nat n) l.

(** ** [findByIdAndUpdate(id, update, { new: true, runValidators: true })] *)

(** The update after casting: the supplied paths with their new values. *)
Module Patch.
Record t : Type := mk {
  name : option string;
  description : option string;
  colors : option (list MagicColor.t);
  tierRating : option TierRating.t;
  hasCardSleeves : option bool;
  isComplete : option bool;
  deckType : option DeckType.t;
  gameStage : option GameStage.t;
  storageLocation : option string;
  descriptiveImage : option string;
  planeswalker : option string
}.
End Patch.

Definition castUpdate (u : UpdateDeckRequest.t) : option Patch.t :=
  obind (castOpt castName (UpdateDeckRequest.name u)) (fun n =>
  obind (castOpt castDescription (UpdateDeckRequest.description u)) (fun d =>
  obind (castOpt castColors (UpdateDeckRequest.colors u)) (fun cs =>
  obind (castOpt TierRating.ofString (UpdateDeckRequest.tierRating u)) (fun tr =>
  obind (castOpt DeckType.ofString (UpdateDeckRequest.deckType u)) (fun dt =>
  obind (castOpt GameStage.ofString (UpdateDeckRequest.gameStage u)) (fun gs =>
  obind (castOpt castStorageLocation (UpdateDeckRequest.storageLocation u)) (fun loc =>
  obind (castOpt castDescriptiveImage (UpdateDeckRequest.descriptiveImage u)) (fun img =>
  obind (castOpt castPlaneswalker (UpdateDeckRequest.planeswalker u)) (fun pw =>
  Some (Patch.mk n d cs tr
          (UpdateDeckRequest.hasCardSleeves u) (UpdateDeckRequest.isComplete u)
          dt gs loc img pw)))))))))).

Definition failingUpdatePaths (u : UpdateDeckRequest.t) : list string :=
  failing "name" (castOpt castName (UpdateDeckRequest.name u))
  ++ failing "description" (castOpt castDescription (UpdateDeckRequest.description u))
  ++ failing "colors" (castOpt castColors (UpdateDeckRequest.colors u))
  ++ failing "tierRating" (castOpt TierRating.ofString (UpdateDeckRequest.tierRating u))
  ++ failing "deckType" (castOpt DeckType.ofString (UpdateDeckRequest.deckType u))
  ++ failing "gameStage" (castOpt GameStage.ofString (UpdateDeckRequest.gameStage u))
  ++ failing "storageLocation"
       (castOpt castStorageLocation (UpdateDeckRequest.storageLocation u))
  ++ failing "descriptiveImage"
       (castOpt castDescriptiveImage (UpdateDeckRequest.descriptiveImage u))
  ++ failing "planeswalker" (castOpt castPlaneswalker (UpdateDeckRequest.planeswalker u)).

Definition orElse {A : Type} (o : option A) (d : A) : A :=
  match o with
  | Some a => a
  | None => d
  end.

(** [$set] of the supplied paths and of [updatedAt]; [_id] and [createdAt]
    are not paths of an update. *)
Definition applyPatch (p : Patch.t) (updatedAt : Z) (d : DeckDocument.t)
  : DeckDocument.t :=
  DeckDocument.mk
    (DeckDocument._id d)
    (orElse (Patch.name p) (DeckDocument.name d))
    (orElse (Patch.description p) (DeckDocument.description d))
    (orElse (Patch.colors p) (DeckDocument.colors d))
    (orElse (Patch.tierRating p) (DeckDocument.tierRating d))
    (orElse (Patch.hasCardSleeves p) (DeckDocument.hasCardSleeves d))
    (orElse (Patch.isComplete p) (DeckDocument.isComplete d))
    (match Patch.descriptiveImage p with
     | Some v => Some v
     | None => DeckDocument.descriptiveImage d
     end)
    (orElse (Patch.deckType p) (DeckDocument.deckType d))
    (orElse (Patch.gameStage p) (DeckDocument.gameStage d))
    (orElse (Patch.storageLocation p) (DeckDocument.storageLocation d))
    (match Patch.planeswalker p with
     | Some v => Some v
     | None => DeckDocument.planeswalker d
     end)
    (DeckDocument.createdAt d)
    updatedAt.

(** Replace the document with identifier [id]. *)
Fixpoint replace (id : string) (new : DeckDocument.t) (db : Store) : Store :=
  match db with
  | [] => []
  | d :: r => if hasId id d then new :: r else d :: replace id new r
  end.

(** Another document already holds the new name. *)
Definition nameTaken (new : DeckDocument.t) (db : Store) : bool :=
  existsb (fun d =>
             negb (String.eqb (DeckDocument._id d) (DeckDocument._id new))
             && String.eqb (DeckDocument.name d) (DeckDocument.name new)) db.

(** The update validators run first; the [pre('save')] hook is not a
    query hook and does not run. *)
Definition findByIdAndUpdate (id : string) (u : UpdateDeckRequest.t)
    (updatedAt : Z) (db : Store)
  : (DbError + option DeckDocument.t) * Store :=
  match castUpdate u with
  | None => (inl (ValidationError (failingUpdatePaths u)), db)
  | Some p =>
      match findById id db with
      | None => (inr None, db)
      | Some d =>
          let new := applyPatch p updatedAt d in
          if nameTaken new db then (inl DuplicateKey, db)
          else (inr (Some new), replace id new db)
      end
  end.

(** [DeckModel.findByIdAndDelete(id)]. *)
Fixpoint remove (id : string) (db : Store) : Store :=
  match db with
  | [] => []
  | d :: r => if hasId id d then r else d :: remove id r
  end.

Definition findByIdAndDelete (id : string) (db : Store)
  : option DeckDocument.t * Store :=
  (findById id db, remove id db).

End Schema.

(* ================================================================== *)
(** * Repository: [MongoDeckRepository.ts] *)
(* ================================================================== *)

Module MongoDeckRepository.

Import Schema.

Definition mapDocumentToEntity (document : DeckDocument.t) : Deck.t :=
  Deck.mk
    (DeckDocument._id document)
    (DeckDocument.name document)
    (DeckDocument.description document)
    (DeckDocument.colors document)
    (DeckDocument.tierRating document)
    (DeckDocument.hasCardSleeves document)
    (DeckDocument.isComplete document)
    (DeckDocument.descriptiveImage document)
    (DeckDocument.deckType document)
    (DeckDocument.gameStage document)
    (DeckDocument.storageLocation document)
    (DeckDocument.planeswalker document)
    (DeckDocument.createdAt document)
    (DeckDocument.updatedAt document).

(** [create]: the entity's own [id], [createdAt] and [updatedAt] are
    dropped before the document is built. *)
Definition create (now : Z) (newId : string) (deck : DeckEntity.t) (db : Store)
  : outcome Deck.t * Store :=
  match save now newId deck db with
  | (inr savedDeck, db') => (Return (mapDocumentToEntity savedDeck), db')
  | (inl DuplicateKey, db') => (Throw (AlreadyExists (DeckEntity.name deck)), db')
  | (inl error, db') => (Throw (Failed "create deck" error), db')
  end.

Definition findById (id : string) (db : Store) : outcome (option Deck.t) :=
  if negb (isValidObjectId id) then Return None
  else Return (option_map mapDocumentToEntity (Schema.findById id db)).

(** [new RegExp(source, 'i')] inside a [try] block whose [catch] wraps the
    error as [`Failed to ${op}: ...`]. *)
Definition newRegExp (op : string) (source : string) : outcome (list JS.item) :=
  match JS.parse source with
  | JS.Pattern p => Return p
  | JS.SyntaxError => Throw (Failed op (RegExpSyntaxError source))
  | JS.OutsideFragment => Unmodelled
  end.

Definition buildFilterQuery (op : string) (filters : option DeckFilters.t)
  : outcome Query.t :=
  match filters with
  | None => Return (Query.mk None None None None None None)
  | Some f =>
      bind (match DeckFilters.storageLocation f with
            | Some loc =>
                if JS.truthy loc
                then bind (newRegExp op loc) (fun re => Return (Some re))
                else Return None
            | None => Return None
            end)
           (fun loc =>
              Return (Query.mk (DeckFilters.deckType f) (DeckFilters.gameStage f)
                        (DeckFilters.tierRating f) (DeckFilters.isComplete f)
                        (DeckFilters.hasCardSleeves f) loc))
  end.

(** [Math.ceil(total / limit)], for [limit <> 0]. *)
Definition ceilDiv (total limit : Z) : Z := (- ((- total) / limit))%Z.

Definition pageOf (pagination : option PaginationOptions.t) : Z :=
  JS.numOr (obind pagination PaginationOptions.page) 1.

Definition limitOf (pagination : option PaginationOptions.t) : Z :=
  JS.numOr (obind pagination PaginationOptions.limit) 10.

Definition sortFieldOf (pagination : option PaginationOptions.t) : SortField.t :=
  orElse (obind pagination PaginationOptions.sortBy) SortField.createdAt.

Definition sortOrderOf (pagination : option PaginationOptions.t) : Z :=
  match obind pagination PaginationOptions.sortOrder with
  | Some o => if String.eqb o "asc" then 1%Z else (-1)%Z
  | None => (-1)%Z
  end.

Definition findAll (filters : option DeckFilters.t)
    (pagination : option PaginationOptions.t) (db : Store)
  : outcome (PaginatedResult.t Deck.t) :=
  bind (buildFilterQuery "find decks" filters) (fun query =>
    let page := pageOf pagination in
    let limit := limitOf pagination in
    let skip := ((page - 1) * limit)%Z in
    let sortField := sortFieldOf pagination in
    let sortOrder := sortOrderOf pagination in
    match Schema.skip skip (Schema.sort sortField sortOrder (Schema.find query db)) with
    | inl error => Throw (Failed "find decks" error)
    | inr skipped =>
        let documents := Schema.limit limit skipped in
        let total := countDocuments query db in
        let decks := map mapDocumentToEntity documents in
        let totalPages := ceilDiv total limit in
        Return (PaginatedResult.mk decks total page limit totalPages)
    end).

Definition update (id : string) (updates : UpdateDeckRequest.t) (now : Z)
    (db : Store) : outcome (option Deck.t) * Store :=
  if negb (isValidObjectId id) then (Return None, db)
  else
    match findByIdAndUpdate id updates now db with
    | (inr updatedDocument, db') =>
        (Return (option_map mapDocumentToEntity updatedDocument), db')
    | (inl DuplicateKey, db') =>
        (Throw (AlreadyExists (orElse (UpdateDeckRequest.name updates) "undefined")), db')
    | (inl error, db') => (Throw (Failed "update deck" error), db')
    end.

Definition delete (id : string) (db : Store) : outcome bool * Store :=
  if negb (isValidObjectId id) then (Return false, db)
  else
    match findByIdAndDelete id db with
    | (Some _, db') => (Return true, db')
    | (None, db') => (Return false, db')
    end.

(** [findOne({ name: new RegExp(`^${name}$`, 'i') })]. *)
Definition findByName (name : string) (db : Store) : outcome (option Deck.t) :=
  bind (newRegExp "find deck by name" ("^" ++ name ++ "$")) (fun re =>
    Return (option_map mapDocumentToEntity (findOneByName re db))).

Definition findByStorageLocation (location : string) (db : Store)
  : outcome (list Deck.t) :=
  bind (newRegExp "find decks by storage location" location) (fun re =>
    Return (map mapDocumentToEntity
              (Schema.find (Query.mk None None None None None (Some re)) db))).

Definition countByFilters (filters : DeckFilters.t) (db : Store) : outcome Z :=
  bind (buildFilterQuery "count decks" (Some filters)) (fun query =>
    Return (countDocuments query db)).

Definition findIncompleteDecks (db : Store) : outcome (list Deck.t) :=
  Return (map mapDocumentToEntity
            (Schema.find (Query.mk None None None (Some false) None None) db)).

End MongoDeckRepository.

(* ================================================================== *)
(** * Use cases: [DeckUseCases.ts] *)
(* ================================================================== *)

Module CreateDeckRequest.
Record t : Type := mk {
  name : string;
  description : string;
  colors : list string;
  tierRating : string;
  hasCardSleeves : bool;
  isComplete : bool;
  deckType : string;
  gameStage : string;
  storageLocation : string;
  descriptiveImage : option string;
  planeswalker : option string
}.
End CreateDeckRequest.

Module DeckResponse.
Record t : Type := mk {
  id : string;
  name : string;
  description : string;
  colors : list string;
  tierRating : string;
  hasCardSleeves : bool;
  isComplete : bool;
  deckType : string;
  gameStage : string;
  storageLocation : string;
  descriptiveImage : option string;
  planeswalker : option string;
  createdAt : Z;
  updatedAt : Z
}.
End DeckResponse.

Module DeckUseCases.

Import Schema.
Module R := MongoDeckRepository.

Definition mapDeckToResponse (deck : Deck.t) : DeckResponse.t :=
  DeckResponse.mk
    (Deck.id deck)
    (Deck.name deck)
    (Deck.description deck)
    (map MagicColor.value (Deck.colors deck))
    (TierRating.value (Deck.tierRating deck))
    (Deck.hasCardSleeves deck)
    (Deck.isComplete deck)
    (DeckType.value (Deck.deckType deck))
    (GameStage.value (Deck.gameStage deck))
    (Deck.storageLocation deck)
    (Deck.descriptiveImage deck)
    (Deck.planeswalker deck)
    (Deck.createdAt deck)
    (Deck.updatedAt deck).

Definition omap {A B : Type} (f : A -> B) (m : outcome A) : outcome B :=
  bind m (fun a => Return (f a)).

Definition createDeck (now : Z) (newId : string) (request : CreateDeckRequest.t)
    (db : Store) : outcome DeckResponse.t * Store :=
  match R.findByName (CreateDeckRequest.name request) db with
  | Throw e => (Throw e, db)
  | Unmodelled => (Unmodelled, db)
  | Return (Some _) =>
      (Throw (AlreadyExists (CreateDeckRequest.name request)), db)
  | Return None =>
      match DeckEntity.new now
              (CreateDeckRequest.name request)
              (CreateDeckRequest.description request)
              (CreateDeckRequest.colors request)
              (CreateDeckRequest.tierRating request)
              (CreateDeckRequest.hasCardSleeves request)
              (CreateDeckRequest.isComplete request)
              (CreateDeckRequest.deckType request)
              (CreateDeckRequest.gameStage request)
              (CreateDeckRequest.storageLocation request)
              (CreateDeckRequest.descriptiveImage request)
              (CreateDeckRequest.planeswalker request) with
      | Throw e => (Throw e, db)
      | Unmodelled => (Unmodelled, db)
      | Return deckEntity =>
          let (createdDeck, db') := R.create now newId deckEntity db in
          (omap mapDeckToResponse createdDeck, db')
      end
  end.

Definition getDeckById (id : string) (db : Store) : outcome (option DeckResponse.t) :=
  omap (option_map mapDeckToResponse) (R.findById id db).

Definition getAllDecks (filters : option DeckFilters.t)
    (pagination : option PaginationOptions.t) (db : Store)
  : outcome (PaginatedResult.t DeckResponse.t) :=
  omap (fun result =>
          PaginatedResult.mk
            (map mapDeckToResponse (PaginatedResult.data result))
            (PaginatedResult.total result)
            (PaginatedResult.page result)
            (PaginatedResult.limit result)
            (PaginatedResult.totalPages result))
       (R.findAll filters pagination db).

(** [request.name && request.name !== existingDeck.name]. *)
Definition nameChanges (request : UpdateDeckRequest.t) (existingDeck : Deck.t) : bool :=
  match UpdateDeckRequest.name request with
  | Some n => JS.truthy n && negb (String.eqb n (Deck.name existingDeck))
  | None => false
  end.

Definition updateDeck (id : string) (request : UpdateDeckRequest.t) (now : Z)
    (db : Store) : outcome (option DeckResponse.t) * Store :=
  match R.findById id db with
  | Throw e => (Throw e, db)
  | Unmodelled => (Unmodelled, db)
  | Return None => (Throw (NotFound id), db)
  | Return (Some existingDeck) =>
      let checked : outcome unit :=
        if nameChanges request existingDeck then
          let name := orElse (UpdateDeckRequest.name request) "" in
          bind (R.findByName name db) (fun deckWithSameName =>
            match deckWithSameName with
            | Some _ => Throw (AlreadyExists name)
            | None => Return tt
            end)
        else Return tt in
      match checked with
      | Throw e => (Throw e, db)
      | Unmodelled => (Unmodelled, db)
      | Return _ =>
          let (updatedDeck, db') := R.update id request now db in
          (omap (option_map mapDeckToResponse) updatedDeck, db')
      end
  end.

Definition deleteDeck (id : string) (db : Store) : outcome bool * Store :=
  match R.findById id db with
  | Throw e => (Throw e, db)
  | Unmodelled => (Unmodelled, db)
  | Return None => (Throw (NotFound id), db)
  | Return (Some _) => R.delete id db
  end.

Definition getIncompleteDecks (db : Store) : outcome (list DeckResponse.t) :=
  omap (map mapDeckToResponse) (R.findIncompleteDecks db).

Definition getDecksByStorageLocation (location : string) (db : Store)
  : outcome (list DeckResponse.t) :=
  omap (map mapDeckToResponse) (R.findByStorageLocation location db).

End DeckUseCases.

(* ================================================================== *)
(** * Controller: [DeckController.getAllDecks] *)
(* ================================================================== *)

(** [req.query] of [GET /decks].  The three enum filters and [sortBy] pass
    through [as any] casts and are carried already typed; the other
    parameters are the strings the controller inspects. *)
Module ListQuery.
Record t : Type := mk {
  page : option string;
  limit : option string;
  sortBy : option SortField.t;
  sortOrder : option string;
  deckType : option DeckType.t;
  gameStage : option GameStage.t;
  tierRating : option TierRating.t;
  isComplete : option string;
  hasCardSleeves : option string;
  storageLocation : option string
}.
End ListQuery.

Module DeckController.

(** [q ? q === 'true' : undefined]. *)
Definition boolParam (q : option string) : option bool :=
  match q with
  | Some s => if JS.truthy s then Some (String.eqb s "true") else None
  | None => None
  end.

Definition filtersOf (query : ListQuery.t) : DeckFilters.t :=
  DeckFilters.mk
    (ListQuery.deckType query)
    (ListQuery.gameStage query)
    (ListQuery.tierRating query)
    (boolParam (ListQuery.isComplete query))
    (boolParam (ListQuery.hasCardSleeves query))
    (ListQuery.storageLocation query).

(** [parseInt(q as string)], where [parseInt(undefined)] is [NaN]. *)
Definition parseIntParam (q : option string) : option Z :=
  Schema.obind q JS.parseInt.

Definition paginationOf (query : ListQuery.t) : PaginationOptions.t :=
  let page := JS.numOr (parseIntParam (ListQuery.page query)) 1 in
  let limit := JS.numOr (parseIntParam (ListQuery.limit query)) 10 in
  let sortBy := Schema.orElse (ListQuery.sortBy query) SortField.createdAt in
  let sortOrder :=
    match ListQuery.sortOrder query with
    | Some s => if JS.truthy s then s else "desc"
    | None => "desc"
    end in
  let page := if Z.ltb page 1 then 1%Z else page in
  let limit := if Z.ltb limit 1 || Z.ltb 100 limit then 10%Z else limit in
  PaginationOptions.mk (Some page) (Some limit) (Some sortBy) (Some sortOrder).

(** The [200] body of [getAllDecks]; a thrown error becomes [500]. *)
Definition getAllDecks (query : ListQuery.t) (db : Schema.Store)
  : outcome (PaginatedResult.t DeckResponse.t) :=
  DeckUseCases.getAllDecks (Some (filtersOf query)) (Some (paginationOf query)) db.

End DeckController.

(* ================================================================== *)
(** * Request validation: [validationMiddleware.ts] *)
(* ================================================================== *)

(** A request body, as [express.json()] parses it.  An object is the list
    of its members; a key is looked up at its first member. *)
Module Json.
#[local] Set Warnings "-register-all".
Inductive t : Type :=
  | Null
  | Bool (b : bool)
  | Num (n : Z)
  | Str (s : string)
  | Arr (items : list t)
  | Obj (members : list (string * t)).

Fixpoint lookup (key : string) (members : list (string * t)) : option t :=
  match members with
  | [] => None
  | (k, v) :: r => if String.eqb k key then Some v else lookup key r
  end.
End Json.

(** The part of the [joi] schema language the two schemas use, and
    [schema.validate(value, { abortEarly, stripUnknown: true })].
    An error is the library's error type (['string.max'],
    ['any.required'], ...) at a path below the validated key. *)
Module Joi.

Inductive kind : Type :=
  | KString (trim : bool) (min max : option nat) (uri : bool)
      (** [Joi.string()] with [.trim()], [.min()], [.max()], [.uri()] *)
  | KValid (values : list string)
      (** [Joi.string().valid(...values)] *)
  | KBoolean
      (** [Joi.boolean()] *)
  | KArray (items : kind) (min max : option nat).
      (** [Joi.array().items(items)] with [.min()], [.max()] *)

Record key : Type := mkKey {
  name : string;
  schema : kind;
  required : bool;
  messages : list (string * string)
}.

Record object : Type := mkObject {
  keys : list key;
  minKeys : option nat
}.

Record error : Type := mkError {
  path : list string;
  type : string
}.

(** A message is the text the schema's [.messages()] gives for the error
    type, or else the library's default text for that type. *)
Inductive message : Type :=
  | Custom (text : string)
  | Default (type : string).

Record detail : Type := mkDetail {
  detailPath : list string;
  detailMessage : message
}.

Definition indexString (i : nat) : string :=
  NilEmpty.string_of_uint (Nat.to_uint i).

Definition below (seg : string) (e : error) : error :=
  mkError (seg :: path e) (type e).

Definition when (b : bool) (t : string) : list error :=
  if b then [mkError [] t] else [].

Definition exceeds (n : nat) (bound : option nat) : bool :=
  match bound with Some m => Nat.ltb m n | None => false end.

Definition under (n : nat) (bound : option nat) : bool :=
  match bound with Some m => Nat.ltb n m | None => false end.

Section Validate.

(** The library's URI grammar (RFC 3986) is a parameter. *)
Variable isUri : string -> bool.

(** The errors of one value against one schema, all of them
    ([abortEarly: false]), in the order the library finds them. *)
Fixpoint check (k : kind) (v : Json.t) : list error :=
  match k with
  | KString trim min max uri =>
      match v with
      | Json.Str s =>
          let s := if trim then JS.trim s else s in
          if negb (JS.truthy s) then [mkError [] "string.empty"]
          else when (under (String.length s) min) "string.min"
               ++ when (exceeds (String.length s) max) "string.max"
               ++ when (uri && negb (isUri s)) "string.uri"
      | _ => [mkError [] "string.base"]
      end
  | KValid values =>
      match v with
      | Json.Str s =>
          if existsb (String.eqb s) values then []
          else mkError [] "any.only" :: when (negb (JS.truthy s)) "string.empty"
      | _ => [mkError [] "any.only"; mkError [] "string.base"]
      end
  | KBoolean =>
      match v with
      | Json.Bool _ => []
      | Json.Str s =>
          let n := JS.toLowerCase s in
          when (negb (String.eqb n "true" || String.eqb n "false")) "boolean.base"
      | _ => [mkError [] "boolean.base"]
      end
  | KArray items min max =>
      match v with
      | Json.Arr l =>
          (fix each (i : nat) (l : list Json.t) {struct l} : list error :=
             match l with
             | [] => []
             | x :: r => map (below (indexString i)) (check items x) ++ each (S i) r
             end) 0 l
          ++ when (under (List.length l) min) "array.min"
          ++ when (exceeds (List.length l) max) "array.max"
      | _ => [mkError [] "array.base"]
      end
  end.

(** The value after conversion ([convert] is on by default): strings
    trimmed, the strings ["true"] and ["false"] turned into booleans. *)
Fixpoint convert (k : kind) (v : Json.t) : Json.t :=
  match k, v with
  | KString true _ _ _, Json.Str s => Json.Str (JS.trim s)
  | KBoolean, Json.Str s =>
      let n := JS.toLowerCase s in
      if String.eqb n "true" then Json.Bool true
      else if String.eqb n "false" then Json.Bool false
      else v
  | KArray items _ _, Json.Arr l => Json.Arr (map (convert items) l)
  | _, _ => v
  end.

(** The errors of one key of an object schema. *)
Definition keyErrors (k : key) (members : list (string * Json.t)) : list error :=
  match Json.lookup (name k) members with
  | None => if required k then [mkError [name k] "any.required"] else []
  | Some v => map (below (name k)) (check (schema k) v)
  end.

Definition messageOf (k : key) (e : error) : detail :=
  mkDetail (path e)
    (match List.find (fun m => String.eqb (fst m) (type e)) (messages k) with
     | Some m => Custom (snd m)
     | None => Default (type e)
     end).

Definition keyDetails (k : key) (members : list (string * Json.t)) : list detail :=
  map (messageOf k) (keyErrors k members).

Definition present (members : list (string * Json.t)) (k : key) : bool :=
  match Json.lookup (name k) members with Some _ => true | None => false end.

(** [error.details]: the keys are validated in the order of the schema;
    the object's own rule ([.min(1)]) is tested when no key failed. *)
Definition validate (o : object) (abortEarly : bool) (body : Json.t) : list detail :=
  let all :=
    match body with
    | Json.Obj members =>
        match flat_map (fun k => keyDetails k members) (keys o) with
        | [] =>
            if under (List.length (filter (present members) (keys o))) (minKeys o)
            then [mkDetail [] (Default "object.min")] else []
        | errs => errs
        end
    | _ => [mkDetail [] (Default "object.base")]
    end in
  if abortEarly then firstn 1 all else all.

(** [value]: unknown keys stripped, known members converted. *)
Definition value (o : object) (body : Json.t) : Json.t :=
  match body with
  | Json.Obj members =>
      Json.Obj
        (flat_map (fun m =>
                     match List.find (fun k => String.eqb (name k) (fst m)) (keys o) with
                     | Some k => [(fst m, convert (schema k) (snd m))]
                     | None => []
                     end) members)
  | _ => body
  end.

End Validate.

End Joi.

Module ValidationMiddleware.

Import Joi.

Definition colorValues : list string := map MagicColor.value MagicColor.values.
Definition tierValues : list string := map TierRating.value TierRating.values.
Definition typeValues : list string := map DeckType.value DeckType.values.
Definition stageValues : list string := map GameStage.value GameStage.values.

Definition createDeckSchema : object :=
  mkObject
    [ mkKey "name" (KString true (Some 1) (Some 100) false) true
        [("string.empty", "Deck name is required");
         ("string.min", "Deck name must be at least 1 character");
         ("string.max", "Deck name cannot exceed 100 characters")];
      mkKey "description" (KString true (Some 1) (Some 500) false) true
        [("string.empty", "Description is required");
         ("string.max", "Description cannot exceed 500 characters")];
      mkKey "colors" (KArray (KValid colorValues) (Some 1) (Some 5)) true
        [("array.min", "At least one color is required");
         ("array.max", "A deck cannot have more than 5 colors");
         ("any.only", "Invalid magic color")];
      mkKey "tierRating" (KValid tierValues) true
        [("any.only", "Tier rating must be S, A, B, C, or D")];
      mkKey "hasCardSleeves" KBoolean true
        [("any.required", "Card sleeves status is required")];
      mkKey "isComplete" KBoolean true
        [("any.required", "Completion status is required")];
      mkKey "deckType" (KValid typeValues) true
        [("any.only", "Deck type must be AGGRO, COMBO, or CONTROL")];
      mkKey "gameStage" (KValid stageValues) true
        [("any.only", "Game stage must be EARLY, MID, or LATE")];
      mkKey "storageLocation" (KString true (Some 1) (Some 100) false) true
        [("string.empty", "Storage location is required");
         ("string.max", "Storage location cannot exceed 100 characters")];
      mkKey "descriptiveImage" (KString false None None true) false
        [("string.uri", "Descriptive image must be a valid URL")];
      mkKey "planeswalker" (KString true None (Some 50) false) false
        [("string.max", "Planeswalker name cannot exceed 50 characters")] ]
    None.

Definition updateDeckSchema : object :=
  mkObject
    [ mkKey "name" (KString true (Some 1) (Some 100) false) false [];
      mkKey "description" (KString true (Some 1) (Some 500) false) false [];
      mkKey "colors" (KArray (KValid colorValues) (Some 1) (Some 5)) false [];
      mkKey "tierRating" (KValid tierValues) false [];
      mkKey "hasCardSleeves" KBoolean false [];
      mkKey "isComplete" KBoolean false [];
      mkKey "deckType" (KValid typeValues) false [];
      mkKey "gameStage" (KValid stageValues) false [];
      mkKey "storageLocation" (KString true (Some 1) (Some 100) false) false [];
      mkKey "descriptiveImage" (KString false None None true) false [];
      mkKey "planeswalker" (KString true None (Some 50) false) false [] ]
    (Some 1).

(** One entry of the [details] array of the [400] response. *)
Record FieldMessage : Type := mkFieldMessage {
  field : string;
  message : Joi.message
}.

(** [{ field: detail.path.join('.'), message: detail.message }]. *)
Definition errorMessage (d : detail) : FieldMessage :=
  mkFieldMessage (JS.join "." (detailPath d)) (detailMessage d).

(** What the middleware does: answer [400] with the details, or store the
    converted body and call [next()]. *)
Inductive result : Type :=
  | Status400 (details : list FieldMessage)
  | Next (body : Json.t).

Definition run (isUri : string -> bool) (o : object) (body : Json.t) : result :=
  match validate isUri o false body with
  | [] => Next (value o body)
  | details => Status400 (map errorMessage details)
  end.

Definition validateCreateDeck (isUri : string -> bool) (body : Json.t) : result :=
  run isUri createDeckSchema body.

Definition validateUpdateDeck (isUri : string -> bool) (body : Json.t) : result :=
  run isUri updateDeckSchema body.

End ValidationMiddleware.

(* ================================================================== *)
(** * The vocabulary of the specification *)
(* ================================================================== *)

Module Spec.

(** A string with no character that is special in a regular expression. *)
Definition ordinary (c : ascii) : bool :=
  match JS.classify c with
  | JS.CAtom (JS.AChar _) => true
  | _ => false
  end.

Fixpoint literal (s : string) : bool :=
  match s with
  | EmptyString => true
  | String c r => ordinary c && literal r
  end.

(** The text that follows a literal does not start with a quantifier. *)
Definition notQuantified (tail : string) : Prop :=
  match tail with
  | EmptyString => True
  | String c _ =>
      match JS.classify c with JS.CQuant _ => False | _ => True end
  end.

(** The entity the constructor builds from a request. *)
Definition entityOf (now : Z) (request : CreateDeckRequest.t) : outcome DeckEntity.t :=
  DeckEntity.new now
    (CreateDeckRequest.name request) (CreateDeckRequest.description request)
    (CreateDeckRequest.colors request) (CreateDeckRequest.tierRating request)
    (CreateDeckRequest.hasCardSleeves request) (CreateDeckRequest.isComplete request)
    (CreateDeckRequest.deckType request) (CreateDeckRequest.gameStage request)
    (CreateDeckRequest.storageLocation request)
    (CreateDeckRequest.descriptiveImage request) (CreateDeckRequest.planeswalker request).

(** Equality and containment of strings up to the case of the letters. *)
Definition sameIgnoringCase (a b : string) : bool :=
  String.eqb (JS.toUpperCase a) (JS.toUpperCase b).

Definition containsIgnoringCase (sub s : string) : bool :=
  JS.includes (JS.toUpperCase sub) (JS.toUpperCase s).

(** Title-casing read character by character: a letter that starts a word
    (at the start of the name or after a space) is put in upper case, any
    other letter in lower case. *)
Fixpoint titleFrom (wordStart : bool) (s : string) : string :=
  match s with
  | EmptyString => EmptyString
  | String c r =>
      if Ascii.eqb c " " then String c (titleFrom true r)
      else String (if wordStart then JS.toUpperChar c else JS.toLowerChar c)
                  (titleFrom false r)
  end.

(** A name is title-cased when the [pre('save')] hook leaves it as it is. *)
Definition titleCased (name : string) : bool :=
  String.eqb (Schema.preSave name) name.

(** Some record of the store holds the name, in some case variant. *)
Definition nameExists (name : string) (db : Schema.Store) : bool :=
  existsb (fun d => sameIgnoringCase name (DeckDocument.name d)) db.

(** Some record other than the one with identifier [id] holds the name. *)
Definition nameHeldByOther (id name : string) (db : Schema.Store) : bool :=
  existsb (fun d => negb (Schema.hasId id d)
                    && sameIgnoringCase name (DeckDocument.name d)) db.

(** The filter predicate as the specification words it: every supplied
    field has to agree, the storage location by containment up to case,
    the others exactly. *)
Definition satisfies (f : DeckFilters.t) (d : DeckDocument.t) : bool :=
  Schema.holds (DeckFilters.deckType f)
    (fun v => DeckType.eqb v (DeckDocument.deckType d))
  && Schema.holds (DeckFilters.gameStage f)
       (fun v => GameStage.eqb v (DeckDocument.gameStage d))
  && Schema.holds (DeckFilters.tierRating f)
       (fun v => TierRating.eqb v (DeckDocument.tierRating d))
  && Schema.holds (DeckFilters.isComplete f)
       (fun v => Bool.eqb v (DeckDocument.isComplete d))
  && Schema.holds (DeckFilters.hasCardSleeves f)
       (fun v => Bool.eqb v (DeckDocument.hasCardSleeves d))
  && Schema.holds (DeckFilters.storageLocation f)
       (fun loc => containsIgnoringCase loc (DeckDocument.storageLocation d)).

Definition literalFilters (f : DeckFilters.t) : bool :=
  Schema.holds (DeckFilters.storageLocation f) literal.

(** A string starts clean when it is empty or starts with no white space. *)
Definition startsClean (s : string) : bool :=
  match s with
  | EmptyString => true
  | String c _ => negb (JS.isWhiteSpace c)
  end.

(** What the unique indexes and the setters of the schema maintain:
    identifiers and names are pairwise distinct, names are trimmed. *)
Definition trimmed (s : string) : Prop := JS.trim s = s.

Record Consistent (db : Schema.Store) : Prop := mkConsistent {
  ids_distinct : NoDup (map DeckDocument._id db);
  names_distinct : NoDup (map DeckDocument.name db);
  names_trimmed : Forall (fun d => trimmed (DeckDocument.name d)) db
}.

(** The page and the limit the specification asks for, given what the
    request asks for ([None]: nothing, or not a number). *)
Definition clampedPage (requested : option Z) : Z :=
  match requested with
  | Some p => if Z.ltb p 1 then 1%Z else p
  | None => 1%Z
  end.

Definition clampedLimit (requested : option Z) : Z :=
  match requested with
  | Some l => if Z.leb 1 l && Z.leb l 100 then l else 10%Z
  | None => 10%Z
  end.

(** The stores the service can produce: from the empty collection, by any
    sequence of its three writing operations, at any clock readings and
    with any generated identifiers. *)
Inductive Reachable : Schema.Store -> Prop :=
  | ReachEmpty : Reachable []
  | ReachCreate (now : Z) (newId : string) (request : CreateDeckRequest.t)
      (db : Schema.Store) :
      Reachable db ->
      Reachable (snd (DeckUseCases.createDeck now newId request db))
  | ReachUpdate (id : string) (request : UpdateDeckRequest.t) (now : Z)
      (db : Schema.Store) :
      Reachable db ->
      Reachable (snd (DeckUseCases.updateDeck id request now db))
  | ReachDelete (id : string) (db : Schema.Store) :
      Reachable db ->
      Reachable (snd (DeckUseCases.deleteDeck id db)).

(** A list of documents in descending order of creation time. *)
Fixpoint newestFirst (l : list Z) : Prop :=
  match l with
  | [] => True
  | x :: r =>
      match r with
      | [] => True
      | y :: _ => (y <= x)%Z
      end /\ newestFirst r
  end.

End Spec.

(* ================================================================== *)
(** * Sample requests and stores *)
(* ================================================================== *)

Module Examples.

Definition id1 : string := "65f1a2b3c4d5e6f708192a01".
Definition id2 : string := "65f1a2b3c4d5e6f708192a02".
Definition id3 : string := "65f1a2b3c4d5e6f708192a03".

(** The deck of the API documentation, under a given name and storage
    location. *)
Definition deckAt (name location : string) : CreateDeckRequest.t :=
  CreateDeckRequest.mk name "Fast red aggro deck with lightning bolts" ["R"] "A"
    true true "AGGRO" "EARLY" location None (Some "Chandra").

Definition deck (name : string) : CreateDeckRequest.t := deckAt name "Red Box #1".

(** An update that supplies nothing. *)
Definition noUpdate : UpdateDeckRequest.t :=
  UpdateDeckRequest.mk None None None None None None None None None None None.

(** A partial update that supplies a name only. *)
Definition rename (name : string) : UpdateDeckRequest.t :=
  UpdateDeckRequest.mk (Some name) None None None None None None None None None None.

(** A partial update that supplies a description only. *)
Definition describe (description : string) : UpdateDeckRequest.t :=
  UpdateDeckRequest.mk None (Some description) None None None None None None None None None.

(** The store after [POST /decks] with the name ["lightning aggro"], at
    time 1000. *)
Definition oneDeck : Schema.Store :=
  snd (DeckUseCases.createDeck 1000 id1 (deck "lightning aggro") []).

Definition lightningAggro : DeckDocument.t :=
  DeckDocument.mk id1 "Lightning Aggro" "Fast red aggro deck with lightning bolts"
    [MagicColor.RED] TierRating.A true true None DeckType.AGGRO GameStage.EARLY
    "Red Box #1" (Some "Chandra") 1000 1000.

(** ... and after [PUT /decks/:id] renames that deck to ["what?"], at
    time 2000. *)
Definition renamed : Schema.Store :=
  snd (DeckUseCases.updateDeck id1 (rename "what?") 2000 oneDeck).

(** A store with two decks, kept at ["Box-1"] and at ["Red Box #1"],
    created at times 1000 and 2000. *)
Definition twoBoxes : Schema.Store :=
  snd (DeckUseCases.createDeck 2000 id2 (deck "Goblin Rush")
         (snd (DeckUseCases.createDeck 1000 id1 (deckAt "Merfolk Tempo" "Box-1") []))).

(** The filters that supply a storage location only. *)
Definition storedAt (location : string) : DeckFilters.t :=
  DeckFilters.mk None None None None None (Some location).

(** [GET /decks] with no parameter, and with a page and a limit. *)
Definition plainList : ListQuery.t :=
  ListQuery.mk None None None None None None None None None None.

Definition listPage (page limit : string) : ListQuery.t :=
  ListQuery.mk (Some page) (Some limit) None None None None None None None None.

(** A request body with three fields in violation of the create schema
    (the name is blank, the tier is unknown, a color is unknown) and the
    other mandatory fields in order. *)
Definition badBody : Json.t :=
  Json.Obj
    [ ("name", Json.Str "   ");
      ("description", Json.Str "Fast red aggro deck");
      ("colors", Json.Arr [Json.Str "R"; Json.Str "Q"]);
      ("tierRating", Json.Str "Z");
      ("hasCardSleeves", Json.Bool true);
      ("isComplete", Json.Bool false);
      ("deckType", Json.Str "AGGRO");
      ("gameStage", Json.Str "EARLY");
      ("storageLocation", Json.Str "Red Box #1") ].

End Examples.

(* ================================================================== *)
(** * The other handlers of [DeckController] and their responses *)
(* ================================================================== *)

(** The JSON envelope of a response, with its status code. *)
Module Http.
Record Response (A : Type) : Type := mk {
  status : Z;
  success : bool;
  message : option string;
  error : option string;
  data : option A;
  count : option Z
}.
Arguments mk {A}.
Arguments status {A}.
Arguments success {A}.
Arguments message {A}.
Arguments error {A}.
Arguments data {A}.
Arguments count {A}.
End Http.

Module DeckControllerHandlers.

Section Handlers.

(** The message of a lower-level error is text of the libraries; the
    handlers are modelled for every such text. *)
Variable lowerMessage : DbError -> string.

(** [error.message], as the throw sites of the source build it. *)
Definition errorMessage (e : Error) : string :=
  match e with
  | AlreadyExists name => "Deck with name '" ++ name ++ "' already exists"
  | NotFound id => "Deck with id '" ++ id ++ "' not found"
  | Invalid message => message
  | Failed op cause => "Failed to " ++ op ++ ": " ++ lowerMessage cause
  end.

Definition failure {A : Type} (status : Z) (message error : string) : Http.Response A :=
  Http.mk status false (Some message) (Some error) None None.

Definition internalError {A : Type} : Http.Response A :=
  failure 500 "Internal server error" "INTERNAL_ERROR".

(** A handler answers, or leaves the model with its use case ([None]). *)
Definition createDeck (now : Z) (newId : string) (createRequest : CreateDeckRequest.t)
    (db : Schema.Store) : option (Http.Response DeckResponse.t) * Schema.Store :=
  if negb (JS.truthy (CreateDeckRequest.name createRequest))
     || negb (JS.truthy (CreateDeckRequest.description createRequest))
  then (Some (failure 400 "Name and description are required" "VALIDATION_ERROR"), db)
  else
    match DeckUseCases.createDeck now newId createRequest db with
    | (Return deck, db') =>
        (Some (Http.mk 201 true (Some "Deck created successfully") None (Some deck) None),
         db')
    | (Throw e, db') =>
        if JS.includes "already exists" (errorMessage e)
        then (Some (failure 409 (errorMessage e) "CONFLICT"), db')
        else (Some internalError, db')
    | (Unmodelled, db') => (None, db')
    end.

Definition getDeckById (id : string) (db : Schema.Store)
  : option (Http.Response DeckResponse.t) :=
  if negb (JS.truthy id)
  then Some (failure 400 "Deck ID is required" "VALIDATION_ERROR")
  else
    match DeckUseCases.getDeckById id db with
    | Return None =>
        Some (failure 404 ("Deck with id '" ++ id ++ "' not found") "NOT_FOUND")
    | Return (Some deck) => Some (Http.mk 200 true None None (Some deck) None)
    | Throw _ => Some internalError
    | Unmodelled => None
    end.

Definition updateDeck (id : string) (updateRequest : UpdateDeckRequest.t) (now : Z)
    (db : Schema.Store) : option (Http.Response DeckResponse.t) * Schema.Store :=
  if negb (JS.truthy id)
  then (Some (failure 400 "Deck ID is required" "VALIDATION_ERROR"), db)
  else
    match DeckUseCases.updateDeck id updateRequest now db with
    | (Return None, db') =>
        (Some (failure 404 ("Deck with id '" ++ id ++ "' not found") "NOT_FOUND"), db')
    | (Return (Some updatedDeck), db') =>
        (Some (Http.mk 200 true (Some "Deck updated successfully") None
                 (Some updatedDeck) None), db')
    | (Throw e, db') =>
        if JS.includes "not found" (errorMessage e)
        then (Some (failure 404 (errorMessage e) "NOT_FOUND"), db')
        else if JS.includes "already exists" (errorMessage e)
        then (Some (failure 409 (errorMessage e) "CONFLICT"), db')
        else (Some internalError, db')
    | (Unmodelled, db') => (None, db')
    end.

Definition deleteDeck (id : string) (db : Schema.Store)
  : option (Http.Response unit) * Schema.Store :=
  if negb (JS.truthy id)
  then (Some (failure 400 "Deck ID is required" "VALIDATION_ERROR"), db)
  else
    match DeckUseCases.deleteDeck id db with
    | (Return false, db') =>
        (Some (failure 404 ("Deck with id '" ++ id ++ "' not found") "NOT_FOUND"), db')
    | (Return true, db') =>
        (Some (Http.mk 200 true (Some "Deck deleted successfully") None None None), db')
    | (Throw e, db') =>
        if JS.includes "not found" (errorMessage e)
        then (Some (failure 404 (errorMessage e) "NOT_FOUND"), db')
        else (Some internalError, db')
    | (Unmodelled, db') => (None, db')
    end.

Definition getIncompleteDecks (db : Schema.Store)
  : option (Http.Response (list DeckResponse.t)) :=
  match DeckUseCases.getIncompleteDecks db with
  | Return decks =>
      Some (Http.mk 200 true None None (Some decks)
              (Some (Z.of_nat (List.length decks))))
  | Throw _ => Some internalError
  | Unmodelled => None
  end.

Definition getDecksByLocation (location : string) (db : Schema.Store)
  : option (Http.Response (list DeckResponse.t)) :=
  if negb (JS.truthy location)
  then Some (failure 400 "Storage location is required" "VALIDATION_ERROR")
  else
    match DeckUseCases.getDecksByStorageLocation location db with
    | Return decks =>
        Some (Http.mk 200 true None None (Some decks)
                (Some (Z.of_nat (List.length decks))))
    | Throw _ => Some internalError
    | Unmodelled => None
    end.

End Handlers.

End DeckControllerHandlers.

(** [validateSearchKeyword] of [validationMiddleware.ts].  A query
    parameter is absent, a string, or something else (an array or an
    object of the query parser). *)
Module SearchKeyword.

Inductive queryValue : Type :=
  | Absent
  | Text (s : string)
  | Other.

(** Answer [400], or store the trimmed keyword and call [next()]. *)
Inductive result : Type :=
  | Status400
  | Next (keyword : string).

Definition validateSearchKeyword (keyword : queryValue) : result :=
  match keyword with
  | Text s =>
      if negb (JS.truthy s) || Nat.eqb (String.length (JS.trim s)) 0
      then Status400 else Next (JS.trim s)
  | _ => Status400
  end.

End SearchKeyword.

(* ================================================================== *)
(** * More vocabulary: bounds of the schema, pages, order *)
(* ================================================================== *)

Module Bounds.

(** What the validators of [DeckSchema] ask of a stored document. *)
Record withinSchema (d : DeckDocument.t) : Prop := mkWithin {
  name_present : DeckDocument.name d <> EmptyString;
  name_short : String.length (DeckDocument.name d) <= 100;
  description_present : DeckDocument.description d <> EmptyString;
  description_short : String.length (DeckDocument.description d) <= 500;
  colors_some : 1 <= List.length (DeckDocument.colors d);
  colors_few : List.length (DeckDocument.colors d) <= 5;
  location_present : DeckDocument.storageLocation d <> EmptyString;
  location_short : String.length (DeckDocument.storageLocation d) <= 100;
  planeswalker_short :
    forall p, DeckDocument.planeswalker d = Some p -> String.length p <= 50;
  image_valid :
    forall u, DeckDocument.descriptiveImage d = Some u -> Schema.validImage u = true
}.

(** Consecutive elements of a list are in the order [le]. *)
Fixpoint inOrder {A : Type} (le : A -> A -> bool) (l : list A) : Prop :=
  match l with
  | [] => True
  | x :: r =>
      match r with
      | [] => True
      | y :: _ => le x y = true
      end /\ inOrder le r
  end.

(** The data of page [p] of a listing with [limit] records a page. *)
Definition pageData (filters : option DeckFilters.t) (limit : Z)
    (sortBy : option SortField.t) (sortOrder : option string)
    (db : Schema.Store) (p : nat) : list Deck.t :=
  match MongoDeckRepository.findAll filters
          (Some (PaginationOptions.mk (Some (Z.of_nat p)) (Some limit) sortBy sortOrder))
          db with
  | Return result => PaginatedResult.data result
  | _ => []
  end.

(** The sorted matches of a listing, as entities. *)
Definition allData (query : Schema.Query.t) (sortBy : option SortField.t)
    (sortOrder : option string) (db : Schema.Store) : list Deck.t :=
  let pagination := Some (PaginationOptions.mk None None sortBy sortOrder) in
  map MongoDeckRepository.mapDocumentToEntity
    (Schema.sort (MongoDeckRepository.sortFieldOf pagination)
       (MongoDeckRepository.sortOrderOf pagination) (Schema.find query db)).

End Bounds.

(** More sample data. *)
Module MoreExamples.

Definition lowerMessage (e : DbError) : string :=
  match e with
  | DuplicateKey => "E11000 duplicate key error"
  | ValidationError _ => "Validation failed"
  | RegExpSyntaxError _ => "Invalid regular expression"
  | NegativeSkip => "Skip value must be non-negative"
  end.

(** A store with the single deck ["Card Not Found"]. *)
Definition lostCard : Schema.Store :=
  snd (DeckUseCases.createDeck 1000 Examples.id1 (Examples.deck "card not found") []).

(** A store with three decks, created at times 1000, 2000 and 3000. *)
Definition threeDecks : Schema.Store :=
  snd (DeckUseCases.createDeck 3000 Examples.id3
         (CreateDeckRequest.mk "Azorius Control" "Counter and sweep" ["W"; "U"] "S"
            false false "CONTROL" "LATE" "Shelf" None None)
         Examples.twoBoxes).

(** A store with the single deck ["What?"], made by a creation. *)
Definition question : Schema.Store :=
  snd (DeckUseCases.createDeck 1000 Examples.id1 (Examples.deck "What?") []).

(** An update that supplies a tier and a completion flag only. *)
Definition retier : UpdateDeckRequest.t :=
  UpdateDeckRequest.mk None None None (Some "B") None (Some false) None None None None None.

End MoreExamples.

(* ================================================================== *)
(** * Facts about the JavaScript primitives *)
(* ================================================================== *)

Module JSFacts.

Import JS.

Ltac each_char c :=
  destruct c as [[] [] [] [] [] [] [] []]; try reflexivity; try discriminate.

Lemma toUpperChar_idem (c : ascii) : toUpperChar (toUpperChar c) = toUpperChar c.
Proof. each_char c. Qed.

Lemma toUpperChar_lower (c : ascii) : toUpperChar (toLowerChar c) = toUpperChar c.
Proof. each_char c. Qed.

Lemma isWhiteSpace_upper (c : ascii) : isWhiteSpace (toUpperChar c) = isWhiteSpace c.
Proof. each_char c. Qed.

Lemma isWhiteSpace_lower (c : ascii) : isWhiteSpace (toLowerChar c) = isWhiteSpace c.
Proof. each_char c. Qed.

Lemma space_upper (c : ascii) : Ascii.eqb (toUpperChar c) " " = Ascii.eqb c " ".
Proof. each_char c. Qed.

Lemma space_lower (c : ascii) : Ascii.eqb (toLowerChar c) " " = Ascii.eqb c " ".
Proof. each_char c. Qed.

Lemma ordinary_classify (c : ascii) :
  Spec.ordinary c = true -> classify c = CAtom (AChar c).
Proof. each_char c. Qed.

Lemma toUpperCase_idem (s : string) : toUpperCase (toUpperCase s) = toUpperCase s.
Proof.
  unfold toUpperCase.
  induction s as [|c r IH]; cbn [smap]; [reflexivity|].
  now rewrite toUpperChar_idem, IH.
Qed.

Lemma toUpperCase_lower (s : string) : toUpperCase (toLowerCase s) = toUpperCase s.
Proof.
  unfold toUpperCase, toLowerCase.
  induction s as [|c r IH]; cbn [smap]; [reflexivity|].
  now rewrite toUpperChar_lower, IH.
Qed.

(** ** Literal patterns compile to themselves *)

Lemma parse_literal_app (s tail : string) :
  Spec.literal s = true -> Spec.notQuantified tail ->
  parse (s ++ tail) = fold_right consItem (parse tail) (Schema.lit s).
Proof.
  induction s as [|c r IH]; intros Hl Ht; [reflexivity|].
  simpl in Hl. apply andb_prop in Hl as [Hc Hr].
  specialize (IH Hr Ht).
  change (String c r ++ tail)%string with (String c (r ++ tail)).
  cbn [parse]. rewrite (ordinary_classify c Hc).
  unfold Schema.lit in *. cbn [list_ascii_of_string map fold_right].
  rewrite <- IH.
  destruct r as [|c1 r1].
  - cbn [append] in *. destruct tail as [|t0 t1]; [reflexivity|].
    cbn in Ht. destruct (classify t0); try contradiction; reflexivity.
  - change (String c1 r1 ++ tail)%string with (String c1 (r1 ++ tail)).
    simpl in Hr. apply andb_prop in Hr as [Hc1 _].
    rewrite (ordinary_classify c1 Hc1). reflexivity.
Qed.

Lemma parse_literal (s : string) :
  Spec.literal s = true -> parse s = Pattern (Schema.lit s).
Proof.
  intros Hl.
  assert (H := parse_literal_app s EmptyString Hl I).
  assert (E : (s ++ "")%string = s).
  { clear. induction s as [|c r IH]; simpl; [reflexivity | now rewrite IH]. }
  rewrite E in H. rewrite H. clear. change (parse "") with (Pattern []).
  induction (Schema.lit s) as [|i p IH]; cbn [fold_right]; [reflexivity|].
  now rewrite IH.
Qed.

Lemma parse_anchored (s : string) :
  Spec.literal s = true ->
  parse ("^" ++ s ++ "$") = Pattern (IStart :: Schema.lit s ++ [IEnd]).
Proof.
  intros Hl.
  change ("^" ++ s ++ "$")%string with (String "^" (s ++ "$")).
  cbn [parse classify]. rewrite parse_literal_app by (try assumption; exact I).
  change (parse "$") with (Pattern [IEnd]).
  assert (E : fold_right consItem (Pattern [IEnd]) (Schema.lit s)
              = Pattern (Schema.lit s ++ [IEnd])).
  { clear. induction (Schema.lit s) as [|i p IH]; cbn [fold_right app];
      [reflexivity | now rewrite IH]. }
  now rewrite E.
Qed.

(** ** Matching a literal pattern *)

Lemma matchHere_literal_end (s : string) (b : bool) (subject : string) :
  matchHere (Schema.lit s ++ [IEnd]) b subject = Spec.sameIgnoringCase s subject.
Proof.
  unfold Spec.sameIgnoringCase, toUpperCase.
  revert b subject.
  induction s as [|c r IH]; intros b subject.
  - destruct subject; reflexivity.
  - unfold Schema.lit in *. cbn [list_ascii_of_string map app matchHere].
    destruct subject as [|d t]; [reflexivity|].
    cbn [atomMatches smap String.eqb]. rewrite IH.
    destruct (Ascii.eqb (toUpperChar c) (toUpperChar d)); reflexivity.
Qed.

Lemma matchHere_literal (s : string) (b : bool) (subject : string) :
  matchHere (Schema.lit s) b subject
  = startsWith (toUpperCase s) (toUpperCase subject).
Proof.
  unfold toUpperCase. revert b subject.
  induction s as [|c r IH]; intros b subject; [reflexivity|].
  unfold Schema.lit in *. cbn [list_ascii_of_string map matchHere].
  destruct subject as [|d t]; [reflexivity|].
  cbn [atomMatches smap startsWith]. now rewrite IH.
Qed.

Lemma searchFrom_start_later (p : list item) (s : string) :
  searchFrom (IStart :: p) false s = false.
Proof. induction s as [|c r IH]; simpl; [reflexivity | exact IH]. Qed.

Lemma test_anchored (p : list item) (s : string) :
  test (IStart :: p) s = matchHere p true s.
Proof.
  unfold test. destruct s as [|c r]; cbn [searchFrom matchHere andb].
  - now rewrite orb_false_r.
  - now rewrite searchFrom_start_later, orb_false_r.
Qed.

Lemma test_literal (s subject : string) :
  test (Schema.lit s) subject = Spec.containsIgnoringCase s subject.
Proof.
  unfold test, Spec.containsIgnoringCase. generalize true.
  induction subject as [|d t IH]; intros b.
  - cbn [searchFrom]. rewrite matchHere_literal. reflexivity.
  - cbn [searchFrom]. rewrite matchHere_literal, IH. reflexivity.
Qed.

(** A name with no special character is looked up as the comment in the
    source says: an exact match up to case. *)
Lemma test_name_literal (name subject : string) :
  Spec.literal name = true ->
  exists re, parse ("^" ++ name ++ "$") = Pattern re
             /\ test re subject = Spec.sameIgnoringCase name subject.
Proof.
  intros Hl. eexists. split; [apply parse_anchored; assumption|].
  now rewrite test_anchored, matchHere_literal_end.
Qed.

End JSFacts.

(* ================================================================== *)
(** * Title-casing and trimming *)
(* ================================================================== *)

Module NameFacts.

Import JS Schema.

Lemma toLowerChar_idem (c : ascii) : toLowerChar (toLowerChar c) = toLowerChar c.
Proof. JSFacts.each_char c. Qed.

Lemma toLowerChar_upper (c : ascii) : toLowerChar (toUpperChar c) = toLowerChar c.
Proof. JSFacts.each_char c. Qed.

Lemma split_cons (sep : ascii) (s : string) :
  exists w ws, split sep s = w :: ws.
Proof.
  induction s as [|c r [w [ws E]]]; cbn [split]; [now eauto|].
  destruct (Ascii.eqb c sep); [now eauto|]. rewrite E. now eauto.
Qed.

Lemma join_char (sep : string) (c : ascii) (w : string) (l : list string) :
  join sep (String c w :: l) = String c (join sep (w :: l)).
Proof. destruct l; reflexivity. Qed.

Lemma join_two (sep w x : string) (l : list string) :
  join sep (w :: x :: l) = (w ++ sep ++ join sep (x :: l))%string.
Proof. reflexivity. Qed.

(** The hook, with the first word in upper or lower case, is [titleFrom]. *)
Lemma join_split_titleFrom (s : string) :
  match split " " s with
  | w :: ws =>
      join " " (capitalize w :: map capitalize ws) = Spec.titleFrom true s
      /\ join " " (toLowerCase w :: map capitalize ws) = Spec.titleFrom false s
  | [] => False
  end.
Proof.
  induction s as [|c r IH]; [now split|].
  cbn [split Spec.titleFrom].
  destruct (split_cons " " r) as [w [ws E]]. rewrite E in IH |- *.
  destruct IH as [IHt IHf].
  destruct (Ascii.eqb c " ") eqn:Ec.
  - apply Ascii.eqb_eq in Ec. subst c. cbn [map capitalize toLowerCase smap].
    rewrite !join_two, IHt. now split.
  - cbn [capitalize toLowerCase smap]. rewrite !join_char.
    unfold toLowerCase in *. rewrite IHf. now split.
Qed.

Lemma preSave_titleFrom (s : string) : preSave s = Spec.titleFrom true s.
Proof.
  unfold preSave. assert (H := join_split_titleFrom s).
  destruct (split " " s) as [|w ws]; [contradiction|]. cbn [map]. apply H.
Qed.

Lemma titleFrom_idem (b : bool) (s : string) :
  Spec.titleFrom b (Spec.titleFrom b s) = Spec.titleFrom b s.
Proof.
  revert b. induction s as [|c r IH]; intros b; [reflexivity|].
  cbn [Spec.titleFrom]. destruct (Ascii.eqb c " ") eqn:Ec.
  - cbn [Spec.titleFrom]. rewrite Ec. now rewrite IH.
  - cbn [Spec.titleFrom].
    destruct b.
    + rewrite JSFacts.space_upper, Ec, JSFacts.toUpperChar_idem. now rewrite IH.
    + rewrite JSFacts.space_lower, Ec, toLowerChar_idem. now rewrite IH.
Qed.

(** What the hook stores is title-cased. *)
Lemma preSave_titleCased (s : string) : Spec.titleCased (preSave s) = true.
Proof.
  unfold Spec.titleCased. rewrite !preSave_titleFrom, titleFrom_idem.
  apply String.eqb_refl.
Qed.

(** Case variants of a name are title-cased to the same name. *)
Lemma titleFrom_upper (b : bool) (s : string) :
  Spec.titleFrom b (toUpperCase s) = Spec.titleFrom b s.
Proof.
  unfold toUpperCase. revert b.
  induction s as [|c r IH]; intros b; [reflexivity|].
  cbn [smap Spec.titleFrom]. rewrite JSFacts.space_upper.
  destruct (Ascii.eqb c " ") eqn:Ec; rewrite IH.
  - apply Ascii.eqb_eq in Ec. now subst c.
  - now rewrite JSFacts.toUpperChar_idem, toLowerChar_upper.
Qed.

Lemma preSave_case_variant (a b : string) :
  Spec.sameIgnoringCase a b = true -> preSave a = preSave b.
Proof.
  unfold Spec.sameIgnoringCase. intros H. apply String.eqb_eq in H.
  rewrite !preSave_titleFrom.
  now rewrite <- (titleFrom_upper true a), <- (titleFrom_upper true b), H.
Qed.

(** ** Trimming *)

Lemma trimStart_length (s : string) : String.length (trimStart s) <= String.length s.
Proof.
  induction s as [|c r IH]; cbn [trimStart]; [lia|].
  destruct (isWhiteSpace c); cbn [String.length]; lia.
Qed.

Lemma trimEnd_length (s : string) : String.length (trimEnd s) <= String.length s.
Proof.
  induction s as [|c r IH]; cbn [trimEnd]; [lia|].
  destruct (trimEnd r); [destruct (isWhiteSpace c)|]; cbn [String.length] in *; lia.
Qed.

Lemma trimStart_same_length (s : string) :
  String.length (trimStart s) = String.length s -> trimStart s = s.
Proof.
  destruct s as [|c r]; cbn [trimStart]; [reflexivity|].
  destruct (isWhiteSpace c); [|reflexivity].
  intros H. assert (L := trimStart_length r). cbn [String.length] in H. lia.
Qed.

Lemma trimStart_fixed (s : string) : trimStart s = s <-> Spec.startsClean s = true.
Proof.
  destruct s as [|c r]; cbn [trimStart Spec.startsClean]; [tauto|].
  destruct (isWhiteSpace c) eqn:E; cbn [negb]; split; try tauto; try discriminate.
  intros H. assert (L := trimStart_length r). rewrite H in L.
  cbn [String.length] in L. lia.
Qed.

Lemma trimStart_clean (s : string) : Spec.startsClean (trimStart s) = true.
Proof.
  induction s as [|c r IH]; [reflexivity|]. cbn [trimStart].
  destruct (isWhiteSpace c) eqn:E; [exact IH|]. cbn [Spec.startsClean]. now rewrite E.
Qed.

Lemma trimEnd_clean (s : string) :
  Spec.startsClean s = true -> Spec.startsClean (trimEnd s) = true.
Proof.
  destruct s as [|c r]; [reflexivity|]. cbn [Spec.startsClean trimEnd]. intros H.
  destruct (isWhiteSpace c) eqn:W; [discriminate|].
  destruct (trimEnd r); cbn [Spec.startsClean]; now rewrite W.
Qed.

Lemma trimEnd_idem (s : string) : trimEnd (trimEnd s) = trimEnd s.
Proof.
  induction s as [|c r IH]; [reflexivity|]. cbn [trimEnd].
  destruct (trimEnd r) as [|d t] eqn:E.
  - destruct (isWhiteSpace c) eqn:W; [reflexivity|]. cbn [trimEnd]. now rewrite W.
  - cbn [trimEnd]. cbn [trimEnd] in IH. rewrite IH. reflexivity.
Qed.

Lemma trim_trimmed (s : string) : Spec.trimmed (trim s).
Proof.
  unfold Spec.trimmed, trim.
  assert (C : Spec.startsClean (trimEnd (trimStart s)) = true)
    by (apply trimEnd_clean, trimStart_clean).
  apply trimStart_fixed in C. rewrite C. apply trimEnd_idem.
Qed.

Lemma trimmed_parts (s : string) :
  Spec.trimmed s -> trimStart s = s /\ trimEnd s = s.
Proof.
  unfold Spec.trimmed, trim. intros H.
  assert (L1 := trimEnd_length (trimStart s)). assert (L2 := trimStart_length s).
  rewrite H in L1.
  assert (E : trimStart s = s) by (apply trimStart_same_length; lia).
  split; [exact E | now rewrite E in H].
Qed.

Lemma titleFrom_clean (b : bool) (s : string) :
  Spec.startsClean (Spec.titleFrom b s) = Spec.startsClean s.
Proof.
  destruct s as [|c r]; [reflexivity|]. cbn [Spec.titleFrom].
  destruct (Ascii.eqb c " "); [reflexivity|]. cbn [Spec.startsClean].
  destruct b; now rewrite ?JSFacts.isWhiteSpace_upper, ?JSFacts.isWhiteSpace_lower.
Qed.

Lemma titleFrom_empty (b : bool) (s : string) :
  Spec.titleFrom b s = EmptyString -> s = EmptyString.
Proof.
  destruct s as [|c r]; [reflexivity|]. cbn [Spec.titleFrom].
  destruct (Ascii.eqb c " "); discriminate.
Qed.

Lemma trimEnd_titleFrom (b : bool) (s : string) :
  trimEnd (Spec.titleFrom b s) = Spec.titleFrom b (trimEnd s).
Proof.
  revert b. induction s as [|c r IH]; intros b; [reflexivity|].
  cbn [Spec.titleFrom trimEnd].
  destruct (Ascii.eqb c " ") eqn:Ec.
  - cbn [trimEnd]. rewrite IH.
    destruct (trimEnd r) as [|d t] eqn:E.
    + cbn [Spec.titleFrom].
      destruct (isWhiteSpace c); cbn [Spec.titleFrom]; now rewrite ?Ec.
    + destruct (Spec.titleFrom true (String d t)) eqn:E2.
      * apply titleFrom_empty in E2. discriminate.
      * cbn [Spec.titleFrom] in *. rewrite Ec. now rewrite E2.
  - cbn [trimEnd]. rewrite IH.
    assert (W : isWhiteSpace (if b then toUpperChar c else toLowerChar c)
                = isWhiteSpace c)
      by (destruct b; [apply JSFacts.isWhiteSpace_upper
                      | apply JSFacts.isWhiteSpace_lower]).
    destruct (trimEnd r) as [|d t] eqn:E.
    + cbn [Spec.titleFrom]. rewrite W.
      destruct (isWhiteSpace c); cbn [Spec.titleFrom]; now rewrite ?Ec.
    + destruct (Spec.titleFrom false (String d t)) eqn:E2.
      * apply titleFrom_empty in E2. discriminate.
      * cbn [Spec.titleFrom] in *. rewrite Ec. now rewrite E2.
Qed.

(** The hook keeps a trimmed name trimmed. *)
Lemma preSave_trimmed (s : string) : Spec.trimmed s -> Spec.trimmed (preSave s).
Proof.
  intros H. destruct (trimmed_parts s H) as [Hs He].
  unfold Spec.trimmed, trim. rewrite preSave_titleFrom.
  assert (C : Spec.startsClean (Spec.titleFrom true s) = true).
  { rewrite titleFrom_clean. now apply trimStart_fixed. }
  apply trimStart_fixed in C. rewrite C, trimEnd_titleFrom. now rewrite He.
Qed.

End NameFacts.

(* ================================================================== *)
(** * The store: lookups, replacement and what the indexes maintain *)
(* ================================================================== *)

Module StoreFacts.

Import Schema.

Lemma NoDup_map_inj {A B : Type} (f : A -> B) (l : list A) (x y : A) :
  NoDup (map f l) -> In x l -> In y l -> f x = f y -> x = y.
Proof.
  induction l as [|a l IH]; cbn [map]; intros N Hx Hy E; [contradiction|].
  inversion N as [|? ? Hn N']; subst.
  destruct Hx as [<-|Hx], Hy as [<-|Hy]; try reflexivity.
  - exfalso. apply Hn. rewrite E. now apply in_map.
  - exfalso. apply Hn. rewrite <- E. now apply in_map.
  - now apply IH.
Qed.

Lemma find_In {A : Type} (p : A -> bool) (l : list A) (x : A) :
  List.find p l = Some x -> In x l /\ p x = true.
Proof. apply find_some. Qed.

Lemma find_none_existsb {A : Type} (p : A -> bool) (l : list A) :
  List.find p l = None <-> existsb p l = false.
Proof.
  induction l as [|a l IH]; cbn [List.find existsb]; [tauto|].
  destruct (p a); cbn [orb]; [split; discriminate | exact IH].
Qed.

Lemma find_some_existsb {A : Type} (p : A -> bool) (l : list A) :
  (exists x, List.find p l = Some x) <-> existsb p l = true.
Proof.
  destruct (List.find p l) eqn:E.
  - split; [intros _ | now eauto].
    destruct (existsb p l) eqn:X; [reflexivity|].
    apply find_none_existsb in X. congruence.
  - apply find_none_existsb in E. rewrite E.
    split; [intros [x H] |]; discriminate.
Qed.

Lemma hasId_same (id : string) (d e : DeckDocument.t) :
  hasId id d = true -> DeckDocument._id e = DeckDocument._id d -> hasId id e = true.
Proof. unfold hasId. now intros H ->. Qed.

Lemma hasId_eq (id : string) (d e : DeckDocument.t) :
  hasId id d = true -> hasId id e = true -> DeckDocument._id e = DeckDocument._id d.
Proof.
  unfold hasId. intros H1 H2.
  apply String.eqb_eq in H1, H2. congruence.
Qed.

(** ** [replace] and [remove] *)

Lemma find_replace (id : string) (new d : DeckDocument.t) (db : Store) :
  findById id db = Some d -> hasId id new = true ->
  findById id (replace id new db) = Some new.
Proof.
  unfold findById. induction db as [|a db IH]; cbn [List.find replace]; [discriminate|].
  destruct (hasId id a) eqn:E; intros F H; cbn [List.find].
  - now rewrite H.
  - rewrite E. now apply IH.
Qed.

Lemma replace_length (id : string) (new : DeckDocument.t) (db : Store) :
  List.length (replace id new db) = List.length db.
Proof.
  induction db as [|a db IH]; cbn [replace]; [reflexivity|].
  destruct (hasId id a); cbn [List.length]; congruence.
Qed.

Lemma map_id_replace (id : string) (new : DeckDocument.t) (db : Store) :
  hasId id new = true ->
  map DeckDocument._id (replace id new db) = map DeckDocument._id db.
Proof.
  intros H. induction db as [|a db IH]; cbn [replace map]; [reflexivity|].
  destruct (hasId id a) eqn:E; cbn [map]; [|now rewrite IH].
  f_equal. now apply (hasId_eq id).
Qed.

Lemma In_replace (id : string) (new : DeckDocument.t) (db : Store) (x : DeckDocument.t) :
  In x (replace id new db) -> x = new \/ In x db.
Proof.
  induction db as [|a db IH]; cbn [replace]; [tauto|].
  destruct (hasId id a); cbn [In]; intuition.
Qed.

Lemma In_remove (id : string) (db : Store) (x : DeckDocument.t) :
  In x (remove id db) -> In x db.
Proof.
  induction db as [|a db IH]; cbn [remove]; [tauto|].
  destruct (hasId id a); cbn [In]; intuition.
Qed.

Lemma NoDup_map_remove {B : Type} (f : DeckDocument.t -> B) (id : string) (db : Store) :
  NoDup (map f db) -> NoDup (map f (remove id db)).
Proof.
  induction db as [|a db IH]; cbn [remove map]; intros N; [assumption|].
  inversion N as [|? ? Hn N']; subst.
  destruct (hasId id a); [assumption|]. cbn [map]. constructor; [|now apply IH].
  intros Hin. apply Hn. apply in_map_iff in Hin as [x [E Hx]].
  apply in_map_iff. exists x. split; [assumption | now apply (In_remove id)].
Qed.

(** Replacing a document by one whose name no other document holds keeps
    the names distinct. *)
Lemma NoDup_names_replace (id : string) (new : DeckDocument.t) (db : Store) :
  NoDup (map DeckDocument._id db) ->
  NoDup (map DeckDocument.name db) ->
  hasId id new = true ->
  nameTaken new db = false ->
  NoDup (map DeckDocument.name (replace id new db)).
Proof.
  intros Ni Nn H T.
  assert (Free : forall x, In x db -> hasId id x = false ->
                           DeckDocument.name x <> DeckDocument.name new).
  { intros x Hx Hid E. unfold nameTaken in T.
    assert (X : existsb (fun d => negb (String.eqb (DeckDocument._id d) (DeckDocument._id new))
                                  && String.eqb (DeckDocument.name d) (DeckDocument.name new)) db = true).
    { apply existsb_exists. exists x. split; [assumption|].
      rewrite E, String.eqb_refl, andb_true_r.
      destruct (String.eqb (DeckDocument._id x) (DeckDocument._id new)) eqn:Q; [|reflexivity].
      apply String.eqb_eq in Q. exfalso.
      assert (hasId id x = true) by (now apply (hasId_same id new)). congruence. }
    congruence. }
  clear T. induction db as [|a db IH]; cbn [replace map]; [constructor|].
  cbn [map] in Ni, Nn.
  inversion Ni as [|? ? Hi Ni']; inversion Nn as [|? ? Hn Nn']; subst.
  destruct (hasId id a) eqn:E; cbn [map].
  - constructor; [|assumption].
    intros Hin. apply in_map_iff in Hin as [x [Ex Hx]].
    apply (Free x); [now right | | assumption].
    destruct (hasId id x) eqn:Q; [|reflexivity]. exfalso. apply Hi.
    rewrite (hasId_eq id x a Q E). now apply in_map.
  - constructor.
    + intros Hin. apply in_map_iff in Hin as [x [Ex Hx]].
      apply In_replace in Hx as [-> | Hx].
      * apply (Free a); [now left | assumption | congruence].
      * apply Hn. rewrite <- Ex. now apply in_map.
    + apply IH; try assumption. intros x Hx. apply Free. now right.
Qed.

(** ** The casts *)

Lemma castName_trimmed (s v : string) : castName s = Some v -> v = JS.trim s.
Proof.
  unfold castName. destruct (required (JS.trim s) && maxlength 100 (JS.trim s));
    [now intros [= <-] | discriminate].
Qed.

Lemma castUpdate_name (u : UpdateDeckRequest.t) (p : Patch.t) :
  castUpdate u = Some p ->
  Patch.name p = option_map JS.trim (UpdateDeckRequest.name u).
Proof.
  unfold castUpdate, obind. 
  destruct (castOpt castName (UpdateDeckRequest.name u)) as [n|] eqn:En; [|discriminate].
  repeat match goal with
         | |- context [match ?x with Some _ => _ | None => None end = Some _ -> _] =>
             destruct x; [|discriminate]
         end.
  intros [= <-]. cbn [Patch.name].
  destruct (UpdateDeckRequest.name u) as [s|]; cbn [castOpt option_map] in *.
  - destruct (castName s) eqn:C; [|discriminate]. cbn in En. injection En as <-.
    now rewrite (castName_trimmed _ _ C).
  - now injection En as <-.
Qed.

Lemma applyPatch_frame (p : Patch.t) (now : Z) (d : DeckDocument.t) :
  DeckDocument._id (applyPatch p now d) = DeckDocument._id d
  /\ DeckDocument.createdAt (applyPatch p now d) = DeckDocument.createdAt d
  /\ DeckDocument.updatedAt (applyPatch p now d) = now
  /\ DeckDocument.name (applyPatch p now d)
     = orElse (Patch.name p) (DeckDocument.name d).
Proof. repeat split. Qed.

(** ** Consistency is kept by every write *)

Lemma consistent_empty : Spec.Consistent [].
Proof. split; cbn; constructor. Qed.

Lemma buildDocument_name (now : Z) (newId : string) (e : DeckEntity.t)
    (doc : DeckDocument.t) :
  buildDocument now newId e = Some doc ->
  DeckDocument._id doc = newId
  /\ DeckDocument.name doc = preSave (JS.trim (DeckEntity.name e))
  /\ DeckDocument.createdAt doc = now
  /\ DeckDocument.updatedAt doc = now.
Proof.
  unfold buildDocument, obind.
  destruct (castName (DeckEntity.name e)) as [n|] eqn:En; [|discriminate].
  repeat match goal with
         | |- context [match ?x with Some _ => _ | None => None end = Some _ -> _] =>
             destruct x; [|discriminate]
         end.
  intros [= <-]. cbn. now rewrite (castName_trimmed _ _ En).
Qed.

Lemma save_consistent (now : Z) (newId : string) (e : DeckEntity.t) (db : Store) :
  Spec.Consistent db -> Spec.Consistent (snd (save now newId e db)).
Proof.
  intros [Ni Nn Nt]. unfold save.
  destruct (buildDocument now newId e) as [doc|] eqn:B; [|now split].
  destruct (existsb (collides doc) db) eqn:X; [now split|]. cbn [snd].
  assert (Free : forall x, In x db ->
            DeckDocument._id x <> DeckDocument._id doc
            /\ DeckDocument.name x <> DeckDocument.name doc).
  { intros x Hx.
    assert (C : collides doc x = false).
    { destruct (collides doc x) eqn:C; [|reflexivity].
      assert (existsb (collides doc) db = true)
        by (apply existsb_exists; eauto). congruence. }
    unfold collides in C. apply orb_false_elim in C as [C1 C2].
    split; intros E; rewrite E, String.eqb_refl in *; discriminate. }
  split; rewrite ?map_app; cbn [map].
  - apply NoDup_app; [assumption | repeat constructor; intros [] |].
    intros x Hx [<-|[]]. apply in_map_iff in Hx as [y [E Hy]].
    now apply (proj1 (Free y Hy)).
  - apply NoDup_app; [assumption | repeat constructor; intros [] |].
    intros x Hx [<-|[]]. apply in_map_iff in Hx as [y [E Hy]].
    now apply (proj2 (Free y Hy)).
  - apply Forall_app. split; [assumption|]. constructor; [|constructor].
    destruct (buildDocument_name _ _ _ _ B) as [_ [-> _]].
    apply NameFacts.preSave_trimmed, NameFacts.trim_trimmed.
Qed.

Lemma update_consistent (id : string) (u : UpdateDeckRequest.t) (now : Z) (db : Store) :
  Spec.Consistent db -> Spec.Consistent (snd (findByIdAndUpdate id u now db)).
Proof.
  intros C. unfold findByIdAndUpdate.
  destruct (castUpdate u) as [p|] eqn:P; [|assumption].
  destruct (findById id db) as [d|] eqn:F; [|assumption].
  destruct (nameTaken (applyPatch p now d) db) eqn:T; [assumption|]. cbn [snd].
  destruct C as [Ni Nn Nt].
  apply find_In in F as [Hd Hid].
  assert (Hnew : hasId id (applyPatch p now d) = true)
    by (now apply (hasId_same id d)).
  split.
  - now rewrite map_id_replace.
  - now apply NoDup_names_replace.
  - apply Forall_forall. intros x Hx. apply In_replace in Hx as [-> | Hx].
    + cbn [applyPatch DeckDocument.name]. rewrite (castUpdate_name u p P).
      destruct (UpdateDeckRequest.name u); cbn [option_map orElse].
      * apply NameFacts.trim_trimmed.
      * now apply (proj1 (Forall_forall _ _) Nt).
    + now apply (proj1 (Forall_forall _ _) Nt).
Qed.

Lemma remove_consistent (id : string) (db : Store) :
  Spec.Consistent db -> Spec.Consistent (remove id db).
Proof.
  intros [Ni Nn Nt]. split; try now apply NoDup_map_remove.
  apply Forall_forall. intros x Hx. apply In_remove in Hx.
  now apply (proj1 (Forall_forall _ _) Nt).
Qed.

End StoreFacts.

(* ================================================================== *)
(** * Sorting, windows and the page count *)
(* ================================================================== *)

Module PagingFacts.

Import Schema.
Module R := MongoDeckRepository.

Section Sorting.

Context {A : Type}.
Variable le : A -> A -> bool.

Lemma insert_length (x : A) (l : list A) :
  List.length (insert le x l) = S (List.length l).
Proof.
  induction l as [|y r IH]; cbn [insert]; [reflexivity|].
  destruct (le x y); cbn [List.length]; congruence.
Qed.

Lemma insert_perm (x : A) (l : list A) : Permutation (insert le x l) (x :: l).
Proof.
  induction l as [|y r IH]; cbn [insert]; [reflexivity|].
  destruct (le x y); [reflexivity|].
  rewrite IH. apply perm_swap.
Qed.

Lemma sortWith_perm (l : list A) : Permutation (sortWith le l) l.
Proof.
  induction l as [|x r IH]; cbn [sortWith fold_right]; [reflexivity|].
  fold (sortWith le r). rewrite insert_perm. now constructor.
Qed.

Lemma sortWith_length (l : list A) : List.length (sortWith le l) = List.length l.
Proof. apply Permutation_length, sortWith_perm. Qed.

End Sorting.

(** ** Descending order of a key *)

Section Descending.

Context {A : Type}.
Variable key : A -> Z.

Let le (a b : A) : bool := Z.leb (key b) (key a).

Lemma newestFirst_cons (x : Z) (l : list Z) :
  Spec.newestFirst (x :: l)
  <-> match l with [] => True | y :: _ => (y <= x)%Z end /\ Spec.newestFirst l.
Proof. reflexivity. Qed.

Lemma insert_newestFirst (x : A) (l : list A) :
  Spec.newestFirst (map key l) -> Spec.newestFirst (map key (insert le x l)).
Proof.
  induction l as [|y r IH]; intros S; [now cbn|].
  cbn [insert]. unfold le at 1. destruct (Z.leb (key y) (key x)) eqn:E.
  - cbn [map]. apply newestFirst_cons. split; [now apply Z.leb_le | exact S].
  - apply Z.leb_gt in E. cbn [map] in S |- *.
    apply newestFirst_cons in S as [Hd Tl]. specialize (IH Tl).
    apply newestFirst_cons. split; [|exact IH].
    destruct r as [|z r']; cbn [insert map]; [lia|].
    unfold le at 1. destruct (Z.leb (key z) (key x)); cbn [map]; [lia | exact Hd].
Qed.

Lemma sortWith_newestFirst (l : list A) :
  Spec.newestFirst (map key (sortWith le l)).
Proof.
  unfold sortWith. induction l as [|x r IH]; [exact I|].
  cbn [fold_right]. now apply insert_newestFirst.
Qed.

End Descending.

Lemma newestFirst_tail (x : Z) (l : list Z) :
  Spec.newestFirst (x :: l) -> Spec.newestFirst l.
Proof. intros H. exact (proj2 H). Qed.

Lemma newestFirst_skipn (n : nat) (l : list Z) :
  Spec.newestFirst l -> Spec.newestFirst (skipn n l).
Proof.
  revert l. induction n as [|n IH]; intros l S; [exact S|].
  destruct l as [|x r]; [exact S|]. cbn [skipn]. apply IH.
  now apply newestFirst_tail in S.
Qed.

Lemma newestFirst_firstn (n : nat) (l : list Z) :
  Spec.newestFirst l -> Spec.newestFirst (firstn n l).
Proof.
  revert l. induction n as [|n IH]; intros l S; [now cbn|].
  destruct l as [|x r]; [exact S|]. cbn [firstn].
  apply newestFirst_cons in S as [Hd Tl]. apply newestFirst_cons.
  split; [|now apply IH].
  destruct r as [|y r']; [now destruct n|]. destruct n; [exact I | exact Hd].
Qed.

(** ** [Math.ceil(total / limit)] *)

Lemma ceilDiv_spec (total limit : Z) :
  (0 < limit)%Z ->
  (total <= R.ceilDiv total limit * limit < total + limit)%Z.
Proof.
  intros L. unfold R.ceilDiv.
  assert (D := Z.div_mod (- total) limit ltac:(lia)).
  assert (M := Z.mod_pos_bound (- total) limit L). nia.
Qed.

(** The page count is the least number of pages that hold every record. *)
Lemma ceilDiv_least (total limit n : Z) :
  (0 < limit)%Z -> (total <= n * limit)%Z -> (R.ceilDiv total limit <= n)%Z.
Proof. intros L H. assert (S := ceilDiv_spec total limit L). nia. Qed.

Lemma ceilDiv_nonneg (total limit : Z) :
  (0 < limit)%Z -> (0 <= total)%Z -> (0 <= R.ceilDiv total limit)%Z.
Proof. intros L T. assert (S := ceilDiv_spec total limit L). nia. Qed.

(** ** [numOr] *)

Lemma numOr_nonzero (x : option Z) (d : Z) : d <> 0%Z -> JS.numOr x d <> 0%Z.
Proof.
  intros D. unfold JS.numOr. destruct x as [n|]; [|assumption].
  destruct (Z.eqb n 0) eqn:E; [assumption | now apply Z.eqb_neq].
Qed.

(** ** The filter document of literal filters *)

Lemma includes_empty (s : string) : JS.includes EmptyString s = true.
Proof. destruct s; reflexivity. Qed.

Lemma buildFilterQuery_literal (op : string) (f : DeckFilters.t) :
  Spec.literalFilters f = true ->
  exists q, R.buildFilterQuery op (Some f) = Return q
            /\ forall d, matches q d = Spec.satisfies f d.
Proof.
  unfold Spec.literalFilters, R.buildFilterQuery. intros L.
  destruct (DeckFilters.storageLocation f) as [loc|] eqn:E; cbn [holds] in L.
  - destruct (JS.truthy loc) eqn:T.
    + unfold R.newRegExp. rewrite (JSFacts.parse_literal loc L). cbn [bind].
      eexists. split; [reflexivity|]. intros d.
      unfold matches, Spec.satisfies. cbn [Query.deckType Query.gameStage
        Query.tierRating Query.isComplete Query.hasCardSleeves Query.storageLocation].
      rewrite E. cbn [holds]. now rewrite JSFacts.test_literal.
    + cbn [bind]. eexists. split; [reflexivity|]. intros d.
      unfold matches, Spec.satisfies. cbn [Query.deckType Query.gameStage
        Query.tierRating Query.isComplete Query.hasCardSleeves Query.storageLocation].
      rewrite E. cbn [holds]. destruct loc; [|discriminate].
      unfold Spec.containsIgnoringCase. cbn. now rewrite includes_empty.
  - cbn [bind]. eexists. split; [reflexivity|]. intros d.
    unfold matches, Spec.satisfies. cbn [Query.deckType Query.gameStage
      Query.tierRating Query.isComplete Query.hasCardSleeves Query.storageLocation].
    now rewrite E.
Qed.

Lemma find_literal (op : string) (f : DeckFilters.t) :
  Spec.literalFilters f = true ->
  exists q, R.buildFilterQuery op (Some f) = Return q
            /\ forall db, Schema.find q db = filter (Spec.satisfies f) db.
Proof.
  intros L. destruct (buildFilterQuery_literal op f L) as [q [B M]].
  exists q. split; [assumption|]. intros db. unfold Schema.find.
  apply filter_ext. exact M.
Qed.

End PagingFacts.

(* ================================================================== *)
(** * The deck service: uniqueness of names, title-casing, timestamps *)
(* ================================================================== *)

Module ServiceProperties.

Import Schema DeckUseCases.

(** ** Looking a name up *)

Lemma findByName_literal (name : string) (db : Store) :
  Spec.literal name = true ->
  R.findByName name db
  = Return (option_map R.mapDocumentToEntity
              (List.find (fun d => Spec.sameIgnoringCase name (DeckDocument.name d)) db)).
Proof.
  intros L. unfold R.findByName, R.newRegExp.
  destruct (JSFacts.test_name_literal name EmptyString L) as [re [P _]].
  rewrite P. cbn [bind]. do 2 f_equal. unfold findOneByName.
  assert (E : re = JS.IStart :: lit name ++ [JS.IEnd]).
  { rewrite JSFacts.parse_anchored in P by assumption. now injection P. }
  subst re. induction db as [|d db IH]; cbn [List.find]; [reflexivity|].
  rewrite JSFacts.test_anchored, JSFacts.matchHere_literal_end.
  destruct (Spec.sameIgnoringCase name (DeckDocument.name d)); [reflexivity | exact IH].
Qed.

Lemma findByName_found_literal (name : string) (db : Store) :
  Spec.literal name = true -> Spec.nameExists name db = true ->
  exists deck, R.findByName name db = Return (Some deck).
Proof.
  intros L E. rewrite findByName_literal by assumption.
  apply StoreFacts.find_some_existsb in E as [d ->]. now eexists.
Qed.

Lemma findByName_missing_literal (name : string) (db : Store) :
  Spec.literal name = true -> Spec.nameExists name db = false ->
  R.findByName name db = Return None.
Proof.
  intros L E. rewrite findByName_literal by assumption.
  apply StoreFacts.find_none_existsb in E. now rewrite E.
Qed.

(** ** [createDeck] on names without special characters *)

(** A create request whose name a record already holds, in any case
    variant, is refused as a Conflict and the store is left as it was. *)
Lemma createDeck_conflict_literal (now : Z) (newId : string)
    (request : CreateDeckRequest.t) (db : Store) :
  Spec.literal (CreateDeckRequest.name request) = true ->
  Spec.nameExists (CreateDeckRequest.name request) db = true ->
  createDeck now newId request db
  = (Throw (AlreadyExists (CreateDeckRequest.name request)), db).
Proof.
  intros L E. unfold createDeck.
  destruct (findByName_found_literal _ _ L E) as [deck ->]. reflexivity.
Qed.

Lemma toUpperCase_titleFrom (b : bool) (s : string) :
  JS.toUpperCase (Spec.titleFrom b s) = JS.toUpperCase s.
Proof.
  unfold JS.toUpperCase. revert b.
  induction s as [|c r IH]; intros b; [reflexivity|].
  cbn [Spec.titleFrom]. destruct (Ascii.eqb c " "); cbn [JS.smap]; rewrite IH.
  - reflexivity.
  - destruct b; now rewrite ?JSFacts.toUpperChar_idem, ?JSFacts.toUpperChar_lower.
Qed.

Lemma entityOf_name (now : Z) (request : CreateDeckRequest.t) (e : DeckEntity.t) :
  Spec.entityOf now request = Return e ->
  DeckEntity.name e = CreateDeckRequest.name request.
Proof.
  unfold Spec.entityOf, DeckEntity.new, bind.
  destruct (DeckEntity.validateDeck _); [|discriminate|discriminate].
  now intros [= <-].
Qed.

(** A create request with a trimmed name that no record holds, which the
    constructor and the schema accept, adds exactly one record: the
    document built from the request, with its name title-cased. *)
Lemma createDeck_unique_literal (now : Z) (newId : string)
    (request : CreateDeckRequest.t) (db : Store)
    (e : DeckEntity.t) (doc : DeckDocument.t) :
  Spec.literal (CreateDeckRequest.name request) = true ->
  Spec.trimmed (CreateDeckRequest.name request) ->
  Spec.nameExists (CreateDeckRequest.name request) db = false ->
  existsb (fun d => String.eqb (DeckDocument._id d) newId) db = false ->
  Spec.entityOf now request = Return e ->
  buildDocument now newId e = Some doc ->
  createDeck now newId request db
  = (Return (mapDeckToResponse (R.mapDocumentToEntity doc)), db ++ [doc])
    /\ DeckDocument.name doc = preSave (CreateDeckRequest.name request).
Proof.
  intros L T E I He Hd. unfold createDeck.
  rewrite (findByName_missing_literal _ _ L E).
  fold (Spec.entityOf now request). rewrite He.
  destruct (StoreFacts.buildDocument_name _ _ _ _ Hd) as [Hid [Hn _]].
  rewrite (entityOf_name _ _ _ He), T in Hn.
  split; [|exact Hn].
  unfold R.create, save. rewrite Hd.
  assert (X : existsb (collides doc) db = false).
  { apply not_true_is_false. intros X.
    apply existsb_exists in X as [d [Hin C]]. unfold collides in C.
    apply orb_prop in C as [C|C]; apply String.eqb_eq in C.
    - assert (existsb (fun d => String.eqb (DeckDocument._id d) newId) db = true).
      { apply existsb_exists. exists d. split; [assumption|].
        rewrite C, Hid. apply String.eqb_refl. }
      congruence.
    - assert (Spec.nameExists (CreateDeckRequest.name request) db = true).
      { apply existsb_exists. exists d. split; [assumption|].
        unfold Spec.sameIgnoringCase. rewrite C, Hn, NameFacts.preSave_titleFrom.
        rewrite toUpperCase_titleFrom. apply String.eqb_refl. }
      congruence. }
  rewrite X. reflexivity.
Qed.

(** ** [updateDeck] *)

Lemma findById_valid (id : string) (db : Store) (deck : Deck.t) :
  R.findById id db = Return (Some deck) ->
  isValidObjectId id = true
  /\ exists d, Schema.findById id db = Some d /\ R.mapDocumentToEntity d = deck.
Proof.
  unfold R.findById. destruct (isValidObjectId id); cbn [negb]; [|discriminate].
  intros [= H]. split; [reflexivity|].
  destruct (Schema.findById id db) as [d|]; [|discriminate].
  exists d. split; [reflexivity | now injection H].
Qed.

(** The target does not exist: [NotFoundError], and the store is left as
    it was. *)
Lemma updateDeck_not_found (id : string) (request : UpdateDeckRequest.t)
    (now : Z) (db : Store) :
  R.findById id db = Return None ->
  updateDeck id request now db = (Throw (NotFound id), db).
Proof. intros H. unfold updateDeck. now rewrite H. Qed.

(** A changed name that a record holds, in any case variant, is refused:
    the target itself counts as such a record. *)
Lemma updateDeck_conflict_literal (id : string) (request : UpdateDeckRequest.t)
    (now : Z) (db : Store) (existingDeck : Deck.t) (name : string) :
  R.findById id db = Return (Some existingDeck) ->
  UpdateDeckRequest.name request = Some name ->
  JS.truthy name = true -> name <> Deck.name existingDeck ->
  Spec.literal name = true -> Spec.nameExists name db = true ->
  updateDeck id request now db = (Throw (AlreadyExists name), db).
Proof.
  intros F N T D L E. unfold updateDeck, nameChanges. rewrite F, N, T.
  apply String.eqb_neq in D. rewrite D. cbn [negb andb orElse].
  destruct (findByName_found_literal _ _ L E) as [deck ->]. reflexivity.
Qed.

(** ** The service keeps the store consistent *)

Lemma createDeck_consistent (now : Z) (newId : string)
    (request : CreateDeckRequest.t) (db : Store) :
  Spec.Consistent db -> Spec.Consistent (snd (createDeck now newId request db)).
Proof.
  intros C. unfold createDeck.
  destruct (R.findByName (CreateDeckRequest.name request) db) as [[deck|]|e|];
    try assumption.
  destruct (DeckEntity.new _ _ _ _ _ _ _ _ _ _ _ _) as [entity|e|]; try assumption.
  unfold R.create.
  assert (S := StoreFacts.save_consistent now newId entity db C).
  destruct (save now newId entity db) as [[err|doc] db']; cbn [snd] in *;
    [destruct err|]; assumption.
Qed.

Lemma updateDeck_consistent (id : string) (request : UpdateDeckRequest.t)
    (now : Z) (db : Store) :
  Spec.Consistent db -> Spec.Consistent (snd (updateDeck id request now db)).
Proof.
  intros C. unfold updateDeck.
  destruct (R.findById id db) as [[deck|]|e|]; try assumption.
  match goal with
  | |- context [if ?c then ?a else ?b] => destruct (if c then a else b) as [[]|err|]
  end; try assumption.
  unfold R.update. destruct (isValidObjectId id); cbn [negb]; [|assumption].
  assert (S := StoreFacts.update_consistent id request now db C).
  destruct (findByIdAndUpdate id request now db) as [[err|doc] db']; cbn [snd] in *;
    [destruct err|]; assumption.
Qed.

Lemma deleteDeck_consistent (id : string) (db : Store) :
  Spec.Consistent db -> Spec.Consistent (snd (deleteDeck id db)).
Proof.
  intros C. unfold deleteDeck.
  destruct (R.findById id db) as [[deck|]|e|]; try assumption.
  unfold R.delete. destruct (isValidObjectId id); cbn [negb]; [|assumption].
  unfold findByIdAndDelete.
  assert (S := StoreFacts.remove_consistent id db C).
  destruct (Schema.findById id db); assumption.
Qed.

(** Every store the service can produce is consistent. *)
Lemma reachable_consistent (db : Store) : Spec.Reachable db -> Spec.Consistent db.
Proof.
  induction 1 as [| now newId request db _ IH | id request now db _ IH | id db _ IH].
  - apply StoreFacts.consistent_empty.
  - now apply createDeck_consistent.
  - now apply updateDeck_consistent.
  - now apply deleteDeck_consistent.
Qed.

Lemma reachable_oneDeck : Spec.Reachable Examples.oneDeck.
Proof. unfold Examples.oneDeck. apply Spec.ReachCreate, Spec.ReachEmpty. Qed.

Lemma reachable_renamed : Spec.Reachable Examples.renamed.
Proof. unfold Examples.renamed. apply Spec.ReachUpdate, reachable_oneDeck. Qed.

Lemma reachable_twoBoxes : Spec.Reachable Examples.twoBoxes.
Proof. unfold Examples.twoBoxes. do 2 apply Spec.ReachCreate. apply Spec.ReachEmpty. Qed.

(** An update that keeps the stored name cannot hit the unique index. *)
Lemma update_same_name_no_duplicate (id : string) (u : UpdateDeckRequest.t)
    (now : Z) (db : Store) (d : DeckDocument.t) :
  Spec.Consistent db ->
  Schema.findById id db = Some d ->
  UpdateDeckRequest.name u = Some (DeckDocument.name d) ->
  fst (findByIdAndUpdate id u now db) <> inl DuplicateKey.
Proof.
  intros [Ni Nn Nt] F N. unfold findByIdAndUpdate.
  destruct (castUpdate u) as [p|] eqn:P; [|discriminate].
  rewrite F.
  assert (T : nameTaken (applyPatch p now d) db = false).
  { apply not_true_is_false. intros T.
    apply existsb_exists in T as [x [Hx C]].
    apply andb_prop in C as [C1 C2]. apply String.eqb_eq in C2.
    cbn [applyPatch DeckDocument.name DeckDocument._id] in C1, C2.
    rewrite (StoreFacts.castUpdate_name u p P), N in C2. cbn [option_map orElse] in C2.
    apply StoreFacts.find_In in F as [Hd _].
    assert (Td : Spec.trimmed (DeckDocument.name d))
      by (now apply (proj1 (Forall_forall _ _) Nt)).
    rewrite Td in C2.
    assert (x = d) by (now apply (StoreFacts.NoDup_map_inj DeckDocument.name db)).
    subst x. now rewrite String.eqb_refl in C1. }
  rewrite T. discriminate.
Qed.

(** C10: an update whose [name] is exactly the stored name of the target
    performs no uniqueness lookup, it goes straight to the repository's
    [update], and it does not fail with a Conflict. *)
Theorem updateDeck_same_name_skips_lookup :
  forall (id : string) (request : UpdateDeckRequest.t) (now : Z) (db : Store)
         (existingDeck : Deck.t),
    Spec.Consistent db ->
    R.findById id db = Return (Some existingDeck) ->
    UpdateDeckRequest.name request = Some (Deck.name existingDeck) ->
    updateDeck id request now db
    = (omap (option_map mapDeckToResponse) (fst (R.update id request now db)),
       snd (R.update id request now db))
    /\ isConflict (fst (updateDeck id request now db)) = false.
Proof.
  intros id request now db existingDeck C F N.
  assert (E : updateDeck id request now db
              = (omap (option_map mapDeckToResponse) (fst (R.update id request now db)),
                 snd (R.update id request now db))).
  { unfold updateDeck, nameChanges. rewrite F, N, String.eqb_refl.
    rewrite andb_false_r. now destruct (R.update id request now db). }
  split; [exact E|]. rewrite E. cbn [fst].
  destruct (findById_valid _ _ _ F) as [V [d [Fd Md]]].
  assert (Nd : UpdateDeckRequest.name request = Some (DeckDocument.name d))
    by (now rewrite N, <- Md).
  assert (ND := update_same_name_no_duplicate id request now db d C Fd Nd).
  unfold R.update. rewrite V. cbn [negb].
  destruct (findByIdAndUpdate id request now db) as [[err|doc] db'] eqn:U; cbn [fst] in *.
  - destruct err; try reflexivity. now elim ND.
  - reflexivity.
Qed.

Lemma updateDeck_same_name_witness :
  Spec.Consistent Examples.oneDeck
  /\ isConflict (fst (updateDeck Examples.id1 (Examples.rename "Lightning Aggro")
                        2000 Examples.oneDeck)) = false.
Proof.
  assert (C : Spec.Consistent Examples.oneDeck)
    by exact (reachable_consistent _ reachable_oneDeck).
  split; [exact C|].
  apply (updateDeck_same_name_skips_lookup Examples.id1
           (Examples.rename "Lightning Aggro") 2000 Examples.oneDeck
           (R.mapDocumentToEntity Examples.lightningAggro) C);
    reflexivity.
Defined.

(** ** Timestamps *)

(** C7 (as amended): a successful update leaves [id] and [createdAt] as
    they were and sets [updatedAt] to the time of the update, so that
    [updatedAt] grows strictly when the clock has moved past the previous
    value; the record read back is the one returned. *)
Theorem updateDeck_timestamps :
  forall (id : string) (request : UpdateDeckRequest.t) (now : Z) (db db' : Store)
         (existingDeck : Deck.t) (response : DeckResponse.t),
    R.findById id db = Return (Some existingDeck) ->
    updateDeck id request now db = (Return (Some response), db') ->
    DeckResponse.id response = Deck.id existingDeck
    /\ DeckResponse.createdAt response = Deck.createdAt existingDeck
    /\ DeckResponse.updatedAt response = now
    /\ ((Deck.updatedAt existingDeck < now)%Z ->
        (Deck.updatedAt existingDeck < DeckResponse.updatedAt response)%Z)
    /\ getDeckById id db' = Return (Some response).
Proof.
  intros id request now db db' existingDeck response F U.
  destruct (findById_valid _ _ _ F) as [V [d [Fd Md]]].
  unfold updateDeck in U. rewrite F in U.
  match type of U with
  | context [if ?c then ?a else ?b] => destruct (if c then a else b) as [[]|err|]
  end; try discriminate.
  unfold R.update, findByIdAndUpdate in U. rewrite V in U. cbn [negb] in U.
  destruct (castUpdate request) as [p|]; [|discriminate]. rewrite Fd in U.
  destruct (nameTaken (applyPatch p now d) db); [discriminate|].
  cbn [omap bind option_map] in U. injection U as <- <-. subst existingDeck.
  repeat split; try (intros; assumption).
  unfold getDeckById, R.findById. rewrite V. cbn [negb omap bind].
  rewrite (StoreFacts.find_replace id (applyPatch p now d) d db Fd); [reflexivity|].
  apply StoreFacts.find_In in Fd as [_ Hid].
  now apply (StoreFacts.hasId_same id d).
Qed.

Lemma updateDeck_timestamps_witness :
  (Deck.updatedAt (R.mapDocumentToEntity Examples.lightningAggro) < 2000)%Z
  /\ exists response,
       fst (updateDeck Examples.id1 (Examples.describe "Burn") 2000 Examples.oneDeck)
       = Return (Some response)
       /\ (1000 < DeckResponse.updatedAt response)%Z
       /\ DeckResponse.createdAt response = 1000%Z.
Proof.
  split; [reflexivity|]. eexists. split; [reflexivity|].
  destruct (updateDeck_timestamps Examples.id1 (Examples.describe "Burn") 2000
              Examples.oneDeck _ (R.mapDocumentToEntity Examples.lightningAggro) _
              eq_refl eq_refl) as [_ [Hc [_ [Hu _]]]].
  split; [apply Hu; reflexivity | exact Hc].
Defined.

(** C7 (as stated) fails: an update in the millisecond of the previous
    write leaves [updatedAt] equal to its previous value. *)
Lemma updatedAt_not_strictly_increasing :
  ~ (forall (id : string) (request : UpdateDeckRequest.t) (now : Z) (db db' : Store)
            (existingDeck : Deck.t) (response : DeckResponse.t),
        R.findById id db = Return (Some existingDeck) ->
        updateDeck id request now db = (Return (Some response), db') ->
        (Deck.updatedAt existingDeck < DeckResponse.updatedAt response)%Z
        /\ DeckResponse.createdAt response = Deck.createdAt existingDeck
        /\ DeckResponse.id response = Deck.id existingDeck).
Proof.
  intros H.
  destruct (H Examples.id1 (Examples.describe "Burn") 1000%Z Examples.oneDeck _
              (R.mapDocumentToEntity Examples.lightningAggro) _ eq_refl eq_refl)
    as [Hlt _].
  vm_compute in Hlt. discriminate.
Qed.

(** ** What creation alone guarantees *)

(** A deck that [createDeck] returns has a title-cased name. *)
Lemma createDeck_title_cases (now : Z) (newId : string)
    (request : CreateDeckRequest.t) (db db' : Store) (response : DeckResponse.t) :
  createDeck now newId request db = (Return response, db') ->
  Spec.titleCased (DeckResponse.name response) = true
  /\ exists doc, db' = db ++ [doc]
                 /\ DeckDocument.name doc = DeckResponse.name response.
Proof.
  unfold createDeck.
  destruct (R.findByName (CreateDeckRequest.name request) db) as [[deck|]|e|];
    try discriminate.
  destruct (DeckEntity.new _ _ _ _ _ _ _ _ _ _ _ _) as [entity|e|]; try discriminate.
  unfold R.create, save.
  destruct (buildDocument now newId entity) as [doc|] eqn:B; [|discriminate].
  destruct (existsb (collides doc) db); [discriminate|].
  cbn [omap bind]. intros [= <- <-].
  destruct (StoreFacts.buildDocument_name _ _ _ _ B) as [_ [N _]].
  cbn [mapDeckToResponse DeckResponse.name R.mapDocumentToEntity Deck.name].
  split; [rewrite N; apply NameFacts.preSave_titleCased | now exists doc].
Qed.

(** While every stored name is title-cased (as after creations only), a
    create request for a trimmed name that a record holds in some case
    variant adds no record, whatever characters the name has: where the
    lookup misses the record, the unique index refuses the title-cased
    name. *)
Lemma createDeck_adds_no_variant (now : Z) (newId : string)
    (request : CreateDeckRequest.t) (db : Store) :
  Forall (fun d => Spec.titleCased (DeckDocument.name d) = true) db ->
  Spec.trimmed (CreateDeckRequest.name request) ->
  Spec.nameExists (CreateDeckRequest.name request) db = true ->
  snd (createDeck now newId request db) = db
  /\ forall response, fst (createDeck now newId request db) <> Return response.
Proof.
  intros Titled T E. unfold createDeck.
  destruct (R.findByName (CreateDeckRequest.name request) db) as [[deck|]|e|];
    try (split; [reflexivity | discriminate]).
  fold (Spec.entityOf now request).
  destruct (Spec.entityOf now request) as [entity|e|] eqn:He;
    try (split; [reflexivity | discriminate]).
  unfold R.create, save.
  destruct (buildDocument now newId entity) as [doc|] eqn:B;
    [|split; [reflexivity | discriminate]].
  assert (X : existsb (collides doc) db = true).
  { apply existsb_exists in E as [d [Hin Same]].
    apply existsb_exists. exists d. split; [assumption|].
    unfold collides. apply orb_true_iff. right. apply String.eqb_eq.
    destruct (StoreFacts.buildDocument_name _ _ _ _ B) as [_ [N _]].
    rewrite N, (entityOf_name _ _ _ He), T.
    assert (Td := proj1 (Forall_forall _ _) Titled d Hin). cbn beta in Td.
    apply String.eqb_eq in Td. rewrite <- Td.
    symmetry. now apply NameFacts.preSave_case_variant. }
  rewrite X. split; [reflexivity | discriminate].
Qed.

(** ** Where the code departs from the specification *)

(** C3: the name is title-cased when a deck is created (["lightning
    aggro"] is stored as ["Lightning Aggro"], and ["LIGHTNING AGGRO"] is
    then refused as a Conflict), but a partial update that supplies a name
    stores it as given: the [pre('save')] hook does not run on
    [findByIdAndUpdate]. *)
Theorem update_stores_name_as_given :
  Spec.Reachable Examples.oneDeck
  /\ map DeckDocument.name Examples.oneDeck = ["Lightning Aggro"]
  /\ isConflict (fst (createDeck 3000 Examples.id2 (Examples.deck "LIGHTNING AGGRO")
                        Examples.oneDeck)) = true
  /\ (exists response,
        fst (updateDeck Examples.id1 (Examples.rename "goblin rush") 2000 Examples.oneDeck)
        = Return (Some response)
        /\ DeckResponse.name response = "goblin rush")
  /\ map DeckDocument.name
       (snd (updateDeck Examples.id1 (Examples.rename "goblin rush") 2000 Examples.oneDeck))
     = ["goblin rush"]
  /\ Spec.titleCased "goblin rush" = false.
Proof.
  split; [exact reachable_oneDeck|].
  split; [reflexivity|]. split; [reflexivity|].
  split; [eexists; split; reflexivity|]. split; reflexivity.
Qed.

(** C1: once an update has stored the name ["what?"], a create request
    for its case variant ["What?"] is not refused: the lookup compiles
    the name as a regular expression, in which [t?] is an optional [t],
    and a second record with the same name up to case is added. *)
Theorem createDeck_accepts_case_variant :
  Spec.Reachable Examples.renamed
  /\ map DeckDocument.name Examples.renamed = ["what?"]
  /\ Spec.nameExists "What?" Examples.renamed = true
  /\ (exists response,
        fst (createDeck 3000 Examples.id2 (Examples.deck "What?") Examples.renamed)
        = Return response
        /\ DeckResponse.name response = "What?")
  /\ map DeckDocument.name
       (snd (createDeck 3000 Examples.id2 (Examples.deck "What?") Examples.renamed))
     = ["what?"; "What?"].
Proof.
  split; [exact reachable_renamed|].
  split; [reflexivity|]. split; [reflexivity|].
  split; [eexists; split; reflexivity | reflexivity].
Qed.

(** C2: renaming a deck to a case variant of its own name is refused as a
    Conflict although no other record holds the name: the lookup does not
    leave the target out. *)
Theorem updateDeck_conflicts_with_itself :
  Spec.Reachable Examples.oneDeck
  /\ map DeckDocument.name Examples.oneDeck = ["Lightning Aggro"]
  /\ Spec.nameHeldByOther Examples.id1 "lightning aggro" Examples.oneDeck = false
  /\ updateDeck Examples.id1 (Examples.rename "lightning aggro") 2000 Examples.oneDeck
     = (Throw (AlreadyExists "lightning aggro"), Examples.oneDeck).
Proof. split; [exact reachable_oneDeck | repeat split]. Qed.

End ServiceProperties.

(* ================================================================== *)
(** * Listing: filters, pages and order *)
(* ================================================================== *)

Module ListingProperties.

Import Schema.
Module R := MongoDeckRepository.

(** The window of the sorted matches that a page shows. *)
Lemma window_beyond {A : Type} (skip limit : nat) (l : list A) :
  List.length l <= skip -> firstn limit (skipn skip l) = [].
Proof. intros H. rewrite skipn_all2 by assumption. apply firstn_nil. Qed.

(** C5: for a filter document [query], an effective limit [L >= 1] and a
    page [P >= 1], [findAll] returns; it reports the number of matching
    records as [total] and [ceil(total / L)] as [totalPages] (the least
    count of pages of [L] records that holds [total] records); its data
    are the sorted matches after skipping [(P - 1) * L] of them, cut to
    [L]; and a page beyond [totalPages] is empty, with the same [total]. *)
Theorem findAll_pagination :
  forall (filters : option DeckFilters.t) (pagination : option PaginationOptions.t)
         (db : Store) (query : Query.t),
    R.buildFilterQuery "find decks" filters = Return query ->
    (0 < R.limitOf pagination)%Z ->
    (1 <= R.pageOf pagination)%Z ->
    exists result,
      R.findAll filters pagination db = Return result
      /\ PaginatedResult.total result = Z.of_nat (List.length (filter (matches query) db))
      /\ PaginatedResult.limit result = R.limitOf pagination
      /\ PaginatedResult.page result = R.pageOf pagination
      /\ PaginatedResult.totalPages result
         = R.ceilDiv (PaginatedResult.total result) (PaginatedResult.limit result)
      /\ (PaginatedResult.total result
          <= PaginatedResult.totalPages result * PaginatedResult.limit result
          < PaginatedResult.total result + PaginatedResult.limit result)%Z
      /\ PaginatedResult.data result
         = map R.mapDocumentToEntity
             (firstn (Z.to_nat (R.limitOf pagination))
                (skipn (Z.to_nat ((R.pageOf pagination - 1) * R.limitOf pagination))
                   (sort (R.sortFieldOf pagination) (R.sortOrderOf pagination)
                      (filter (matches query) db))))
      /\ ((PaginatedResult.totalPages result < PaginatedResult.page result)%Z ->
          PaginatedResult.data result = []).
Proof.
  intros filters pagination db query B L P.
  unfold R.findAll. rewrite B. cbn [bind].
  set (lim := R.limitOf pagination) in *. set (pg := R.pageOf pagination) in *.
  unfold Schema.skip, Schema.limit, countDocuments, Schema.find.
  assert (S0 : ((pg - 1) * lim <? 0)%Z = false) by (apply Z.ltb_ge; nia).
  assert (L0 : (lim =? 0)%Z = false) by (apply Z.eqb_neq; lia).
  rewrite S0, L0. eexists. split; [reflexivity|].
  cbn [PaginatedResult.total PaginatedResult.limit PaginatedResult.page
       PaginatedResult.totalPages PaginatedResult.data].
  assert (Abs : Z.abs_nat lim = Z.to_nat lim) by lia. rewrite Abs.
  repeat (split; [reflexivity|]).
  split; [now apply PagingFacts.ceilDiv_spec|].
  split; [reflexivity|].
  intros Beyond.
  assert (C := PagingFacts.ceilDiv_spec
                 (Z.of_nat (List.length (filter (matches query) db))) lim L).
  rewrite window_beyond; [reflexivity|].
  unfold sort. rewrite PagingFacts.sortWith_length. nia.
Qed.

Lemma findAll_pagination_witness :
  exists result,
    R.findAll None (Some (PaginationOptions.mk (Some 3%Z) (Some 1%Z) None None))
      Examples.twoBoxes = Return result
    /\ PaginatedResult.total result = 2%Z
    /\ PaginatedResult.totalPages result = 2%Z
    /\ PaginatedResult.data result = [].
Proof.
  destruct (findAll_pagination None
              (Some (PaginationOptions.mk (Some 3%Z) (Some 1%Z) None None))
              Examples.twoBoxes (Query.mk None None None None None None)
              eq_refl eq_refl ltac:(discriminate))
    as [result [F [T [L [P [TP [_ [_ E]]]]]]]].
  exists result. split; [exact F|]. split; [exact T|].
  assert (TP2 : PaginatedResult.totalPages result = 2%Z)
    by (rewrite TP, T, L; reflexivity).
  split; [exact TP2|]. apply E. rewrite TP2, P. reflexivity.
Defined.

(** ** The controller's pagination *)

Lemma paginationOf_page (query : ListQuery.t) :
  PaginationOptions.page (DeckController.paginationOf query)
  = Some (Spec.clampedPage (DeckController.parseIntParam (ListQuery.page query))).
Proof.
  unfold DeckController.paginationOf, Spec.clampedPage, JS.numOr.
  cbn [PaginationOptions.page]. f_equal.
  destruct (DeckController.parseIntParam (ListQuery.page query)) as [p|]; [|reflexivity].
  destruct (Z.eqb_spec p 0); [subst; reflexivity|]. reflexivity.
Qed.

Lemma paginationOf_limit (query : ListQuery.t) :
  PaginationOptions.limit (DeckController.paginationOf query)
  = Some (Spec.clampedLimit (DeckController.parseIntParam (ListQuery.limit query))).
Proof.
  unfold DeckController.paginationOf, Spec.clampedLimit, JS.numOr.
  cbn [PaginationOptions.limit]. f_equal.
  destruct (DeckController.parseIntParam (ListQuery.limit query)) as [l|]; [|reflexivity].
  destruct (Z.eqb_spec l 0); [subst; reflexivity|].
  destruct (Z.ltb_spec l 1), (Z.ltb_spec 100 l), (Z.leb_spec 1 l), (Z.leb_spec l 100);
    cbn [orb andb]; try reflexivity; lia.
Qed.

Lemma clampedPage_bound (requested : option Z) : (1 <= Spec.clampedPage requested)%Z.
Proof.
  unfold Spec.clampedPage. destruct requested as [p|]; [|lia].
  destruct (Z.ltb_spec p 1); lia.
Qed.

Lemma clampedLimit_bound (requested : option Z) :
  (1 <= Spec.clampedLimit requested <= 100)%Z.
Proof.
  unfold Spec.clampedLimit. destruct requested as [l|]; [|lia].
  destruct (Z.leb_spec 1 l), (Z.leb_spec l 100); cbn [andb]; lia.
Qed.

Lemma numOr_some_nonzero (n d : Z) : n <> 0%Z -> JS.numOr (Some n) d = n.
Proof. intros H. unfold JS.numOr. apply Z.eqb_neq in H. now rewrite H. Qed.

(** C6: the controller hands the use case a limit in [1, 100], the
    requested one when it is in that range and the default 10 otherwise,
    and a page of at least 1, the requested one unless it is below 1;
    the query then runs with exactly these; with no sort parameter the
    data come in descending order of creation time. *)
Theorem getAllDecks_clamps_and_sorts :
  forall (query : ListQuery.t) (db : Store),
    let requestedPage := DeckController.parseIntParam (ListQuery.page query) in
    let requestedLimit := DeckController.parseIntParam (ListQuery.limit query) in
    let pagination := DeckController.paginationOf query in
    PaginationOptions.limit pagination = Some (Spec.clampedLimit requestedLimit)
    /\ PaginationOptions.page pagination = Some (Spec.clampedPage requestedPage)
    /\ (1 <= Spec.clampedLimit requestedLimit <= 100)%Z
    /\ (1 <= Spec.clampedPage requestedPage)%Z
    /\ (forall l, requestedLimit = Some l -> (l < 1 \/ 100 < l)%Z ->
                  Spec.clampedLimit requestedLimit = 10%Z)
    /\ (forall p, requestedPage = Some p -> (p < 1)%Z -> Spec.clampedPage requestedPage = 1%Z)
    /\ DeckController.getAllDecks query db
       = DeckUseCases.getAllDecks (Some (DeckController.filtersOf query)) (Some pagination) db
    /\ (forall q,
          R.buildFilterQuery "find decks" (Some (DeckController.filtersOf query)) = Return q ->
          exists result,
            DeckController.getAllDecks query db = Return result
            /\ PaginatedResult.limit result = Spec.clampedLimit requestedLimit
            /\ PaginatedResult.page result = Spec.clampedPage requestedPage
            /\ (ListQuery.sortBy query = None -> ListQuery.sortOrder query = None ->
                Spec.newestFirst (map DeckResponse.createdAt (PaginatedResult.data result)))).
Proof.
  intros query db requestedPage requestedLimit pagination.
  assert (HL := paginationOf_limit query). assert (HP := paginationOf_page query).
  fold requestedLimit in HL. fold requestedPage in HP. fold pagination in HL, HP.
  assert (BL := clampedLimit_bound requestedLimit).
  assert (BP := clampedPage_bound requestedPage).
  split; [exact HL|]. split; [exact HP|]. split; [exact BL|]. split; [exact BP|].
  split.
  { intros l -> Out. unfold Spec.clampedLimit.
    destruct (Z.leb_spec 1 l), (Z.leb_spec l 100); cbn [andb]; try reflexivity; lia. }
  split.
  { intros p -> Low. unfold Spec.clampedPage. destruct (Z.ltb_spec p 1); [reflexivity | lia]. }
  split; [reflexivity|].
  intros q B.
  assert (EL : R.limitOf (Some pagination) = Spec.clampedLimit requestedLimit).
  { unfold R.limitOf. cbn [obind]. rewrite HL. apply numOr_some_nonzero. lia. }
  assert (EP : R.pageOf (Some pagination) = Spec.clampedPage requestedPage).
  { unfold R.pageOf. cbn [obind]. rewrite HP. apply numOr_some_nonzero. lia. }
  destruct (findAll_pagination (Some (DeckController.filtersOf query)) (Some pagination)
              db q B ltac:(lia) ltac:(lia))
    as [result [F [_ [L [P [_ [_ [D _]]]]]]]].
  unfold DeckController.getAllDecks, DeckUseCases.getAllDecks.
  fold pagination. fold R.findAll. 
  change (MongoDeckRepository.findAll) with R.findAll. rewrite F.
  cbn [DeckUseCases.omap bind]. eexists. split; [reflexivity|].
  cbn [PaginatedResult.limit PaginatedResult.page PaginatedResult.data].
  split; [now rewrite L|]. split; [now rewrite P|].
  intros NoField NoOrder. rewrite D, !map_map.
  change (fun x => DeckResponse.createdAt
                     (DeckUseCases.mapDeckToResponse (R.mapDocumentToEntity x)))
    with DeckDocument.createdAt.
  rewrite <- firstn_map, <- skipn_map.
  apply PagingFacts.newestFirst_firstn, PagingFacts.newestFirst_skipn.
  assert (SF : R.sortFieldOf (Some pagination) = SortField.createdAt).
  { unfold pagination, DeckController.paginationOf, R.sortFieldOf.
    cbn [obind PaginationOptions.sortBy]. now rewrite NoField. }
  assert (SO : R.sortOrderOf (Some pagination) = (-1)%Z).
  { unfold pagination, DeckController.paginationOf, R.sortOrderOf.
    cbn [obind PaginationOptions.sortOrder]. now rewrite NoOrder. }
  rewrite SF, SO.
  apply (PagingFacts.sortWith_newestFirst DeckDocument.createdAt).
Qed.

Lemma getAllDecks_clamps_and_sorts_witness :
  PaginationOptions.limit (DeckController.paginationOf (Examples.listPage "0" "250"))
  = Some 10%Z
  /\ PaginationOptions.page (DeckController.paginationOf (Examples.listPage "0" "250"))
     = Some 1%Z
  /\ exists result,
       DeckController.getAllDecks Examples.plainList Examples.twoBoxes = Return result
       /\ map DeckResponse.createdAt (PaginatedResult.data result) = [2000%Z; 1000%Z]
       /\ Spec.newestFirst (map DeckResponse.createdAt (PaginatedResult.data result)).
Proof.
  destruct (getAllDecks_clamps_and_sorts (Examples.listPage "0" "250") Examples.twoBoxes)
    as [HL [HP [_ [_ [OutL [OutP _]]]]]].
  split; [rewrite HL, (OutL 250%Z eq_refl (or_intror eq_refl)); reflexivity|].
  split; [rewrite HP, (OutP 0%Z eq_refl eq_refl); reflexivity|].
  destruct (getAllDecks_clamps_and_sorts Examples.plainList Examples.twoBoxes)
    as [_ [_ [_ [_ [_ [_ [_ Run]]]]]]].
  destruct (Run (Query.mk None None None None None None) eq_refl)
    as [result [F [_ [_ Sorted]]]].
  exists result. split; [exact F|].
  split; [|apply Sorted; reflexivity].
  assert (G : DeckController.getAllDecks Examples.plainList Examples.twoBoxes
              = Return result) by exact F.
  vm_compute in G. injection G as <-. reflexivity.
Defined.

(** ** Filters *)

Lemma In_firstn {A : Type} (n : nat) (l : list A) (x : A) :
  In x (firstn n l) -> In x l.
Proof. intros H. rewrite <- (firstn_skipn n l). apply in_or_app. now left. Qed.

Lemma In_skipn {A : Type} (n : nat) (l : list A) (x : A) :
  In x (skipn n l) -> In x l.
Proof. intros H. rewrite <- (firstn_skipn n l). apply in_or_app. now right. Qed.

(** With a storage location free of special characters, the records
    [findAll] counts and returns are the records that satisfy every
    supplied filter, the location by containment up to case. *)
Lemma findAll_literal_filters (f : DeckFilters.t)
    (pagination : option PaginationOptions.t) (db : Store) :
  Spec.literalFilters f = true ->
  (0 < R.limitOf pagination)%Z -> (1 <= R.pageOf pagination)%Z ->
  exists result,
    R.findAll (Some f) pagination db = Return result
    /\ PaginatedResult.total result
       = Z.of_nat (List.length (filter (Spec.satisfies f) db))
    /\ (forall deck, In deck (PaginatedResult.data result) ->
          exists d, In d db /\ Spec.satisfies f d = true
                    /\ R.mapDocumentToEntity d = deck)
    /\ ((PaginatedResult.total result <= R.limitOf pagination)%Z ->
        R.pageOf pagination = 1%Z ->
        Permutation (PaginatedResult.data result)
          (map R.mapDocumentToEntity (filter (Spec.satisfies f) db))).
Proof.
  intros Lit L P.
  destruct (PagingFacts.buildFilterQuery_literal "find decks" f Lit) as [q [B M]].
  destruct (findAll_pagination (Some f) pagination db q B L P)
    as [result [F [T [_ [_ [_ [_ [D _]]]]]]]].
  assert (E : filter (matches q) db = filter (Spec.satisfies f) db)
    by (apply filter_ext; exact M).
  rewrite E in T, D.
  exists result. split; [exact F|]. split; [exact T|]. split.
  - intros deck Hin. rewrite D in Hin. apply in_map_iff in Hin as [d [Ed Hd]].
    apply In_firstn, In_skipn in Hd.
    apply (Permutation_in _ (PagingFacts.sortWith_perm _ _)) in Hd.
    apply filter_In in Hd as [Hd Sat]. now exists d.
  - intros Fits First. rewrite D, First.
    replace ((1 - 1) * R.limitOf pagination)%Z with 0%Z by lia.
    cbn [Z.to_nat skipn]. rewrite firstn_all2.
    + apply Permutation_map. apply PagingFacts.sortWith_perm.
    + unfold sort. rewrite PagingFacts.sortWith_length. lia.
Qed.

(** C4: the storage-location filter is compiled as a regular
    expression, not searched as text: the filter ["box.1"] returns the
    deck kept at ["Box-1"], which does not contain it, and the filter
    ["C++"] makes the listing fail. *)
Theorem storageLocation_filter_is_a_pattern :
  Spec.Reachable Examples.twoBoxes
  /\ map DeckDocument.storageLocation Examples.twoBoxes = ["Box-1"; "Red Box #1"]
  /\ filter (Spec.satisfies (Examples.storedAt "box.1")) Examples.twoBoxes = []
  /\ (exists result,
        R.findAll (Some (Examples.storedAt "box.1")) None Examples.twoBoxes
        = Return result
        /\ map Deck.storageLocation (PaginatedResult.data result) = ["Box-1"]
        /\ PaginatedResult.total result = 1%Z)
  /\ R.findAll (Some (Examples.storedAt "C++")) None Examples.twoBoxes
     = Throw (Failed "find decks" (RegExpSyntaxError "C++")).
Proof.
  split; [exact ServiceProperties.reachable_twoBoxes|].
  split; [reflexivity|]. split; [reflexivity|].
  split; [eexists; repeat split | reflexivity].
Qed.

End ListingProperties.

(* ================================================================== *)
(** * Request validation reports every violation *)
(* ================================================================== *)

Module ValidationProperties.

Import Joi ValidationMiddleware.

Section WithUri.

Variable isUri : string -> bool.

(** Every error of a key lies at or below the key. *)
Lemma keyErrors_path (k : key) (members : list (string * Json.t)) (e : error) :
  In e (keyErrors isUri k members) -> exists rest, path e = name k :: rest.
Proof.
  unfold keyErrors. destruct (Json.lookup (name k) members) as [v|].
  - intros H. apply in_map_iff in H as [e0 [<- _]]. now eexists.
  - destruct (required k); [|intros []]. intros [<-|[]]. now eexists.
Qed.

Lemma join_startsWith (key : string) (rest : list string) :
  JS.startsWith key (JS.join "." (key :: rest)) = true.
Proof.
  assert (P : forall tail, JS.startsWith key (key ++ tail)%string = true).
  { intros tail. induction key as [|c r IH]; [reflexivity|].
    cbn [String.append JS.startsWith]. now rewrite Ascii.eqb_refl, IH. }
  destruct rest as [|x rest].
  - cbn [JS.join]. rewrite <- (P EmptyString) at 1. f_equal.
    clear. induction key as [|c r IH]; cbn; [reflexivity | now rewrite <- IH].
  - rewrite NameFacts.join_two. apply P.
Qed.

(** With [abortEarly: false] the details hold the errors of every key. *)
Lemma validate_all (o : object) (members : list (string * Json.t)) :
  flat_map (fun k => keyDetails isUri k members) (keys o) <> [] ->
  validate isUri o false (Json.Obj members)
  = flat_map (fun k => keyDetails isUri k members) (keys o).
Proof.
  intros N. unfold validate.
  destruct (flat_map (fun k => keyDetails isUri k members) (keys o));
    [now elim N | reflexivity].
Qed.

Lemma run_reports (o : object) (members : list (string * Json.t))
    (k : key) (e : error) :
  In k (keys o) -> In e (keyErrors isUri k members) ->
  exists details,
    run isUri o (Json.Obj members) = Status400 details
    /\ details = map errorMessage
                   (flat_map (fun k => keyDetails isUri k members) (keys o))
    /\ In (mkFieldMessage (JS.join "." (path e)) (detailMessage (messageOf k e)))
          details
    /\ JS.startsWith (name k) (JS.join "." (path e)) = true.
Proof.
  intros Hk He.
  assert (Hin : In (messageOf k e)
                   (flat_map (fun k => keyDetails isUri k members) (keys o))).
  { apply in_flat_map. exists k. split; [assumption|].
    unfold keyDetails. now apply in_map. }
  assert (N : flat_map (fun k => keyDetails isUri k members) (keys o) <> [])
    by (intros E; rewrite E in Hin; exact Hin).
  unfold run. rewrite (validate_all o members N).
  destruct (flat_map (fun k => keyDetails isUri k members) (keys o)) as [|d ds] eqn:E;
    [now elim N|].
  eexists. split; [reflexivity|]. split; [reflexivity|]. split.
  - change (mkFieldMessage (JS.join "." (path e)) (detailMessage (messageOf k e)))
      with (errorMessage (messageOf k e)).
    now apply in_map.
  - destruct (keyErrors_path k members e He) as [rest ->]. apply join_startsWith.
Qed.

(** With [abortEarly: true] one error at most would be reported. *)
Lemma abortEarly_reports_one (o : object) (body : Json.t) :
  List.length (validate isUri o true body) <= 1.
Proof. unfold validate. apply firstn_le_length. Qed.

End WithUri.

(** C8: whatever object the body is, each violation of each key of the
    schema (of the create schema in [validateCreateDeck], of the update
    schema in [validateUpdateDeck]) is an entry of the details of the 400
    response, under a field that starts with the key and with the message
    for the error type; the details are the violations of all the keys,
    in the order of the schema. *)
Theorem validation_reports_every_violation :
  forall (isUri : string -> bool) (members : list (string * Json.t))
         (k : key) (e : error),
    In e (keyErrors isUri k members) ->
    (In k (keys createDeckSchema) ->
     exists details,
       validateCreateDeck isUri (Json.Obj members) = Status400 details
       /\ details = map errorMessage
                      (flat_map (fun k => keyDetails isUri k members)
                         (keys createDeckSchema))
       /\ In (mkFieldMessage (JS.join "." (path e)) (detailMessage (messageOf k e)))
             details
       /\ JS.startsWith (name k) (JS.join "." (path e)) = true)
    /\ (In k (keys updateDeckSchema) ->
        exists details,
          validateUpdateDeck isUri (Json.Obj members) = Status400 details
          /\ details = map errorMessage
                         (flat_map (fun k => keyDetails isUri k members)
                            (keys updateDeckSchema))
          /\ In (mkFieldMessage (JS.join "." (path e)) (detailMessage (messageOf k e)))
                details
          /\ JS.startsWith (name k) (JS.join "." (path e)) = true).
Proof.
  intros isUri members k e He. split; intros Hk.
  - now apply run_reports.
  - now apply run_reports.
Qed.

Lemma validation_reports_every_violation_witness :
  exists details,
    validateCreateDeck (fun _ => true) Examples.badBody = Status400 details
    /\ List.length details = 3
    /\ In (mkFieldMessage "tierRating" (Custom "Tier rating must be S, A, B, C, or D"))
          details.
Proof.
  destruct (validation_reports_every_violation (fun _ => true)
              [ ("name", Json.Str "   ");
                ("description", Json.Str "Fast red aggro deck");
                ("colors", Json.Arr [Json.Str "R"; Json.Str "Q"]);
                ("tierRating", Json.Str "Z");
                ("hasCardSleeves", Json.Bool true);
                ("isComplete", Json.Bool false);
                ("deckType", Json.Str "AGGRO");
                ("gameStage", Json.Str "EARLY");
                ("storageLocation", Json.Str "Red Box #1") ]
              (mkKey "tierRating" (KValid tierValues) true
                 [("any.only", "Tier rating must be S, A, B, C, or D")])
              (mkError ["tierRating"] "any.only")
              (or_introl eq_refl)) as [Create _].
  destruct (Create (or_intror (or_intror (or_intror (or_introl eq_refl)))))
    as [details [Run [All [Hin _]]]].
  exists details. split; [exact Run|]. split; [|exact Hin].
  rewrite All. reflexivity.
Defined.

End ValidationProperties.

(* ================================================================== *)
(** * The deck service: round trips and what a write leaves alone *)
(* ================================================================== *)

Module RoundTripProperties.

Import Schema DeckUseCases.

(** ** The enums print as they were read *)

Lemma find_value {A : Type} (value : A -> string) (values : list A) (s : string) (v : A) :
  List.find (fun x => String.eqb (value x) s) values = Some v -> value v = s.
Proof. intros H. apply find_some in H as [_ E]. now apply String.eqb_eq. Qed.

Lemma colors_value (cs : list string) (l : list MagicColor.t) :
  traverse MagicColor.ofString cs = Some l -> map MagicColor.value l = cs.
Proof.
  revert l. induction cs as [|c r IH]; intros l; cbn [traverse].
  - now intros [= <-].
  - destruct (MagicColor.ofString c) as [v|] eqn:E; [|discriminate].
    destruct (traverse MagicColor.ofString r) as [vs|]; [|discriminate].
    intros [= <-]. cbn [map]. rewrite (IH vs eq_refl).
    now rewrite (find_value _ _ _ _ E).
Qed.

Lemma colors_length (cs : list string) (l : list MagicColor.t) :
  traverse MagicColor.ofString cs = Some l -> List.length l = List.length cs.
Proof. intros H. rewrite <- (colors_value cs l H). now rewrite length_map. Qed.

(** ** What the casts store *)

Lemma castColors_value (cs : list string) (l : list MagicColor.t) :
  castColors cs = Some l ->
  map MagicColor.value l = cs /\ 1 <= List.length l <= 5.
Proof.
  unfold castColors.
  destruct (Nat.ltb_spec 0 (List.length cs)), (Nat.leb_spec (List.length cs) 5);
    cbn [andb]; try discriminate.
  intros T. split; [now apply colors_value|]. rewrite (colors_length _ _ T). lia.
Qed.

Lemma truthy_nonempty (s : string) : JS.truthy s = true <-> s <> EmptyString.
Proof. destruct s; cbn; split; congruence. Qed.

Lemma cast_text (n : nat) (s v : string) :
  (if required (JS.trim s) && maxlength n (JS.trim s) then Some (JS.trim s) else None)
  = Some v ->
  v = JS.trim s /\ v <> EmptyString /\ String.length v <= n.
Proof.
  unfold required, maxlength.
  destruct (JS.truthy (JS.trim s)) eqn:T; cbn [andb]; [|discriminate].
  destruct (Nat.leb_spec (String.length (JS.trim s)) n); [|discriminate].
  intros [= <-]. repeat split; [now apply truthy_nonempty | assumption].
Qed.

Lemma castPlaneswalker_value (s v : string) :
  castPlaneswalker s = Some v -> v = JS.trim s /\ String.length v <= 50.
Proof.
  unfold castPlaneswalker, maxlength.
  destruct (Nat.leb_spec (String.length (JS.trim s)) 50); [|discriminate].
  now intros [= <-].
Qed.

Lemma castDescriptiveImage_value (s v : string) :
  castDescriptiveImage s = Some v -> v = JS.trim s /\ validImage v = true.
Proof.
  unfold castDescriptiveImage.
  destruct (validImage (JS.trim s)) eqn:V; [|discriminate]. now intros [= <-].
Qed.

Lemma castOpt_some {A B : Type} (f : A -> option B) (o : option A) (r : option B) :
  castOpt f o = Some r ->
  match o with
  | None => r = None
  | Some a => exists b, f a = Some b /\ r = Some b
  end.
Proof.
  destruct o as [a|]; cbn [castOpt].
  - destruct (f a) as [b|]; cbn [option_map]; [|discriminate].
    intros [= <-]. now exists b.
  - now intros [= <-].
Qed.

(** The document [save] builds, field by field. *)
Lemma buildDocument_fields (now : Z) (newId : string) (e : DeckEntity.t)
    (doc : DeckDocument.t) :
  buildDocument now newId e = Some doc ->
  exists n d cs tr img dt gs loc pw,
    castName (DeckEntity.name e) = Some n
    /\ castDescription (DeckEntity.description e) = Some d
    /\ castColors (DeckEntity.colors e) = Some cs
    /\ TierRating.ofString (DeckEntity.tierRating e) = Some tr
    /\ castOpt castDescriptiveImage (DeckEntity.descriptiveImage e) = Some img
    /\ DeckType.ofString (DeckEntity.deckType e) = Some dt
    /\ GameStage.ofString (DeckEntity.gameStage e) = Some gs
    /\ castStorageLocation (DeckEntity.storageLocation e) = Some loc
    /\ castOpt castPlaneswalker (DeckEntity.planeswalker e) = Some pw
    /\ doc = DeckDocument.mk newId (preSave n) d cs tr
               (DeckEntity.hasCardSleeves e) (DeckEntity.isComplete e)
               img dt gs loc pw now now.
Proof.
  unfold buildDocument, obind.
  destruct (castName _) as [n|]; [|discriminate].
  destruct (castDescription _) as [d|]; [|discriminate].
  destruct (castColors _) as [cs|]; [|discriminate].
  destruct (TierRating.ofString _) as [tr|]; [|discriminate].
  destruct (castOpt castDescriptiveImage _) as [img|]; [|discriminate].
  destruct (DeckType.ofString _) as [dt|]; [|discriminate].
  destruct (GameStage.ofString _) as [gs|]; [|discriminate].
  destruct (castStorageLocation _) as [loc|]; [|discriminate].
  destruct (castOpt castPlaneswalker _) as [pw|]; [|discriminate].
  intros [= <-]. exists n, d, cs, tr, img, dt, gs, loc, pw. repeat split.
Qed.

(** The patch [findByIdAndUpdate] applies, field by field. *)
Lemma castUpdate_fields (u : UpdateDeckRequest.t) (p : Patch.t) :
  castUpdate u = Some p ->
  castOpt castName (UpdateDeckRequest.name u) = Some (Patch.name p)
  /\ castOpt castDescription (UpdateDeckRequest.description u) = Some (Patch.description p)
  /\ castOpt castColors (UpdateDeckRequest.colors u) = Some (Patch.colors p)
  /\ castOpt TierRating.ofString (UpdateDeckRequest.tierRating u) = Some (Patch.tierRating p)
  /\ castOpt DeckType.ofString (UpdateDeckRequest.deckType u) = Some (Patch.deckType p)
  /\ castOpt GameStage.ofString (UpdateDeckRequest.gameStage u) = Some (Patch.gameStage p)
  /\ castOpt castStorageLocation (UpdateDeckRequest.storageLocation u)
     = Some (Patch.storageLocation p)
  /\ castOpt castDescriptiveImage (UpdateDeckRequest.descriptiveImage u)
     = Some (Patch.descriptiveImage p)
  /\ castOpt castPlaneswalker (UpdateDeckRequest.planeswalker u)
     = Some (Patch.planeswalker p)
  /\ Patch.hasCardSleeves p = UpdateDeckRequest.hasCardSleeves u
  /\ Patch.isComplete p = UpdateDeckRequest.isComplete u.
Proof.
  unfold castUpdate, obind.
  destruct (castOpt castName _) as [n|]; [|discriminate].
  destruct (castOpt castDescription _) as [d|]; [|discriminate].
  destruct (castOpt castColors _) as [cs|]; [|discriminate].
  destruct (castOpt TierRating.ofString _) as [tr|]; [|discriminate].
  destruct (castOpt DeckType.ofString _) as [dt|]; [|discriminate].
  destruct (castOpt GameStage.ofString _) as [gs|]; [|discriminate].
  destruct (castOpt castStorageLocation _) as [loc|]; [|discriminate].
  destruct (castOpt castDescriptiveImage _) as [img|]; [|discriminate].
  destruct (castOpt castPlaneswalker _) as [pw|]; [|discriminate].
  intros [= <-]. repeat split.
Qed.

(** ** [createDeck] *)

(** What a successful [createDeck] did, in one statement. *)
Lemma createDeck_success (now : Z) (newId : string) (request : CreateDeckRequest.t)
    (db db' : Store) (response : DeckResponse.t) :
  createDeck now newId request db = (Return response, db') ->
  exists e doc,
    Spec.entityOf now request = Return e
    /\ buildDocument now newId e = Some doc
    /\ existsb (collides doc) db = false
    /\ db' = db ++ [doc]
    /\ response = mapDeckToResponse (R.mapDocumentToEntity doc).
Proof.
  unfold createDeck.
  destruct (R.findByName (CreateDeckRequest.name request) db) as [[deck|]|err|];
    try discriminate.
  fold (Spec.entityOf now request).
  destruct (Spec.entityOf now request) as [e|err|]; try discriminate.
  unfold R.create, save.
  destruct (buildDocument now newId e) as [doc|] eqn:B; [|discriminate].
  destruct (existsb (collides doc) db) eqn:X; [discriminate|].
  cbn [omap bind]. intros [= <- <-]. now exists e, doc.
Qed.

Lemma entityOf_fields (now : Z) (request : CreateDeckRequest.t) (e : DeckEntity.t) :
  Spec.entityOf now request = Return e ->
  e = DeckEntity.mk
        (CreateDeckRequest.name request) (CreateDeckRequest.description request)
        (CreateDeckRequest.colors request) (CreateDeckRequest.tierRating request)
        (CreateDeckRequest.hasCardSleeves request) (CreateDeckRequest.isComplete request)
        (CreateDeckRequest.deckType request) (CreateDeckRequest.gameStage request)
        (CreateDeckRequest.storageLocation request)
        (CreateDeckRequest.descriptiveImage request)
        (CreateDeckRequest.planeswalker request) "" now now.
Proof.
  unfold Spec.entityOf, DeckEntity.new, bind.
  destruct (DeckEntity.validateDeck _); [|discriminate|discriminate].
  now intros [= <-].
Qed.

Lemma find_app_last (id : string) (db : Store) (doc : DeckDocument.t) :
  existsb (collides doc) db = false -> hasId id doc = true ->
  Schema.findById id (db ++ [doc]) = Some doc.
Proof.
  intros X H. unfold Schema.findById.
  induction db as [|d db IH]; cbn [app List.find]; [now rewrite H|].
  cbn [existsb] in X. apply orb_false_elim in X as [C X].
  assert (N : hasId id d = false).
  { destruct (hasId id d) eqn:Q; [|reflexivity].
    unfold collides in C.
    rewrite (StoreFacts.hasId_eq id doc d H Q), String.eqb_refl in C. discriminate. }
  rewrite N. now apply IH.
Qed.






(** ** [updateDeck] *)

(** What a successful [updateDeck] did, in one statement. *)
Lemma updateDeck_success (id : string) (request : UpdateDeckRequest.t) (now : Z)
    (db db' : Store) (response : DeckResponse.t) :
  updateDeck id request now db = (Return (Some response), db') ->
  exists d p,
    isValidObjectId id = true
    /\ Schema.findById id db = Some d
    /\ castUpdate request = Some p
    /\ db' = replace id (applyPatch p now d) db
    /\ response = mapDeckToResponse (R.mapDocumentToEntity (applyPatch p now d)).
Proof.
  unfold updateDeck. intros U.
  destruct (R.findById id db) as [[old|]|err|] eqn:F; try discriminate.
  destruct (ServiceProperties.findById_valid _ _ _ F) as [V [d [Fd _]]].
  match type of U with
  | context [if ?c then ?a else ?b] => destruct (if c then a else b) as [[]|err|]
  end; try discriminate.
  unfold R.update, findByIdAndUpdate in U. rewrite V in U. cbn [negb] in U.
  destruct (castUpdate request) as [p|]; [|discriminate]. rewrite Fd in U.
  destruct (nameTaken (applyPatch p now d) db); [discriminate|].
  cbn [omap bind option_map] in U. injection U as <- <-. now exists d, p.
Qed.

(** What [updateDeck] can do to the store. *)
Lemma updateDeck_store (id : string) (request : UpdateDeckRequest.t) (now : Z)
    (db : Store) :
  (exists response, fst (updateDeck id request now db) = Return (Some response))
  \/ snd (updateDeck id request now db) = db.
Proof.
  unfold updateDeck.
  destruct (R.findById id db) as [[old|]|err|]; try (now right).
  match goal with
  | |- context [if ?c then ?a else ?b] => destruct (if c then a else b) as [[]|err|]
  end; try (now right).
  unfold R.update, findByIdAndUpdate.
  destruct (isValidObjectId id); cbn [negb]; [|now right].
  destruct (castUpdate request) as [p|]; [|now right].
  destruct (Schema.findById id db) as [d|]; [|now right].
  destruct (nameTaken (applyPatch p now d) db); [now right|].
  left. cbn. now eexists.
Qed.

Lemma merge_text (f : string -> option string) (o : option string) (r : option string)
    (old : string) :
  (forall s v, f s = Some v -> v = JS.trim s) ->
  castOpt f o = Some r -> orElse r old = orElse (option_map JS.trim o) old.
Proof.
  intros Hf C. apply castOpt_some in C. destruct o as [s|].
  - destruct C as [b [C ->]]. cbn. now rewrite (Hf s b C).
  - now subst r.
Qed.

Lemma merge_enum {A : Type} (value : A -> string) (values : list A)
    (o : option string) (r : option A) (old : A) :
  castOpt (fun s => List.find (fun x => String.eqb (value x) s) values) o = Some r ->
  value (orElse r old) = orElse o (value old).
Proof.
  intros C. apply castOpt_some in C. destruct o as [s|].
  - destruct C as [b [C ->]]. cbn. now apply find_value in C.
  - now subst r.
Qed.

(** X4: the deck a successful [updateDeck] returns is the stored deck
    with every supplied field replaced (texts trimmed, the name as given
    and not title-cased) and every other field, the identifier and the
    creation time kept; [updatedAt] is the time of the call. *)
Theorem updateDeck_merges :
  forall (id : string) (request : UpdateDeckRequest.t) (now : Z) (db db' : Store)
         (old : Deck.t) (response : DeckResponse.t),
    R.findById id db = Return (Some old) ->
    updateDeck id request now db = (Return (Some response), db') ->
    response
    = DeckResponse.mk (Deck.id old)
        (orElse (option_map JS.trim (UpdateDeckRequest.name request)) (Deck.name old))
        (orElse (option_map JS.trim (UpdateDeckRequest.description request))
           (Deck.description old))
        (orElse (UpdateDeckRequest.colors request)
           (map MagicColor.value (Deck.colors old)))
        (orElse (UpdateDeckRequest.tierRating request)
           (TierRating.value (Deck.tierRating old)))
        (orElse (UpdateDeckRequest.hasCardSleeves request) (Deck.hasCardSleeves old))
        (orElse (UpdateDeckRequest.isComplete request) (Deck.isComplete old))
        (orElse (UpdateDeckRequest.deckType request) (DeckType.value (Deck.deckType old)))
        (orElse (UpdateDeckRequest.gameStage request)
           (GameStage.value (Deck.gameStage old)))
        (orElse (option_map JS.trim (UpdateDeckRequest.storageLocation request))
           (Deck.storageLocation old))
        (match UpdateDeckRequest.descriptiveImage request with
         | Some u => Some (JS.trim u)
         | None => Deck.descriptiveImage old
         end)
        (match UpdateDeckRequest.planeswalker request with
         | Some w => Some (JS.trim w)
         | None => Deck.planeswalker old
         end)
        (Deck.createdAt old) now.
Proof.
  intros id request now db db' old response F U.
  destruct (updateDeck_success _ _ _ _ _ _ U) as [d [p [_ [Fd [P [_ ->]]]]]].
  destruct (ServiceProperties.findById_valid _ _ _ F) as [_ [d0 [Fd0 <-]]].
  rewrite Fd in Fd0. injection Fd0 as <-.
  destruct (castUpdate_fields _ _ P)
    as [Cn [Cd [Cc [Ct [Cdt [Cg [Cl [Ci [Cp [Hs Hc]]]]]]]]]].
  unfold mapDeckToResponse, R.mapDocumentToEntity, applyPatch. cbn.
  rewrite Hs, Hc.
  rewrite (merge_text castName _ _ _ StoreFacts.castName_trimmed Cn).
  rewrite (merge_text castDescription _ _ (DeckDocument.description d)
             (fun s v H => proj1 (cast_text 500 s v H)) Cd).
  rewrite (merge_text castStorageLocation _ _ (DeckDocument.storageLocation d)
             (fun s v H => proj1 (cast_text 100 s v H)) Cl).
  rewrite (merge_enum TierRating.value TierRating.values _ _ _ Ct).
  rewrite (merge_enum DeckType.value DeckType.values _ _ _ Cdt).
  rewrite (merge_enum GameStage.value GameStage.values _ _ _ Cg).
  f_equal.
  - apply castOpt_some in Cc. destruct (UpdateDeckRequest.colors request) as [cs|].
    + destruct Cc as [b [Cc ->]]. cbn. now apply castColors_value in Cc as [-> _].
    + now rewrite Cc.
  - apply castOpt_some in Ci.
    destruct (UpdateDeckRequest.descriptiveImage request) as [u|].
    + destruct Ci as [b [Ci ->]]. now apply castDescriptiveImage_value in Ci as [-> _].
    + now rewrite Ci.
  - apply castOpt_some in Cp.
    destruct (UpdateDeckRequest.planeswalker request) as [w|].
    + destruct Cp as [b [Cp ->]]. now apply castPlaneswalker_value in Cp as [-> _].
    + now rewrite Cp.
Qed.

Lemma updateDeck_merges_witness :
  fst (updateDeck Examples.id1 MoreExamples.retier 2000 Examples.oneDeck)
  = Return (Some (DeckResponse.mk Examples.id1 "Lightning Aggro"
                    "Fast red aggro deck with lightning bolts" ["R"] "B" true false
                    "AGGRO" "EARLY" "Red Box #1" None (Some "Chandra") 1000 2000)).
Proof.
  destruct (updateDeck Examples.id1 MoreExamples.retier 2000 Examples.oneDeck)
    as [r db'] eqn:U.
  assert (exists response, r = Return (Some response)) as [response ->].
  { vm_compute in U. injection U as <- _. now eexists. }
  cbn [fst]. do 2 f_equal.
  exact (updateDeck_merges Examples.id1 MoreExamples.retier 2000 Examples.oneDeck db'
           (R.mapDocumentToEntity Examples.lightningAggro) response eq_refl U).
Defined.

(** X5: [updateDeck] writes only when it returns a deck: in every other
    outcome (not found, conflict, a refused value, a failed lookup) the
    store is left as it was. *)
Theorem updateDeck_writes_only_on_success :
  forall (id : string) (request : UpdateDeckRequest.t) (now : Z) (db : Store),
    (exists response, fst (updateDeck id request now db) = Return (Some response))
    \/ snd (updateDeck id request now db) = db.
Proof. exact updateDeck_store. Qed.

Lemma find_replace_other (id id' : string) (new : DeckDocument.t) (db : Store) :
  JS.toLowerCase id' <> JS.toLowerCase id -> hasId id new = true ->
  Schema.findById id' (replace id new db) = Schema.findById id' db.
Proof.
  intros N H. unfold Schema.findById.
  assert (Other : forall x, hasId id x = true -> hasId id' x = false).
  { intros x Hx. unfold hasId in *. apply String.eqb_eq in Hx.
    apply String.eqb_neq. congruence. }
  induction db as [|a db IH]; cbn [replace List.find]; [reflexivity|].
  destruct (hasId id a) eqn:E; cbn [List.find].
  - now rewrite (Other new H), (Other a E).
  - now rewrite IH.
Qed.

(** X6: [updateDeck] touches no other record: a deck under another
    identifier reads the same before and after, and the number of records
    does not change. *)
Theorem updateDeck_leaves_others :
  forall (id id' : string) (request : UpdateDeckRequest.t) (now : Z) (db : Store),
    JS.toLowerCase id' <> JS.toLowerCase id ->
    getDeckById id' (snd (updateDeck id request now db)) = getDeckById id' db
    /\ List.length (snd (updateDeck id request now db)) = List.length db.
Proof.
  intros id id' request now db N.
  destruct (updateDeck id request now db) as [r db'] eqn:U.
  destruct (updateDeck_store id request now db) as [[response R]|S].
  - rewrite U in R. cbn [fst snd] in *. subst r.
    destruct (updateDeck_success _ _ _ _ _ _ U) as [d [p [_ [Fd [_ [-> _]]]]]].
    apply StoreFacts.find_In in Fd as [_ Hid].
    assert (Hnew : hasId id (applyPatch p now d) = true)
      by (now apply (StoreFacts.hasId_same id d)).
    split; [|apply StoreFacts.replace_length].
    unfold getDeckById, R.findById. destruct (isValidObjectId id'); cbn [negb];
      [|reflexivity].
    now rewrite find_replace_other.
  - rewrite U in S. cbn [snd] in *. now subst db'.
Qed.

Lemma updateDeck_leaves_others_witness :
  getDeckById Examples.id1
    (snd (updateDeck Examples.id2 (Examples.rename "Goblin Horde") 5000 Examples.twoBoxes))
  = getDeckById Examples.id1 Examples.twoBoxes.
Proof.
  apply (updateDeck_leaves_others Examples.id2 Examples.id1
           (Examples.rename "Goblin Horde") 5000 Examples.twoBoxes).
  discriminate.
Defined.

(** ** [deleteDeck] *)

Lemma find_remove_gone (id : string) (db : Store) :
  NoDup (map DeckDocument._id db) -> Schema.findById id (remove id db) = None.
Proof.
  unfold Schema.findById. induction db as [|a db IH]; cbn [remove map]; intros N;
    [reflexivity|].
  inversion N as [|? ? Hn N']; subst.
  destruct (hasId id a) eqn:E; cbn [List.find].
  - apply StoreFacts.find_none_existsb. apply not_true_is_false. intros X.
    apply existsb_exists in X as [x [Hx Q]]. apply Hn.
    rewrite <- (StoreFacts.hasId_eq id a x E Q). now apply in_map.
  - rewrite E. now apply IH.
Qed.

Lemma remove_length (id : string) (db : Store) (d : DeckDocument.t) :
  Schema.findById id db = Some d -> S (List.length (remove id db)) = List.length db.
Proof.
  unfold Schema.findById. induction db as [|a db IH]; cbn [List.find remove];
    [discriminate|].
  destruct (hasId id a); [reflexivity|]. intros F. cbn [List.length]. now rewrite IH.
Qed.

Lemma find_remove_other (id id' : string) (db : Store) :
  JS.toLowerCase id' <> JS.toLowerCase id ->
  Schema.findById id' (remove id db) = Schema.findById id' db.
Proof.
  intros N. unfold Schema.findById.
  induction db as [|a db IH]; cbn [remove List.find]; [reflexivity|].
  destruct (hasId id a) eqn:E; cbn [List.find].
  - assert (Q : hasId id' a = false).
    { unfold hasId in *. apply String.eqb_eq in E. apply String.eqb_neq. congruence. }
    now rewrite Q.
  - now rewrite IH.
Qed.

(** X7: deleting a stored deck returns [true], removes one record, and
    the deck can no longer be read under its identifier. *)
Theorem deleteDeck_removes :
  forall (id : string) (db : Store) (deck : Deck.t),
    Spec.Consistent db ->
    R.findById id db = Return (Some deck) ->
    fst (deleteDeck id db) = Return true
    /\ getDeckById id (snd (deleteDeck id db)) = Return None
    /\ S (List.length (snd (deleteDeck id db))) = List.length db.
Proof.
  intros id db deck [Ni _ _] F.
  destruct (ServiceProperties.findById_valid _ _ _ F) as [V [d [Fd _]]].
  unfold deleteDeck. rewrite F. unfold R.delete, findByIdAndDelete.
  rewrite V, Fd. cbn [negb fst snd].
  split; [reflexivity|]. split; [|now apply (remove_length id db d)].
  unfold getDeckById, R.findById. rewrite V. cbn [negb].
  now rewrite find_remove_gone.
Qed.

Lemma deleteDeck_removes_witness :
  getDeckById Examples.id1 (snd (deleteDeck Examples.id1 Examples.twoBoxes))
  = Return None
  /\ List.length (snd (deleteDeck Examples.id1 Examples.twoBoxes)) = 1.
Proof.
  destruct (deleteDeck_removes Examples.id1 Examples.twoBoxes
              (R.mapDocumentToEntity
                 (DeckDocument.mk Examples.id1 "Merfolk Tempo"
                    "Fast red aggro deck with lightning bolts" [MagicColor.RED]
                    TierRating.A true true None DeckType.AGGRO GameStage.EARLY
                    "Box-1" (Some "Chandra") 1000 1000))
              (ServiceProperties.reachable_consistent _
                 ServiceProperties.reachable_twoBoxes)
              eq_refl) as [_ [G L]].
  split; [exact G|]. apply eq_add_S. exact L.
Defined.

(** X8: [deleteDeck] touches no other record: a deck under another
    identifier reads the same before and after. *)
Theorem deleteDeck_leaves_others :
  forall (id id' : string) (db : Store),
    JS.toLowerCase id' <> JS.toLowerCase id ->
    getDeckById id' (snd (deleteDeck id db)) = getDeckById id' db.
Proof.
  intros id id' db N. unfold deleteDeck.
  destruct (R.findById id db) as [[deck|]|err|]; try reflexivity.
  unfold R.delete, findByIdAndDelete.
  destruct (isValidObjectId id); cbn [negb]; [|reflexivity].
  assert (E : snd (match Schema.findById id db with
                   | Some _ => (Return true, remove id db)
                   | None => (Return false, remove id db)
                   end) = remove id db)
    by (now destruct (Schema.findById id db)).
  rewrite E. unfold getDeckById, R.findById.
  destruct (isValidObjectId id'); cbn [negb]; [|reflexivity].
  now rewrite find_remove_other.
Qed.

Lemma deleteDeck_leaves_others_witness :
  getDeckById Examples.id2 (snd (deleteDeck Examples.id1 Examples.twoBoxes))
  = getDeckById Examples.id2 Examples.twoBoxes.
Proof.
  apply (deleteDeck_leaves_others Examples.id1 Examples.id2 Examples.twoBoxes).
  discriminate.
Defined.

End RoundTripProperties.

(* ================================================================== *)
(** * What every store the service produces satisfies *)
(* ================================================================== *)

Module InvariantProperties.

Import Schema DeckUseCases.

(** ** The [pre('save')] hook *)

Lemma titleFrom_length (b : bool) (s : string) :
  String.length (Spec.titleFrom b s) = String.length s.
Proof.
  revert b. induction s as [|c r IH]; intros b; [reflexivity|].
  cbn [Spec.titleFrom]. destruct (Ascii.eqb c " "); cbn [String.length]; now rewrite IH.
Qed.



(** ** Keys *)



(** ** Bounds *)

Lemma built_within (now : Z) (newId : string) (e : DeckEntity.t) (doc : DeckDocument.t) :
  buildDocument now newId e = Some doc -> Bounds.withinSchema doc.
Proof.
  intros B.
  destruct (RoundTripProperties.buildDocument_fields _ _ _ _ B)
    as [n [d [cs [tr [img [dt [gs [loc [pw [Cn [Cd [Cc [_ [Ci [_ [_ [Cl [Cp ->]]]]]]]]]]]]]]]]]].
  apply RoundTripProperties.cast_text in Cn as [_ [Nn Ln]].
  apply RoundTripProperties.cast_text in Cd as [_ [Nd Ld]].
  apply RoundTripProperties.cast_text in Cl as [_ [Nl Ll]].
  apply RoundTripProperties.castColors_value in Cc as [_ [C1 C5]].
  apply RoundTripProperties.castOpt_some in Ci, Cp.
  assert (Len : String.length (preSave n) = String.length n)
    by (rewrite NameFacts.preSave_titleFrom; apply titleFrom_length).
  split; cbn; try assumption; try lia.
  - intros E. rewrite E in Len. destruct n; [now apply Nn | discriminate].
  - intros p Hp. subst pw.
    destruct (DeckEntity.planeswalker e) as [w|]; [|discriminate].
    destruct Cp as [b [Cp [= <-]]].
    now apply RoundTripProperties.castPlaneswalker_value in Cp as [_ ?].
  - intros u Hu. subst img.
    destruct (DeckEntity.descriptiveImage e) as [w|]; [|discriminate].
    destruct Ci as [b [Ci [= <-]]].
    now apply RoundTripProperties.castDescriptiveImage_value in Ci as [_ ?].
Qed.

Lemma patched_within (u : UpdateDeckRequest.t) (p : Patch.t) (now : Z)
    (d : DeckDocument.t) :
  castUpdate u = Some p -> Bounds.withinSchema d ->
  Bounds.withinSchema (applyPatch p now d).
Proof.
  intros P [Nn Ln Nd Ld C1 C5 Nl Ll Hp Hi].
  destruct (RoundTripProperties.castUpdate_fields _ _ P)
    as [Cn [Cd [Cc [_ [_ [_ [Cl [Ci [Cp _]]]]]]]]].
  apply RoundTripProperties.castOpt_some in Cn, Cd, Cc, Cl, Ci, Cp.
  split; cbn [applyPatch DeckDocument.name DeckDocument.description
              DeckDocument.colors DeckDocument.storageLocation
              DeckDocument.planeswalker DeckDocument.descriptiveImage].
  - destruct (UpdateDeckRequest.name u); [destruct Cn as [b [Cn ->]] | now rewrite Cn].
    cbn. now apply RoundTripProperties.cast_text in Cn.
  - destruct (UpdateDeckRequest.name u); [destruct Cn as [b [Cn ->]] | now rewrite Cn].
    cbn. now apply RoundTripProperties.cast_text in Cn.
  - destruct (UpdateDeckRequest.description u);
      [destruct Cd as [b [Cd ->]] | now rewrite Cd].
    cbn. now apply RoundTripProperties.cast_text in Cd.
  - destruct (UpdateDeckRequest.description u);
      [destruct Cd as [b [Cd ->]] | now rewrite Cd].
    cbn. now apply RoundTripProperties.cast_text in Cd.
  - destruct (UpdateDeckRequest.colors u); [destruct Cc as [b [Cc ->]] | now rewrite Cc].
    cbn. now apply RoundTripProperties.castColors_value in Cc.
  - destruct (UpdateDeckRequest.colors u); [destruct Cc as [b [Cc ->]] | now rewrite Cc].
    cbn. now apply RoundTripProperties.castColors_value in Cc.
  - destruct (UpdateDeckRequest.storageLocation u);
      [destruct Cl as [b [Cl ->]] | now rewrite Cl].
    cbn. now apply RoundTripProperties.cast_text in Cl.
  - destruct (UpdateDeckRequest.storageLocation u);
      [destruct Cl as [b [Cl ->]] | now rewrite Cl].
    cbn. now apply RoundTripProperties.cast_text in Cl.
  - intros w Hw. destruct (UpdateDeckRequest.planeswalker u).
    + destruct Cp as [b [Cp E]]. rewrite E in Hw. injection Hw as <-.
      now apply RoundTripProperties.castPlaneswalker_value in Cp.
    + rewrite Cp in Hw. now apply Hp.
  - intros w Hw. destruct (UpdateDeckRequest.descriptiveImage u).
    + destruct Ci as [b [Ci E]]. rewrite E in Hw. injection Hw as <-.
      now apply RoundTripProperties.castDescriptiveImage_value in Ci.
    + rewrite Ci in Hw. now apply Hi.
Qed.

Lemma createDeck_store (now : Z) (newId : string) (request : CreateDeckRequest.t)
    (db : Store) :
  snd (createDeck now newId request db) = db
  \/ exists e doc, buildDocument now newId e = Some doc
                   /\ snd (createDeck now newId request db) = db ++ [doc].
Proof.
  destruct (createDeck now newId request db) as [[response|err|] db'] eqn:C.
  - right.
    destruct (RoundTripProperties.createDeck_success _ _ _ _ _ _ C)
      as [e [doc [_ [B [_ [-> _]]]]]]. now exists e, doc.
  - left. unfold createDeck in C.
    destruct (R.findByName (CreateDeckRequest.name request) db) as [[deck|]|e|];
      try (now injection C).
    destruct (DeckEntity.new _ _ _ _ _ _ _ _ _ _ _ _) as [entity|e|];
      try (now injection C).
    unfold R.create, save in C.
    destruct (buildDocument now newId entity) as [doc|]; [|now injection C].
    destruct (existsb (collides doc) db); [now injection C | discriminate].
  - left. unfold createDeck in C.
    destruct (R.findByName (CreateDeckRequest.name request) db) as [[deck|]|e|];
      try (now injection C).
    destruct (DeckEntity.new _ _ _ _ _ _ _ _ _ _ _ _) as [entity|e|];
      try (now injection C).
    unfold R.create, save in C.
    destruct (buildDocument now newId entity) as [doc|]; [|now injection C].
    destruct (existsb (collides doc) db); [now injection C | discriminate].
Qed.

Lemma deleteDeck_store (id : string) (db : Store) :
  snd (deleteDeck id db) = db \/ snd (deleteDeck id db) = remove id db.
Proof.
  unfold deleteDeck.
  destruct (R.findById id db) as [[deck|]|err|]; try (now left).
  unfold R.delete, findByIdAndDelete.
  destruct (isValidObjectId id); cbn [negb]; [|now left].
  right. now destruct (Schema.findById id db).
Qed.



End InvariantProperties.

(* ================================================================== *)
(** * When a write is refused as a Conflict *)
(* ================================================================== *)

Module UniquenessProperties.

Import Schema DeckUseCases.

Lemma entityOf_throws (now : Z) (request : CreateDeckRequest.t) (e : Error) :
  Spec.entityOf now request = Throw e -> exists m, e = Invalid m.
Proof.
  unfold Spec.entityOf, DeckEntity.new, DeckEntity.validateDeck, bind.
  repeat match goal with
         | |- context [if ?c then _ else _] => destruct c
         end; intros [= <-]; now eexists.
Qed.

(** X13: for a trimmed name without regular-expression characters and a
    fresh identifier, [createDeck] fails with a Conflict exactly when some
    record holds the name in some case variant, and then the store is
    left as it was. *)
Theorem createDeck_conflict_iff :
  forall (now : Z) (newId : string) (request : CreateDeckRequest.t) (db : Store),
    Spec.literal (CreateDeckRequest.name request) = true ->
    Spec.trimmed (CreateDeckRequest.name request) ->
    existsb (fun d => String.eqb (DeckDocument._id d) newId) db = false ->
    (isConflict (fst (createDeck now newId request db)) = true
     <-> Spec.nameExists (CreateDeckRequest.name request) db = true)
    /\ (Spec.nameExists (CreateDeckRequest.name request) db = true ->
        snd (createDeck now newId request db) = db).
Proof.
  intros now newId request db L T Fresh.
  split; [split|].
  - intros C.
    destruct (Spec.nameExists (CreateDeckRequest.name request) db) eqn:E;
      [reflexivity|]. exfalso.
    destruct (Spec.entityOf now request) as [e|err|] eqn:He.
    + destruct (buildDocument now newId e) as [doc|] eqn:B.
      * destruct (ServiceProperties.createDeck_unique_literal
                    now newId request db e doc L T E Fresh He B) as [R _].
        rewrite R in C. discriminate.
      * unfold createDeck in C.
        rewrite (ServiceProperties.findByName_missing_literal _ _ L E) in C.
        fold (Spec.entityOf now request) in C. rewrite He in C.
        unfold R.create, save in C. rewrite B in C. discriminate.
    + unfold createDeck in C.
      rewrite (ServiceProperties.findByName_missing_literal _ _ L E) in C.
      fold (Spec.entityOf now request) in C. rewrite He in C.
      destruct (entityOf_throws _ _ _ He) as [m ->]. discriminate.
    + unfold createDeck in C.
      rewrite (ServiceProperties.findByName_missing_literal _ _ L E) in C.
      fold (Spec.entityOf now request) in C. rewrite He in C. discriminate.
  - intros E. now rewrite (ServiceProperties.createDeck_conflict_literal _ _ _ _ L E).
  - intros E. now rewrite (ServiceProperties.createDeck_conflict_literal _ _ _ _ L E).
Qed.

Lemma createDeck_conflict_iff_witness :
  isConflict (fst (createDeck 2000 Examples.id2 (Examples.deck "LIGHTNING aggro")
                     Examples.oneDeck)) = true
  /\ snd (createDeck 2000 Examples.id2 (Examples.deck "LIGHTNING aggro") Examples.oneDeck)
     = Examples.oneDeck.
Proof.
  destruct (createDeck_conflict_iff 2000 Examples.id2 (Examples.deck "LIGHTNING aggro")
              Examples.oneDeck eq_refl eq_refl eq_refl) as [[_ C] K].
  split; [apply C | apply K]; reflexivity.
Defined.

(** X14: for an update that changes the name of a stored deck to a
    trimmed name without regular-expression characters, [updateDeck] fails
    with a Conflict exactly when some record (the target included) holds
    the new name in some case variant, and then the store is left as it
    was. *)
Theorem updateDeck_conflict_iff :
  forall (id : string) (request : UpdateDeckRequest.t) (now : Z) (db : Store)
         (existingDeck : Deck.t) (name : string),
    R.findById id db = Return (Some existingDeck) ->
    UpdateDeckRequest.name request = Some name ->
    name <> EmptyString -> name <> Deck.name existingDeck ->
    Spec.literal name = true -> Spec.trimmed name ->
    (isConflict (fst (updateDeck id request now db)) = true
     <-> Spec.nameExists name db = true)
    /\ (Spec.nameExists name db = true -> snd (updateDeck id request now db) = db).
Proof.
  intros id request now db existingDeck name F N Ne D L T.
  assert (Tr : JS.truthy name = true) by (now destruct name).
  split; [split|].
  - intros C.
    destruct (Spec.nameExists name db) eqn:E; [reflexivity|]. exfalso.
    destruct (ServiceProperties.findById_valid _ _ _ F) as [V [d [Fd Md]]].
    unfold updateDeck, nameChanges in C. rewrite F, N, Tr in C.
    apply String.eqb_neq in D. rewrite D in C. cbn [negb andb orElse] in C.
    rewrite (ServiceProperties.findByName_missing_literal _ _ L E) in C.
    cbn [bind] in C. unfold R.update, findByIdAndUpdate in C.
    rewrite V in C. cbn [negb] in C.
    destruct (castUpdate request) as [p|] eqn:P; [|discriminate].
    rewrite Fd in C.
    destruct (nameTaken (applyPatch p now d) db) eqn:Taken; [|discriminate].
    apply existsb_exists in Taken as [x [Hx Q]].
    apply andb_prop in Q as [_ Q]. apply String.eqb_eq in Q.
    cbn [applyPatch DeckDocument.name] in Q.
    rewrite (StoreFacts.castUpdate_name _ _ P), N in Q. cbn [option_map orElse] in Q.
    rewrite T in Q.
    assert (X : Spec.nameExists name db = true).
    { apply existsb_exists. exists x. split; [assumption|].
      unfold Spec.sameIgnoringCase. rewrite Q. apply String.eqb_refl. }
    congruence.
  - intros E.
    now rewrite (ServiceProperties.updateDeck_conflict_literal
                   id request now db existingDeck name F N Tr D L E).
  - intros E.
    now rewrite (ServiceProperties.updateDeck_conflict_literal
                   id request now db existingDeck name F N Tr D L E).
Qed.

Lemma updateDeck_conflict_iff_witness :
  isConflict (fst (updateDeck Examples.id2 (Examples.rename "merfolk TEMPO") 5000
                     Examples.twoBoxes)) = true
  /\ isConflict (fst (updateDeck Examples.id2 (Examples.rename "Goblin Horde") 5000
                        Examples.twoBoxes)) = false.
Proof.
  split.
  - apply (updateDeck_conflict_iff Examples.id2 (Examples.rename "merfolk TEMPO") 5000
             Examples.twoBoxes
             (R.mapDocumentToEntity
                (DeckDocument.mk Examples.id2 "Goblin Rush"
                   "Fast red aggro deck with lightning bolts" [MagicColor.RED]
                   TierRating.A true true None DeckType.AGGRO GameStage.EARLY
                   "Red Box #1" (Some "Chandra") 2000 2000))
             "merfolk TEMPO" eq_refl eq_refl ltac:(discriminate) ltac:(discriminate)
             eq_refl eq_refl); reflexivity.
  - apply not_true_is_false. intros C.
    apply (updateDeck_conflict_iff Examples.id2 (Examples.rename "Goblin Horde") 5000
             Examples.twoBoxes
             (R.mapDocumentToEntity
                (DeckDocument.mk Examples.id2 "Goblin Rush"
                   "Fast red aggro deck with lightning bolts" [MagicColor.RED]
                   TierRating.A true true None DeckType.AGGRO GameStage.EARLY
                   "Red Box #1" (Some "Chandra") 2000 2000))
             "Goblin Horde" eq_refl eq_refl ltac:(discriminate) ltac:(discriminate)
             eq_refl eq_refl) in C.
    discriminate.
Defined.

(** X15: an update that supplies no name, or an empty one, does not fail
    with a Conflict on a store that satisfies the unique indexes. *)
Theorem updateDeck_without_name_no_conflict :
  forall (id : string) (request : UpdateDeckRequest.t) (now : Z) (db : Store),
    Spec.Consistent db ->
    UpdateDeckRequest.name request = None
    \/ UpdateDeckRequest.name request = Some EmptyString ->
    isConflict (fst (updateDeck id request now db)) = false.
Proof.
  intros id request now db [Ni Nn Nt] N.
  unfold updateDeck.
  destruct (R.findById id db) as [[old|]|err|] eqn:F; try reflexivity.
  - assert (NC : nameChanges request old = false)
      by (unfold nameChanges; destruct N as [-> | ->]; reflexivity).
    rewrite NC.
    destruct (ServiceProperties.findById_valid _ _ _ F) as [V [d [Fd _]]].
    unfold R.update, findByIdAndUpdate. rewrite V. cbn [negb].
    destruct (castUpdate request) as [p|] eqn:P; [|reflexivity].
    rewrite Fd.
    assert (Taken : nameTaken (applyPatch p now d) db = false).
    { apply not_true_is_false. intros Taken.
      apply existsb_exists in Taken as [x [Hx Q]].
      apply andb_prop in Q as [Q1 Q2]. apply String.eqb_eq in Q2.
      cbn [applyPatch DeckDocument.name DeckDocument._id] in Q1, Q2.
      rewrite (StoreFacts.castUpdate_name _ _ P) in Q2.
      destruct N as [N | N]; rewrite N in *; cbn [option_map orElse] in Q2.
      - apply StoreFacts.find_In in Fd as [Hd _].
        assert (x = d) by (now apply (StoreFacts.NoDup_map_inj DeckDocument.name db)).
        subst x. now rewrite String.eqb_refl in Q1.
      - destruct (RoundTripProperties.castUpdate_fields _ _ P) as [Cn _].
        rewrite N in Cn. discriminate. }
    rewrite Taken. reflexivity.
  - unfold R.findById in F. destruct (isValidObjectId id); discriminate.
Qed.

Lemma updateDeck_without_name_no_conflict_witness :
  isConflict (fst (updateDeck Examples.id1 (Examples.describe "Burn") 2000
                     Examples.oneDeck)) = false.
Proof.
  apply (updateDeck_without_name_no_conflict Examples.id1 (Examples.describe "Burn") 2000
           Examples.oneDeck
           (ServiceProperties.reachable_consistent _ ServiceProperties.reachable_oneDeck)).
  left. reflexivity.
Defined.



End UniquenessProperties.

(* ================================================================== *)
(** * Listing: pages, order and the other queries *)
(* ================================================================== *)

Module QueryProperties.

Import Schema.
Module R := MongoDeckRepository.

(** What a listing that returns has computed. *)
Lemma findAll_returns (filters : option DeckFilters.t)
    (pagination : option PaginationOptions.t) (db : Store)
    (result : PaginatedResult.t Deck.t) :
  R.findAll filters pagination db = Return result ->
  exists query,
    R.buildFilterQuery "find decks" filters = Return query
    /\ (0 <= (R.pageOf pagination - 1) * R.limitOf pagination)%Z
    /\ result
       = PaginatedResult.mk
           (map R.mapDocumentToEntity
              (Schema.limit (R.limitOf pagination)
                 (skipn (Z.to_nat ((R.pageOf pagination - 1) * R.limitOf pagination))
                    (sort (R.sortFieldOf pagination) (R.sortOrderOf pagination)
                       (Schema.find query db)))))
           (countDocuments query db) (R.pageOf pagination) (R.limitOf pagination)
           (R.ceilDiv (countDocuments query db) (R.limitOf pagination)).
Proof.
  unfold R.findAll.
  destruct (R.buildFilterQuery "find decks" filters) as [query|err|]; try discriminate.
  cbn [bind]. unfold Schema.skip.
  destruct (Z.ltb_spec ((R.pageOf pagination - 1) * R.limitOf pagination) 0);
    [discriminate|].
  intros [= <-]. now exists query.
Qed.

(** A listing with a positive limit and a page of at least 1 returns. *)
Lemma findAll_window (filters : option DeckFilters.t)
    (pagination : option PaginationOptions.t) (db : Store) (query : Query.t) :
  R.buildFilterQuery "find decks" filters = Return query ->
  (0 < R.limitOf pagination)%Z -> (1 <= R.pageOf pagination)%Z ->
  R.findAll filters pagination db
  = Return (PaginatedResult.mk
              (map R.mapDocumentToEntity
                 (firstn (Z.to_nat (R.limitOf pagination))
                    (skipn (Z.to_nat ((R.pageOf pagination - 1) * R.limitOf pagination))
                       (sort (R.sortFieldOf pagination) (R.sortOrderOf pagination)
                          (Schema.find query db)))))
              (countDocuments query db) (R.pageOf pagination) (R.limitOf pagination)
              (R.ceilDiv (countDocuments query db) (R.limitOf pagination))).
Proof.
  intros B L P. unfold R.findAll. rewrite B. cbn [bind].
  unfold Schema.skip, Schema.limit.
  assert (S0 : ((R.pageOf pagination - 1) * R.limitOf pagination <? 0)%Z = false)
    by (apply Z.ltb_ge; nia).
  assert (L0 : (R.limitOf pagination =? 0)%Z = false) by (apply Z.eqb_neq; lia).
  rewrite S0, L0.
  assert (Abs : Z.abs_nat (R.limitOf pagination) = Z.to_nat (R.limitOf pagination))
    by lia.
  now rewrite Abs.
Qed.

(** ** Pages *)

Lemma firstn_add {A : Type} (a b : nat) (l : list A) :
  firstn (a + b) l = firstn a l ++ firstn b (skipn a l).
Proof.
  revert l. induction a as [|a IH]; intros l; [reflexivity|].
  destruct l as [|x r]; cbn [Nat.add firstn skipn app].
  - now rewrite firstn_nil.
  - now rewrite IH.
Qed.

Lemma windows_concat {A : Type} (size n : nat) (l : list A) :
  flat_map (fun p => firstn size (skipn ((p - 1) * size) l)) (seq 1 n)
  = firstn (n * size) l.
Proof.
  induction n as [|n IH]; [reflexivity|].
  rewrite seq_S, flat_map_app, IH. cbn [flat_map Nat.add].
  rewrite app_nil_r.
  replace (S n - 1) with n by lia.
  replace (S n * size) with (n * size + size) by lia.
  now rewrite firstn_add.
Qed.

Lemma flat_map_mapped {A B C : Type} (f : B -> C) (g : A -> list B) (l : list A) :
  flat_map (fun x => map f (g x)) l = map f (flat_map g l).
Proof.
  induction l as [|x r IH]; cbn [flat_map]; [reflexivity|].
  now rewrite map_app, IH.
Qed.

Lemma flat_map_agree {A B : Type} (f g : A -> list B) (l : list A) :
  (forall x, In x l -> f x = g x) -> flat_map f l = flat_map g l.
Proof.
  induction l as [|x r IH]; intros H; cbn [flat_map]; [reflexivity|].
  rewrite (H x (or_introl eq_refl)), IH; [reflexivity|].
  intros y Hy. apply H. now right.
Qed.



(** X18: a page never holds more records than the limit; a page before
    the last one holds exactly the limit; and no page up to [totalPages]
    is empty. *)
Theorem page_sizes :
  forall (filters : option DeckFilters.t) (pagination : option PaginationOptions.t)
         (db : Store) (query : Query.t),
    R.buildFilterQuery "find decks" filters = Return query ->
    (0 < R.limitOf pagination)%Z ->
    (1 <= R.pageOf pagination)%Z ->
    exists result,
      R.findAll filters pagination db = Return result
      /\ (Z.of_nat (List.length (PaginatedResult.data result))
          <= PaginatedResult.limit result)%Z
      /\ ((PaginatedResult.page result < PaginatedResult.totalPages result)%Z ->
          Z.of_nat (List.length (PaginatedResult.data result))
          = PaginatedResult.limit result)
      /\ ((PaginatedResult.page result <= PaginatedResult.totalPages result)%Z ->
          PaginatedResult.data result <> []).
Proof.
  intros filters pagination db query B L P.
  rewrite (findAll_window filters pagination db query B L P).
  eexists. split; [reflexivity|].
  cbn [PaginatedResult.data PaginatedResult.limit PaginatedResult.page
       PaginatedResult.totalPages].
  assert (C := PagingFacts.ceilDiv_spec (countDocuments query db)
                 (R.limitOf pagination) L).
  assert (Len : List.length
                  (map R.mapDocumentToEntity
                     (firstn (Z.to_nat (R.limitOf pagination))
                        (skipn (Z.to_nat ((R.pageOf pagination - 1) * R.limitOf pagination))
                           (sort (R.sortFieldOf pagination) (R.sortOrderOf pagination)
                              (Schema.find query db)))))
                = Nat.min (Z.to_nat (R.limitOf pagination))
                    (Z.to_nat (countDocuments query db)
                     - Z.to_nat ((R.pageOf pagination - 1) * R.limitOf pagination))).
  { rewrite length_map, length_firstn, length_skipn.
    unfold sort. rewrite PagingFacts.sortWith_length.
    unfold countDocuments. now rewrite Nat2Z.id. }
  assert (T0 : (0 <= countDocuments query db)%Z) by (unfold countDocuments; lia).
  split; [rewrite Len; lia|]. split.
  - intros Before. rewrite Len. nia.
  - intros Within E. apply (f_equal (@List.length _)) in E. rewrite Len in E.
    cbn [List.length] in E. nia.
Qed.

Lemma page_sizes_witness :
  exists result,
    R.findAll None (Some (PaginationOptions.mk (Some 2%Z) (Some 2%Z) None None))
      MoreExamples.threeDecks = Return result
    /\ List.length (PaginatedResult.data result) = 1
    /\ PaginatedResult.totalPages result = 2%Z.
Proof.
  destruct (page_sizes None (Some (PaginationOptions.mk (Some 2%Z) (Some 2%Z) None None))
              MoreExamples.threeDecks (Query.mk None None None None None None)
              eq_refl eq_refl ltac:(discriminate)) as [result [F _]].
  exists result. split; [exact F|].
  vm_compute in F. injection F as <-. split; reflexivity.
Defined.

(** ** Order *)

Section Order.

Context {A : Type}.
Variable le : A -> A -> bool.
Hypothesis le_total : forall x y, le x y = false -> le y x = true.

Lemma insert_inOrder (x : A) (l : list A) :
  Bounds.inOrder le l -> Bounds.inOrder le (insert le x l).
Proof.
  induction l as [|y r IH]; intros S; [now split|].
  cbn [insert]. destruct (le x y) eqn:E.
  - now split.
  - destruct S as [Hd Tl]. specialize (IH Tl).
    split; [|exact IH].
    destruct r as [|z r']; cbn [insert]; [now apply le_total|].
    destruct (le x z); [now apply le_total | exact Hd].
Qed.

Lemma sortWith_inOrder (l : list A) : Bounds.inOrder le (sortWith le l).
Proof.
  unfold sortWith. induction l as [|x r IH]; [exact I|].
  cbn [fold_right]. now apply insert_inOrder.
Qed.

End Order.

Lemma inOrder_skipn {A : Type} (le : A -> A -> bool) (n : nat) (l : list A) :
  Bounds.inOrder le l -> Bounds.inOrder le (skipn n l).
Proof.
  revert l. induction n as [|n IH]; intros l S; [exact S|].
  destruct l as [|x r]; [exact S|]. cbn [skipn]. apply IH. exact (proj2 S).
Qed.

Lemma inOrder_firstn {A : Type} (le : A -> A -> bool) (n : nat) (l : list A) :
  Bounds.inOrder le l -> Bounds.inOrder le (firstn n l).
Proof.
  revert l. induction n as [|n IH]; intros l S; [exact I|].
  destruct l as [|x r]; [exact S|]. cbn [firstn].
  destruct S as [Hd Tl]. split; [|now apply IH].
  destruct r as [|y r']; [now destruct n|]. destruct n; [exact I | exact Hd].
Qed.

Lemma ordered_total (f : SortField.t) (order : Z) (a b : DeckDocument.t) :
  ordered f order a b = false -> ordered f order b a = true.
Proof.
  assert (S : forall s t, String.leb s t = false -> String.leb t s = true).
  { intros s t H. destruct (String.leb_total s t); congruence. }
  assert (Zt : forall x y, Z.leb x y = false -> Z.leb y x = true).
  { intros x y H. apply Z.leb_gt in H. apply Z.leb_le. lia. }
  unfold ordered, docLe. destruct (Z.eqb order 1), f; auto.
Qed.

(** X19: the decks of a page follow each other in the requested order:
    by the requested field ([createdAt] when none is given), ascending for
    [sortOrder = 'asc'] and descending otherwise. *)
Theorem page_in_requested_order :
  forall (filters : option DeckFilters.t) (pagination : option PaginationOptions.t)
         (db : Store) (result : PaginatedResult.t Deck.t),
    R.findAll filters pagination db = Return result ->
    exists documents,
      PaginatedResult.data result = map R.mapDocumentToEntity documents
      /\ Bounds.inOrder (ordered (R.sortFieldOf pagination) (R.sortOrderOf pagination))
           documents.
Proof.
  intros filters pagination db result F.
  destruct (findAll_returns _ _ _ _ F) as [query [_ [_ ->]]].
  eexists. split; [reflexivity|].
  unfold Schema.limit.
  assert (S : Bounds.inOrder
                (ordered (R.sortFieldOf pagination) (R.sortOrderOf pagination))
                (skipn (Z.to_nat ((R.pageOf pagination - 1) * R.limitOf pagination))
                   (sort (R.sortFieldOf pagination) (R.sortOrderOf pagination)
                      (Schema.find query db)))).
  { apply inOrder_skipn. unfold sort. apply sortWith_inOrder.
    apply ordered_total. }
  destruct (Z.eqb (R.limitOf pagination) 0); [exact S | now apply inOrder_firstn].
Qed.

Lemma page_in_requested_order_witness :
  exists result,
    R.findAll None
      (Some (PaginationOptions.mk None None (Some SortField.name) (Some "asc")))
      MoreExamples.threeDecks = Return result
    /\ map Deck.name (PaginatedResult.data result)
       = ["Azorius Control"; "Goblin Rush"; "Merfolk Tempo"]
    /\ exists documents,
         PaginatedResult.data result = map R.mapDocumentToEntity documents
         /\ Bounds.inOrder (ordered SortField.name 1) documents.
Proof.
  destruct (R.findAll None
              (Some (PaginationOptions.mk None None (Some SortField.name) (Some "asc")))
              MoreExamples.threeDecks) as [result|err|] eqn:F;
    try (vm_compute in F; discriminate).
  exists result. split; [reflexivity|]. split.
  - vm_compute in F. injection F as <-. reflexivity.
  - exact (page_in_requested_order _ _ _ _ F).
Defined.

(** ** The other queries *)

Lemma buildFilterQuery_op (op op' : string) (filters : option DeckFilters.t)
    (query : Query.t) :
  R.buildFilterQuery op filters = Return query ->
  R.buildFilterQuery op' filters = Return query.
Proof.
  unfold R.buildFilterQuery, R.newRegExp.
  destruct filters as [f|]; [|trivial].
  destruct (DeckFilters.storageLocation f) as [loc|]; [|trivial].
  destruct (JS.truthy loc); [|trivial].
  destruct (JS.parse loc); cbn [bind]; trivial; discriminate.
Qed.

(** X20: the number [countByFilters] returns for a filter set is the
    [total] that every listing with these filters reports, whatever its
    page, limit and order. *)
Theorem count_agrees_with_listing :
  forall (filters : DeckFilters.t) (pagination : option PaginationOptions.t)
         (db : Store) (result : PaginatedResult.t Deck.t),
    R.findAll (Some filters) pagination db = Return result ->
    R.countByFilters filters db = Return (PaginatedResult.total result).
Proof.
  intros filters pagination db result F.
  destruct (findAll_returns _ _ _ _ F) as [query [B [_ ->]]].
  unfold R.countByFilters.
  now rewrite (buildFilterQuery_op "find decks" "count decks" _ _ B).
Qed.

Lemma count_agrees_with_listing_witness :
  R.countByFilters (Examples.storedAt "box") MoreExamples.threeDecks = Return 2%Z.
Proof.
  destruct (R.findAll (Some (Examples.storedAt "box"))
              (Some (PaginationOptions.mk (Some 2%Z) (Some 1%Z) None None))
              MoreExamples.threeDecks) as [result|err|] eqn:F;
    try (vm_compute in F; discriminate).
  rewrite (count_agrees_with_listing _ _ _ _ F).
  vm_compute in F. injection F as <-. reflexivity.
Defined.



Lemma In_limit (n : Z) (l : list DeckDocument.t) (x : DeckDocument.t) :
  In x (Schema.limit n l) -> In x l.
Proof.
  unfold Schema.limit. destruct (Z.eqb n 0); [trivial|].
  apply ListingProperties.In_firstn.
Qed.

Lemma buildFilterQuery_isComplete (op : string) (f : DeckFilters.t) (query : Query.t) :
  R.buildFilterQuery op (Some f) = Return query ->
  Query.isComplete query = DeckFilters.isComplete f.
Proof.
  unfold R.buildFilterQuery.
  destruct (match DeckFilters.storageLocation f with
            | Some loc => if JS.truthy loc
                          then bind (R.newRegExp op loc) (fun re => Return (Some re))
                          else Return None
            | None => Return None
            end); cbn [bind]; try discriminate.
  now intros [= <-].
Qed.

(** X22: in [GET /decks], an [isComplete] parameter with any non-empty
    value other than exactly ["true"] (["false"], but also ["TRUE"],
    ["1"], ["yes"]) lists incomplete decks only. *)
Theorem isComplete_other_than_true :
  forall (query : ListQuery.t) (db : Store) (value : string)
         (result : PaginatedResult.t DeckResponse.t),
    ListQuery.isComplete query = Some value ->
    value <> EmptyString -> value <> "true" ->
    DeckController.getAllDecks query db = Return result ->
    forall deck, In deck (PaginatedResult.data result) ->
                 DeckResponse.isComplete deck = false.
Proof.
  intros query db value result Q Ne Nt G deck Hin.
  unfold DeckController.getAllDecks, DeckUseCases.getAllDecks, DeckUseCases.omap in G.
  destruct (DeckUseCases.R.findAll (Some (DeckController.filtersOf query))
              (Some (DeckController.paginationOf query)) db) as [r|err|] eqn:F;
    try discriminate.
  cbn [bind] in G. injection G as <-.
  destruct (findAll_returns _ _ _ _ F) as [q [B [_ ->]]].
  cbn [PaginatedResult.data] in Hin. rewrite map_map in Hin.
  apply in_map_iff in Hin as [d [<- Hd]].
  apply In_limit, ListingProperties.In_skipn in Hd.
  apply (Permutation_in _ (PagingFacts.sortWith_perm _ _)) in Hd.
  apply filter_In in Hd as [_ M].
  apply buildFilterQuery_isComplete in B.
  assert (C : Query.isComplete q = Some false).
  { rewrite B. unfold DeckController.filtersOf, DeckController.boolParam.
    cbn [DeckFilters.isComplete]. rewrite Q.
    destruct value as [|c r]; [now elim Ne|]. cbn [JS.truthy].
    apply String.eqb_neq in Nt. now rewrite Nt. }
  unfold matches in M. rewrite C in M. cbn [holds] in M.
  repeat (apply andb_prop in M as [M ?]).
  cbn. destruct (DeckDocument.isComplete d); [discriminate | reflexivity].
Qed.

Lemma isComplete_other_than_true_witness :
  exists result,
    DeckController.getAllDecks
      (ListQuery.mk None None None None None None None (Some "TRUE") None None)
      MoreExamples.threeDecks = Return result
    /\ map DeckResponse.name (PaginatedResult.data result) = ["Azorius Control"]
    /\ forall deck, In deck (PaginatedResult.data result) ->
                    DeckResponse.isComplete deck = false.
Proof.
  destruct (DeckController.getAllDecks
              (ListQuery.mk None None None None None None None (Some "TRUE") None None)
              MoreExamples.threeDecks) as [result|err|] eqn:G;
    try (vm_compute in G; discriminate).
  exists result. split; [reflexivity|]. split.
  - vm_compute in G. injection G as <-. reflexivity.
  - exact (isComplete_other_than_true
             (ListQuery.mk None None None None None None None (Some "TRUE") None None)
             MoreExamples.threeDecks "TRUE" result eq_refl
             ltac:(discriminate) ltac:(discriminate) G).
Defined.

(** X23: with a storage location free of regular-expression characters
    (or none), a limit of at least 1 and a page of at least 1, a listing
    counts the stored decks that satisfy every supplied filter (the
    location by containment up to case, the others exactly), returns
    only such decks, and returns all of them when they fit on page 1. *)
Theorem listing_honours_literal_filters :
  forall (f : DeckFilters.t) (pagination : option PaginationOptions.t) (db : Store),
    Spec.literalFilters f = true ->
    (0 < R.limitOf pagination)%Z -> (1 <= R.pageOf pagination)%Z ->
    exists result,
      R.findAll (Some f) pagination db = Return result
      /\ PaginatedResult.total result
         = Z.of_nat (List.length (filter (Spec.satisfies f) db))
      /\ (forall deck, In deck (PaginatedResult.data result) ->
            exists d, In d db /\ Spec.satisfies f d = true
                      /\ R.mapDocumentToEntity d = deck)
      /\ ((PaginatedResult.total result <= R.limitOf pagination)%Z ->
          R.pageOf pagination = 1%Z ->
          Permutation (PaginatedResult.data result)
            (map R.mapDocumentToEntity (filter (Spec.satisfies f) db))).
Proof. exact ListingProperties.findAll_literal_filters. Qed.

Lemma listing_honours_literal_filters_witness :
  exists result,
    R.findAll (Some (DeckFilters.mk (Some DeckType.AGGRO) None (Some TierRating.A)
                       None None (Some "red box")))
      None MoreExamples.threeDecks = Return result
    /\ PaginatedResult.total result = 1%Z.
Proof.
  destruct (listing_honours_literal_filters
              (DeckFilters.mk (Some DeckType.AGGRO) None (Some TierRating.A)
                 None None (Some "red box"))
              None MoreExamples.threeDecks eq_refl eq_refl ltac:(discriminate))
    as [result [F [T _]]].
  exists result. split; [exact F | exact T].
Defined.

End QueryProperties.

(* ================================================================== *)
(** * The handlers of the controller *)
(* ================================================================== *)

Module ControllerProperties.

Import Schema.
Module H := DeckControllerHandlers.
Module U := DeckUseCases.

(** ** Text searched for in error messages *)

Lemma includes_app_r (sub a b : string) :
  JS.includes sub b = true -> JS.includes sub (a ++ b)%string = true.
Proof.
  intros I. induction a as [|c a IH]; [exact I|].
  cbn [append JS.includes]. rewrite IH. apply orb_true_r.
Qed.

Lemma includes_char (c a : ascii) (sub : string) :
  JS.includes (String c EmptyString) (String a sub) = false ->
  Ascii.eqb a c = false /\ JS.includes (String c EmptyString) sub = false.
Proof.
  cbn [JS.includes JS.startsWith]. rewrite andb_true_r.
  intros E. apply orb_false_elim in E as [E1 E2]. split; [|exact E2].
  now rewrite Ascii.eqb_sym.
Qed.

Lemma startsWith_before (c : ascii) (rest sub : string) :
  JS.includes (String c EmptyString) sub = false -> sub <> EmptyString ->
  forall s, JS.startsWith sub (s ++ String c rest)%string = JS.startsWith sub s.
Proof.
  induction sub as [|a sub IH]; intros I Ne s; [now elim Ne|].
  apply includes_char in I as [Eq I].
  destruct s as [|b s]; cbn [append JS.startsWith]; [now rewrite Eq|].
  destruct sub as [|a' sub]; [reflexivity|].
  now rewrite (IH I ltac:(discriminate) s).
Qed.

Lemma includes_around (c : ascii) (sub : string) :
  JS.includes (String c EmptyString) sub = false -> sub <> EmptyString ->
  forall s rest,
    JS.includes sub (s ++ String c rest)%string
    = JS.includes sub s || JS.includes sub rest.
Proof.
  intros I Ne s rest. induction s as [|b s IH].
  - cbn [append]. change (JS.includes sub EmptyString) with
      (JS.startsWith sub EmptyString || false).
    destruct sub as [|a sub]; [now elim Ne|].
    apply includes_char in I as [Eq _].
    cbn [JS.includes JS.startsWith]. now rewrite Eq.
  - cbn [append JS.includes].
    change (String b (s ++ String c rest)%string)
      with ((String b s) ++ String c rest)%string.
    rewrite (startsWith_before c rest sub I Ne (String b s)), IH.
    now rewrite orb_assoc.
Qed.

Lemma conflict_mentions_exists (lowerMessage : DbError -> string) (name : string) :
  JS.includes "already exists" (H.errorMessage lowerMessage (AlreadyExists name)) = true.
Proof.
  cbn [H.errorMessage]. apply includes_app_r, includes_app_r. reflexivity.
Qed.

Lemma missing_mentions_not_found (id : string) :
  JS.includes "not found" ("Deck with id '" ++ id ++ "' not found")%string = true.
Proof. apply includes_app_r, includes_app_r. reflexivity. Qed.

Lemma conflict_mentions_not_found (lowerMessage : DbError -> string) (name : string) :
  JS.includes "not found" (H.errorMessage lowerMessage (AlreadyExists name))
  = JS.includes "not found" name.
Proof.
  cbn [H.errorMessage].
  change ("Deck with name '" ++ name ++ "' already exists")%string
    with ("Deck with name " ++ String "'" (name ++ String "'" " already exists"))%string.
  rewrite (includes_around "'" "not found" eq_refl ltac:(discriminate)).
  rewrite (includes_around "'" "not found" eq_refl ltac:(discriminate)).
  change (JS.includes "not found" "Deck with name ") with false.
  change (JS.includes "not found" " already exists") with false.
  now rewrite orb_false_r.
Qed.

(** ** What a failed call leaves in the store *)

Lemma createDeck_throw_store (now : Z) (newId : string) (request : CreateDeckRequest.t)
    (db : Store) (e : Error) :
  fst (U.createDeck now newId request db) = Throw e ->
  snd (U.createDeck now newId request db) = db.
Proof.
  destruct (InvariantProperties.createDeck_store now newId request db)
    as [K | [entity [doc [B A]]]]; [trivial|].
  intros T. exfalso.
  unfold U.createDeck in T, A.
  destruct (U.R.findByName (CreateDeckRequest.name request) db) as [[deck|]|err|];
    cbn [snd] in A;
    try (apply (f_equal (@List.length _)) in A; rewrite length_app in A;
         cbn [List.length] in A; lia).
  destruct (DeckEntity.new _ _ _ _ _ _ _ _ _ _ _ _) as [ent|err|];
    cbn [snd] in A;
    try (apply (f_equal (@List.length _)) in A; rewrite length_app in A;
         cbn [List.length] in A; lia).
  unfold U.R.create, save in T, A.
  destruct (buildDocument now newId ent) as [d|];
    [|cbn [snd] in A; apply (f_equal (@List.length _)) in A; rewrite length_app in A;
      cbn [List.length] in A; lia].
  destruct (existsb (collides d) db);
    [cbn [snd] in A; apply (f_equal (@List.length _)) in A; rewrite length_app in A;
     cbn [List.length] in A; lia|].
  discriminate.
Qed.

Lemma truthy_true (s : string) : s <> EmptyString -> JS.truthy s = true.
Proof. destruct s; [now intros []|reflexivity]. Qed.

(** X24: when the service reports that the name is taken, [POST /decks]
    answers [409 CONFLICT] with the service's message, whatever the name,
    and stores nothing. *)
Theorem create_handler_conflict :
  forall (lowerMessage : DbError -> string) (now : Z) (newId : string)
         (request : CreateDeckRequest.t) (db : Store) (name : string),
    CreateDeckRequest.name request <> EmptyString ->
    CreateDeckRequest.description request <> EmptyString ->
    fst (U.createDeck now newId request db) = Throw (AlreadyExists name) ->
    H.createDeck lowerMessage now newId request db
    = (Some (H.failure 409 ("Deck with name '" ++ name ++ "' already exists") "CONFLICT"),
       db).
Proof.
  intros lowerMessage now newId request db name Nn Nd T.
  assert (K := createDeck_throw_store _ _ _ _ _ T).
  unfold H.createDeck.
  rewrite (truthy_true _ Nn), (truthy_true _ Nd). cbn [negb orb].
  destruct (U.createDeck now newId request db) as [o db'].
  cbn [fst snd] in T, K. subst o db'.
  now rewrite conflict_mentions_exists.
Qed.

Lemma create_handler_conflict_witness :
  H.createDeck MoreExamples.lowerMessage 2000 Examples.id2
    (Examples.deck "LIGHTNING AGGRO") Examples.oneDeck
  = (Some (H.failure 409 "Deck with name 'LIGHTNING AGGRO' already exists" "CONFLICT"),
     Examples.oneDeck).
Proof.
  exact (create_handler_conflict MoreExamples.lowerMessage 2000 Examples.id2
           (Examples.deck "LIGHTNING AGGRO") Examples.oneDeck "LIGHTNING AGGRO"
           ltac:(discriminate) ltac:(discriminate) eq_refl).
Defined.



(** X26: when the service reports that the new name is taken,
    [PUT /decks/:id] answers [409 CONFLICT], unless the requested name
    contains the text ["not found"]: then the same conflict is answered
    with [404 NOT_FOUND].  The store is left as it was. *)
Theorem update_handler_conflict :
  forall (lowerMessage : DbError -> string) (id : string)
         (request : UpdateDeckRequest.t) (now : Z) (db : Store) (name : string),
    id <> EmptyString ->
    fst (U.updateDeck id request now db) = Throw (AlreadyExists name) ->
    H.updateDeck lowerMessage id request now db
    = (Some (if JS.includes "not found" name
             then H.failure 404 ("Deck with name '" ++ name ++ "' already exists")
                    "NOT_FOUND"
             else H.failure 409 ("Deck with name '" ++ name ++ "' already exists")
                    "CONFLICT"),
       db).
Proof.
  intros lowerMessage id request now db name Ni T.
  assert (K : snd (U.updateDeck id request now db) = db).
  { destruct (RoundTripProperties.updateDeck_store id request now db) as [[r R]|K];
      [congruence | exact K]. }
  unfold H.updateDeck. rewrite (truthy_true _ Ni). cbn [negb].
  destruct (U.updateDeck id request now db) as [o db'].
  cbn [fst snd] in T, K. subst o db'.
  rewrite conflict_mentions_not_found, conflict_mentions_exists.
  now destruct (JS.includes "not found" name).
Qed.

Lemma update_handler_conflict_witness :
  H.updateDeck MoreExamples.lowerMessage Examples.id1
    (Examples.rename "card not found") 2000 MoreExamples.lostCard
  = (Some (H.failure 404 "Deck with name 'card not found' already exists" "NOT_FOUND"),
     MoreExamples.lostCard).
Proof.
  exact (update_handler_conflict MoreExamples.lowerMessage Examples.id1
           (Examples.rename "card not found") 2000 MoreExamples.lostCard
           "card not found" ltac:(discriminate) eq_refl).
Defined.

(** X27: for a non-empty identifier that no stored deck has (or that is
    not an ObjectId at all), [GET], [PUT] and [DELETE /decks/:id] answer
    [404 NOT_FOUND] with the message [Deck with id '<id>' not found], and
    the store is left as it was. *)
Theorem missing_deck_is_404 :
  forall (lowerMessage : DbError -> string) (id : string) (db : Store),
    id <> EmptyString ->
    U.R.findById id db = Return None ->
    H.getDeckById id db
    = Some (H.failure 404 ("Deck with id '" ++ id ++ "' not found") "NOT_FOUND")
    /\ (forall request now,
          H.updateDeck lowerMessage id request now db
          = (Some (H.failure 404 ("Deck with id '" ++ id ++ "' not found") "NOT_FOUND"),
             db))
    /\ H.deleteDeck lowerMessage id db
       = (Some (H.failure 404 ("Deck with id '" ++ id ++ "' not found") "NOT_FOUND"),
          db).
Proof.
  intros lowerMessage id db Ni F. split; [|split].
  - unfold H.getDeckById, U.getDeckById, U.omap.
    rewrite (truthy_true _ Ni), F. reflexivity.
  - intros request now. unfold H.updateDeck, U.updateDeck.
    rewrite (truthy_true _ Ni), F. cbn [negb H.errorMessage].
    now rewrite missing_mentions_not_found.
  - unfold H.deleteDeck, U.deleteDeck.
    rewrite (truthy_true _ Ni), F. cbn [negb H.errorMessage].
    now rewrite missing_mentions_not_found.
Qed.

Lemma missing_deck_is_404_witness :
  H.deleteDeck MoreExamples.lowerMessage "42" Examples.oneDeck
  = (Some (H.failure 404 "Deck with id '42' not found" "NOT_FOUND"), Examples.oneDeck)
  /\ H.getDeckById Examples.id2 Examples.oneDeck
     = Some (H.failure 404 "Deck with id '65f1a2b3c4d5e6f708192a02' not found"
               "NOT_FOUND").
Proof.
  split.
  - exact (proj2 (proj2 (missing_deck_is_404 MoreExamples.lowerMessage "42"
                           Examples.oneDeck ltac:(discriminate) eq_refl))).
  - exact (proj1 (missing_deck_is_404 MoreExamples.lowerMessage Examples.id2
                    Examples.oneDeck ltac:(discriminate) eq_refl)).
Defined.

End ControllerProperties.

(* ================================================================== *)
(** * The validation middleware *)
(* ================================================================== *)

Module MiddlewareProperties.

Import Joi.
Module V := ValidationMiddleware.

(** ** The search keyword *)

Lemma length_zero_empty (s : string) : String.length s = 0 -> s = EmptyString.
Proof. destruct s; [reflexivity | discriminate]. Qed.

(** X28: the keyword [validateSearchKeyword] lets through is the trimmed
    text of the parameter: it is not empty, it neither starts nor ends
    with white space, and validating it again lets it through unchanged.
    A parameter that is absent or not a string is answered with [400]. *)
Theorem search_keyword_forwarded :
  forall (keyword : SearchKeyword.queryValue) (forwarded : string),
    SearchKeyword.validateSearchKeyword keyword = SearchKeyword.Next forwarded ->
    (exists s, keyword = SearchKeyword.Text s /\ forwarded = JS.trim s)
    /\ forwarded <> EmptyString
    /\ Spec.trimmed forwarded
    /\ SearchKeyword.validateSearchKeyword (SearchKeyword.Text forwarded)
       = SearchKeyword.Next forwarded.
Proof.
  intros keyword forwarded V.
  destruct keyword as [|s|]; try discriminate.
  unfold SearchKeyword.validateSearchKeyword in V.
  destruct (negb (JS.truthy s)); [discriminate|]. cbn [orb] in V.
  destruct (Nat.eqb (String.length (JS.trim s)) 0) eqn:L; [discriminate|].
  injection V as <-. apply Nat.eqb_neq in L.
  assert (Ne : JS.trim s <> EmptyString) by (intros E; now rewrite E in L).
  assert (T := NameFacts.trim_trimmed s).
  repeat split; [now exists s | exact Ne | exact T |].
  unfold SearchKeyword.validateSearchKeyword. rewrite T.
  destruct (JS.trim s) as [|c r]; [now elim Ne|]. reflexivity.
Qed.

Lemma search_keyword_forwarded_witness :
  SearchKeyword.validateSearchKeyword (SearchKeyword.Text "  goblin rush ")
  = SearchKeyword.Next "goblin rush"
  /\ Spec.trimmed "goblin rush".
Proof.
  split; [reflexivity|].
  exact (proj1 (proj2 (proj2 (search_keyword_forwarded
                                (SearchKeyword.Text "  goblin rush ") "goblin rush"
                                eq_refl)))).
Defined.

(** ** The object schemas *)

Lemma flat_map_nil {A B : Type} (f : A -> list B) (l : list A) :
  flat_map f l = [] <-> forall x, In x l -> f x = [].
Proof.
  induction l as [|a l IH]; cbn [flat_map].
  - split; [intros _ x [] | reflexivity].
  - split.
    + intros E x [<-|Hin]; apply app_eq_nil in E as [E1 E2]; [exact E1|].
      now apply IH.
    + intros All. rewrite (All a (or_introl eq_refl)). cbn [app].
      apply IH. intros x Hin. apply All. now right.
Qed.

Lemma filter_nil {A : Type} (p : A -> bool) (l : list A) :
  (forall x, In x l -> p x = false) -> filter p l = [].
Proof.
  induction l as [|a l IH]; intros All; [reflexivity|]. cbn [filter].
  rewrite (All a (or_introl eq_refl)). apply IH. intros x Hin. apply All. now right.
Qed.

(** X29: [validateUpdateDeck] answers [400] with the one detail
    [object.min] for every body that has none of the eleven fields of a
    deck: the empty body, and a body of unknown keys only. *)
Theorem update_needs_a_known_field :
  forall (isUri : string -> bool) (members : list (string * Json.t)),
    (forall k, In k (keys V.updateDeckSchema) -> Json.lookup (name k) members = None) ->
    V.validateUpdateDeck isUri (Json.Obj members)
    = V.Status400 [V.mkFieldMessage "" (Default "object.min")].
Proof.
  intros isUri members Unknown.
  unfold V.validateUpdateDeck, V.run, validate.
  assert (E : flat_map (fun k => keyDetails isUri k members) (keys V.updateDeckSchema)
              = []).
  { apply flat_map_nil. intros k Hin. unfold keyDetails, keyErrors.
    rewrite (Unknown k Hin).
    cbn in Hin. repeat (destruct Hin as [<-|Hin]; [reflexivity|]). now elim Hin. }
  rewrite E.
  rewrite (filter_nil (present members) (keys V.updateDeckSchema)).
  - reflexivity.
  - intros k Hin. unfold present. now rewrite (Unknown k Hin).
Qed.

Lemma update_needs_a_known_field_witness :
  V.validateUpdateDeck (fun _ => true) (Json.Obj [("owner", Json.Str "Jace")])
  = V.Status400 [V.mkFieldMessage "" (Default "object.min")].
Proof.
  apply (update_needs_a_known_field (fun _ => true) [("owner", Json.Str "Jace")]).
  intros k Hin. cbn in Hin.
  repeat (destruct Hin as [<-|Hin]; [reflexivity|]). now elim Hin.
Defined.

(** ** The forwarded body *)

Section Forwarded.

Variable isUri : string -> bool.

Lemma when_nil (b : bool) (t : string) : when b t = [] -> b = false.
Proof. destruct b; [discriminate | reflexivity]. Qed.

Lemma map_nil {A B : Type} (f : A -> B) (l : list A) : map f l = [] -> l = [].
Proof. destruct l; [reflexivity | discriminate]. Qed.

Lemma trim_idem (s : string) : JS.trim (JS.trim s) = JS.trim s.
Proof. exact (NameFacts.trim_trimmed s). Qed.

Lemma check_convert (k : kind) :
  forall v, check isUri k v = [] -> check isUri k (convert k v) = [].
Proof.
  induction k as [trim min max uri | values | | items IH min max]; intros v C.
  - destruct v as [| | |s| |]; try discriminate.
    destruct trim; cbn [convert]; [|exact C].
    cbn [check] in *. now rewrite trim_idem.
  - destruct v; exact C.
  - destruct v as [| | |s| |]; try discriminate; [exact C|].
    cbn [check] in C. apply when_nil, negb_false_iff in C.
    cbn [convert]. destruct (String.eqb (JS.toLowerCase s) "true"); [reflexivity|].
    cbn [orb] in C. now rewrite C.
  - destruct v as [| | | |l|]; try discriminate.
    cbn [check] in C. apply app_eq_nil in C as [Each C].
    cbn [convert check]. rewrite length_map, C, app_nil_r.
    clear C. revert Each. generalize 0.
    induction l as [|x r IHl]; intros i Each; [reflexivity|].
    cbn [map]. apply app_eq_nil in Each as [Hx Hr].
    apply map_nil in Hx. rewrite (IH x Hx). cbn [map app]. now apply IHl.
Qed.

Lemma convert_idem (k : kind) : forall v, convert k (convert k v) = convert k v.
Proof.
  induction k as [trim min max uri | values | | items IH min max]; intros v.
  - destruct trim, v; cbn [convert]; try reflexivity. now rewrite trim_idem.
  - destruct v; reflexivity.
  - destruct v as [| | |s| |]; try reflexivity. cbn [convert].
    destruct (String.eqb (JS.toLowerCase s) "true") eqn:T; [reflexivity|].
    destruct (String.eqb (JS.toLowerCase s) "false") eqn:F; [reflexivity|].
    cbn [convert]. now rewrite T, F.
  - destruct v as [| | | |l|]; try reflexivity. cbn [convert].
    f_equal. rewrite map_map. apply map_ext. exact IH.
Qed.

Variable o : object.
Hypothesis keys_distinct : NoDup (map name (keys o)).

Lemma key_by_name (k k' : key) :
  In k (keys o) -> In k' (keys o) -> name k = name k' -> k = k'.
Proof.
  revert keys_distinct. generalize (keys o). intros l.
  induction l as [|a l IH]; intros ND Hk Hk' E; [now elim Hk|].
  cbn [map] in ND. apply NoDup_cons_iff in ND as [Nin ND].
  destruct Hk as [<-|Hk], Hk' as [<-|Hk'].
  - reflexivity.
  - elim Nin. rewrite E. now apply in_map.
  - elim Nin. rewrite <- E. now apply in_map.
  - now apply IH.
Qed.

Lemma lookup_value (members : list (string * Json.t)) (k : key) :
  In k (keys o) ->
  match value o (Json.Obj members) with
  | Json.Obj members' =>
      Json.lookup (name k) members'
      = option_map (convert (schema k)) (Json.lookup (name k) members)
  | _ => False
  end.
Proof.
  intros Hin. cbn [value].
  induction members as [|[n x] r IH]; [reflexivity|].
  cbn [flat_map fst snd Json.lookup].
  destruct (List.find (fun k0 => String.eqb (name k0) n) (keys o)) as [k'|] eqn:F.
  - apply find_some in F as [Hin' E]. apply String.eqb_eq in E.
    cbn [app Json.lookup].
    destruct (String.eqb n (name k)) eqn:N; [|exact IH].
    apply String.eqb_eq in N. cbn [option_map].
    now rewrite (key_by_name k' k Hin' Hin (eq_trans E N)).
  - cbn [app]. rewrite IH.
    assert (N := find_none _ _ F k Hin). cbn beta in N.
    rewrite String.eqb_sym in N. now rewrite N.
Qed.

Lemma value_idem (body : Json.t) : value o (value o body) = value o body.
Proof.
  destruct body as [| | | | |members]; try reflexivity. cbn [value]. f_equal.
  induction members as [|[n x] r IH]; [reflexivity|].
  cbn [flat_map fst snd].
  destruct (List.find (fun k => String.eqb (name k) n) (keys o)) as [k|] eqn:F;
    [|exact IH].
  cbn [app flat_map fst snd]. rewrite F, IH. cbn [app].
  now rewrite convert_idem.
Qed.

Lemma validate_value (body : Json.t) :
  validate isUri o false body = [] -> validate isUri o false (value o body) = [].
Proof.
  destruct body as [| | | | |members]; try discriminate.
  intros Ok. assert (L := lookup_value members).
  cbn [value] in *. unfold validate in *.
  set (members' := flat_map _ members) in *.
  destruct (flat_map (fun k => keyDetails isUri k members) (keys o)) eqn:D;
    [|discriminate].
  assert (D' : flat_map (fun k => keyDetails isUri k members') (keys o) = []).
  { apply flat_map_nil. intros k Hin.
    assert (Dk := proj1 (flat_map_nil _ _) D k Hin). cbn beta in Dk.
    unfold keyDetails in *. apply map_nil in Dk. unfold keyErrors in *.
    rewrite (L k Hin).
    destruct (Json.lookup (name k) members) as [x|]; cbn [option_map];
      [|now rewrite Dk].
    apply map_nil in Dk. now rewrite (check_convert _ _ Dk). }
  rewrite D'.
  rewrite (filter_ext_in (present members') (present members)); [exact Ok|].
  intros k Hin. unfold present. rewrite (L k Hin).
  now destruct (Json.lookup (name k) members).
Qed.

Lemma run_forwarded (body forwarded : Json.t) :
  V.run isUri o body = V.Next forwarded ->
  V.run isUri o forwarded = V.Next forwarded.
Proof.
  unfold V.run. destruct (validate isUri o false body) eqn:Ok; [|discriminate].
  intros [= <-]. now rewrite (validate_value body Ok), value_idem.
Qed.

End Forwarded.

(** X30: the body that [validateCreateDeck] or [validateUpdateDeck]
    hands to the next handler (unknown keys stripped, strings trimmed,
    booleans converted) itself passes the same validation, and passes it
    unchanged. *)
Theorem forwarded_body_is_valid :
  forall (isUri : string -> bool) (o : object) (body forwarded : Json.t),
    o = V.createDeckSchema \/ o = V.updateDeckSchema ->
    V.run isUri o body = V.Next forwarded ->
    V.run isUri o forwarded = V.Next forwarded.
Proof.
  intros isUri o body forwarded Which.
  apply run_forwarded.
  destruct Which as [-> | ->]; cbn;
    repeat (apply NoDup_cons; [cbn; intuition discriminate|]); apply NoDup_nil.
Qed.

Lemma forwarded_body_is_valid_witness :
  V.validateUpdateDeck (fun _ => true)
    (Json.Obj [("name", Json.Str "  Goblin Rush "); ("isComplete", Json.Str "TRUE")])
  = V.Next (Json.Obj [("name", Json.Str "Goblin Rush"); ("isComplete", Json.Bool true)])
  /\ V.validateUpdateDeck (fun _ => true)
       (Json.Obj [("name", Json.Str "Goblin Rush"); ("isComplete", Json.Bool true)])
     = V.Next (Json.Obj [("name", Json.Str "Goblin Rush"); ("isComplete", Json.Bool true)]).
Proof.
  split; [reflexivity|].
  exact (forwarded_body_is_valid (fun _ => true) V.updateDeckSchema
           (Json.Obj [("name", Json.Str "  Goblin Rush "); ("isComplete", Json.Str "TRUE")])
           (Json.Obj [("name", Json.Str "Goblin Rush"); ("isComplete", Json.Bool true)])
           (or_intror eq_refl) eq_refl).
Defined.

End MiddlewareProperties.
